(** * Take Time: the host's game-state machine, the deal, the bot selector
      and the resolution sequencer

    A shallow embedding of [types.ts], [constants.ts], [utils/gameUtils.ts]
    and the host logic of [App.tsx] (lobby set-up, abort and rendering are
    left out).  JavaScript numbers that the code uses
    as counters and indices are integers here ([Z]); the one place where the
    code can produce [NaN] (a remainder by an empty participant list) is
    kept visible through the type [num].  Card values are integers too,
    added exactly; the code adds them as IEEE doubles, which is the same
    sum as long as the values and every partial sum are safe integers
    ([safeInteger]); the statements that depend on a sum of card values
    assume so ([exactBoard]).  Arrays are lists, read with
    [js_get]; an exception raised by the code is the outcome [Threw]. *)

From Stdlib Require Import ZArith Lia.
From stdpp Require Import base option list strings pretty gmap.

Open Scope Z_scope.

(** ** JavaScript primitives used by the code *)

(** A number that may be [NaN]: [(i + 1) % 0] is [NaN] in JavaScript. *)
Inductive num : Type :=
  | Num (z : Z)
  | NaN.

#[global] Instance num_eq_dec : EqDecision num.
Proof. solve_decision. Defined.

(** [a % b] on integers: the sign follows the dividend, [NaN] when [b = 0]. *)
Definition js_rem (a b : Z) : num :=
  if b =? 0 then NaN else Num (Z.rem a b).

(** [arr[i]]: [undefined] ([None]) unless [i] is an index of the array. *)
Definition js_get {A : Type} (arr : list A) (i : Z) : option A :=
  if 0 <=? i then arr !! Z.to_nat i else None.

Definition js_get_num {A : Type} (arr : list A) (i : num) : option A :=
  match i with
  | Num z => js_get arr z
  | NaN => None
  end.

(** [arr.findIndex(f)]: the first index whose element satisfies [f], or -1. *)
Fixpoint findIndex {A : Type} (f : A -> bool) (arr : list A) : Z :=
  match arr with
  | [] => -1
  | x :: rest =>
      if f x then 0
      else let r := findIndex f rest in
           if r =? -1 then -1 else r + 1
  end.

(** [arr.every(f)] and [arr.some(f)]. *)
Definition every {A : Type} (f : A -> bool) (arr : list A) : bool := forallb f arr.
Definition some {A : Type} (f : A -> bool) (arr : list A) : bool := existsb f arr.

(** [Number.isSafeInteger(z)]: the integers of magnitude up to 2^53 - 1.
    An addition of doubles whose operands and result are safe integers is
    exact. *)
Definition MAX_SAFE_INTEGER : Z := 9007199254740991.

Definition safeInteger (z : Z) : bool :=
  (- MAX_SAFE_INTEGER <=? z) && (z <=? MAX_SAFE_INTEGER).

(** [arr.length] as a number. *)
Definition len {A : Type} (arr : list A) : Z := Z.of_nat (length arr).

(** The outcome of running a handler: it returns, or it throws (a
    [TypeError] on reading a property of [undefined]) and the statements
    after the throwing one are not executed.  In every handler modelled
    below the statement that can throw comes before the first write, so a
    handler that throws leaves the component as it was. *)
Inductive outcome (A : Type) : Type :=
  | Returned (a : A)
  | Threw.
Arguments Returned {A} a.
Arguments Threw {A}.

(** ** types.ts *)

Inductive CardType : Type := SOLAR | LUNAR.

#[global] Instance CardType_eq_dec : EqDecision CardType.
Proof. solve_decision. Defined.

Module Card.
Record t : Type := mk {
  id : string;
  type : CardType;
  value : Z;
  isFaceUp : bool;
  ownerId : option string
}.
End Card.

Module ClockSegment.
Record t : Type := mk {
  index : Z;
  cards : list Card.t
}.
End ClockSegment.

Module Player.
Record t : Type := mk {
  id : string;
  name : string;
  hand : list Card.t;
  isLocal : bool
}.
End Player.

(** [GamePhase] united with [ExtendedGamePhase] of App.tsx. *)
Inductive GamePhase : Type :=
  | LOBBY
  | SETUP
  | DISCUSSION
  | START_PLAYER_SELECTION
  | PLACEMENT
  | RESOLUTION.

#[global] Instance GamePhase_eq_dec : EqDecision GamePhase.
Proof. solve_decision. Defined.

Module ValidationResult.
Record t : Type := mk {
  passed : bool;
  message : option string
}.
End ValidationResult.

Module ClockDefinition.
(** [segmentRules] and [visualHints] are objects keyed by segment index;
    every optional member is an [option]. *)
Record t : Type := mk {
  id : string;
  name : string;
  chapter : Z;
  description : string;
  startingSegmentIndex : Z;
  maxTotal : option Z;
  visualHints : option (gmap Z string);
  segmentRules : option (gmap Z (ClockSegment.t -> ValidationResult.t));
  globalRules : option (list ClockSegment.t -> ValidationResult.t);
  placementRestriction :
    option (Card.t -> Z -> list ClockSegment.t -> Z -> ValidationResult.t)
}.
End ClockDefinition.

(** ** constants.ts *)

Definition TOTAL_SEGMENTS : Z := 6.

(** [cards.reduce((acc, c) => acc + c.value, 0)], for card values and
    partial sums that are safe integers. *)
Definition sumCards (cards : list Card.t) : Z :=
  fold_left (fun acc c => acc + Card.value c) cards 0.

Definition ok : ValidationResult.t := ValidationResult.mk true None.
Definition ko (msg : string) : ValidationResult.t :=
  ValidationResult.mk false (Some msg).

(** Entry 1 of [CLOCK_DEFINITIONS]: slot 3 sums to 8..12, slot 4 holds
    exactly three cards; no placement restriction. *)
Definition clock_II : ClockDefinition.t :=
  ClockDefinition.mk "c1-2" "Clock II" 1
    "Slot 3: Sum 8-12. Slot 4: Exactly 3 cards."
    0 (Some 999)
    (Some (<[2 := "Σ 8-12"]> (<[3 := "3 Cards"]> ∅)))
    (Some (<[2 := fun seg =>
                 let total := sumCards (ClockSegment.cards seg) in
                 if (8 <=? total) && (total <=? 12) then ok
                 else ko ("Slot 3 sum is " +:+ pretty total +:+ ", must be 8-12.")]>
          (<[3 := fun seg =>
                 if len (ClockSegment.cards seg) =? 3 then ok
                 else ko "Slot 4 must have exactly 3 cards."]> ∅)))
    None
    None.

(** Entry 2 of [CLOCK_DEFINITIONS]: the first card goes to slot 3, the
    second to slot 2; slot 6 sums to 20..30. *)
Definition clock_III : ClockDefinition.t :=
  ClockDefinition.mk "c1-3" "Clock III" 1
    "1st Card -> Slot 3. 2nd Card -> Slot 2. Slot 6: Sum 20-30."
    0 (Some 999)
    (Some (<[2 := "1st Card"]> (<[1 := "2nd Card"]> (<[5 := "Σ 20-30"]> ∅))))
    (Some (<[5 := fun seg =>
                 let total := sumCards (ClockSegment.cards seg) in
                 if (20 <=? total) && (total <=? 30) then ok
                 else ko ("Slot 6 sum is " +:+ pretty total +:+ ", must be 20-30.")]> ∅))
    None
    (Some (fun _card targetIndex _currentSegments cardsPlayedTotal =>
             if (cardsPlayedTotal =? 0) && negb (targetIndex =? 2)
             then ko "1st card must go to Slot 3."
             else if (cardsPlayedTotal =? 1) && negb (targetIndex =? 1)
             then ko "2nd card must go to Slot 2."
             else ok)).

(** ** utils/gameUtils.ts *)

Module GameUtils.

(** The 24 cards [createDeck] builds before it shuffles them: solar 1..12,
    then lunar 1..12, all face down and unowned. *)
Definition newCard (prefix : string) (ty : CardType) (i : Z) : Card.t :=
  Card.mk (prefix +:+ pretty i) ty i false None.

Definition unshuffledDeck : list Card.t :=
  map (newCard "s-" SOLAR) (seqZ 1 12) ++ map (newCard "l-" LUNAR) (seqZ 1 12).

(** [[array[currentIndex], array[randomIndex]] = [array[randomIndex], array[currentIndex]]].
    A draw lies in [0 .. currentIndex]; for an index outside the array,
    where JavaScript would grow the array, the model leaves it as it is. *)
Definition swap {A : Type} (array : list A) (currentIndex : nat) (randomIndex : Z)
    : list A :=
  match array !! currentIndex, js_get array randomIndex with
  | Some x, Some y => <[Z.to_nat randomIndex := x]> (<[currentIndex := y]> array)
  | _, _ => array
  end.

(** The loop of [shuffle], counted down from [currentIndex].  [random n]
    stands for the value of [Math.floor(Math.random() * n)]; the loop draws
    once for each bound. *)
Fixpoint shuffleFrom {A : Type} (random : Z -> Z) (currentIndex : nat)
    (array : list A) : list A :=
  match currentIndex with
  | O => array
  | S next =>
      let randomIndex := random (Z.of_nat currentIndex) in
      shuffleFrom random next (swap array next randomIndex)
  end.

Definition shuffle {A : Type} (random : Z -> Z) (array : list A) : list A :=
  shuffleFrom random (length array) array.

Definition createDeck (random : Z -> Z) : list Card.t :=
  shuffle random unshuffledDeck.

Definition cardsPerPlayer (playerCount : Z) : Z :=
  let c := 4 in
  let c := if playerCount =? 4 then 3 else c in
  let c := if playerCount =? 2 then 6 else c in
  c.

(** The inner loop of [dealCards]: [n] iterations of
    [if (cardIdx < deck.length) { hands[p].push(deck[cardIdx]); cardIdx++ }]. *)
Fixpoint dealTo (deck : list Card.t) (p : nat) (n : nat)
    (st : list (list Card.t) * nat) : list (list Card.t) * nat :=
  match n with
  | O => st
  | S n' =>
      let '(hands, cardIdx) := st in
      dealTo deck p n'
        match deck !! cardIdx with
        | Some c => (alter (fun h => h ++ [c]) p hands, S cardIdx)
        | None => st
        end
  end.

(** [dealCards(deck, playerCount)]: [Array.from({length: playerCount})]
    and both loops run zero times for a count below 1. *)
Definition dealCards (deck : list Card.t) (playerCount : Z) : list (list Card.t) :=
  let hands := replicate (Z.to_nat playerCount) [] in
  let perPlayer := Z.to_nat (cardsPerPlayer playerCount) in
  fst (fold_left (fun st p => dealTo deck p perPlayer st)
                 (seq 0 (Z.to_nat playerCount)) (hands, 0%nat)).

Definition isValidMove (card : Card.t) (segmentIndex : Z)
    (segments : list ClockSegment.t) (definition : ClockDefinition.t)
    (cardsPlayedTotal : Z) : bool :=
  match ClockDefinition.placementRestriction definition with
  | Some restriction =>
      if negb (ValidationResult.passed
                 (restriction card segmentIndex segments cardsPlayedTotal))
      then false else true
  | None => true
  end.

(** The nested loops of [findBestBotMove]: cards in hand order, and for
    each card the slots 0..5 in order. *)
Definition validMoves (hand : list Card.t) (segments : list ClockSegment.t)
    (definition : ClockDefinition.t) (cardsPlayedTotal : Z) : list (Card.t * Z) :=
  flat_map (fun card =>
    flat_map (fun i =>
      if isValidMove card i segments definition cardsPlayedTotal
      then [(card, i)] else [])
      (seqZ 0 TOTAL_SEGMENTS))
    hand.

(** [findBestBotMove].  [random n] stands for the value that
    [Math.floor(Math.random() * n)] takes in this call (the function draws
    once).  A draw outside the array reads [undefined], which the caller
    treats like [null]. *)
Definition findBestBotMove (random : Z -> Z) (hand : list Card.t)
    (segments : list ClockSegment.t) (definition : ClockDefinition.t)
    (cardsPlayedTotal : Z) : option (Card.t * Z) :=
  let moves := validMoves hand segments definition cardsPlayedTotal in
  if 0 <? len moves then js_get moves (random (len moves))
  else
    match hand with
    | first :: _ => Some (first, random TOTAL_SEGMENTS)
    | [] => None
    end.


(** The three checks in the body of the loop of [validateClock]; each
    pushes at most one failing result. *)

(** [if (i === 0) { ... } else { if (currentSum < previousSum) results.push(...) ... }];
    [previousSum] becomes [currentSum] on both branches. *)
Definition pushAscending (i currentIdx currentSum previousSum : Z)
    (results : list ValidationResult.t) : list ValidationResult.t :=
  if i =? 0 then results
  else if currentSum <? previousSum
  then results ++
       [ko ("Ascending violation at Segment " +:+ pretty (currentIdx + 1)
            +:+ " (Sum: " +:+ pretty currentSum
            +:+ ") vs previous (Sum: " +:+ pretty previousSum +:+ ").")]
  else results.

(** [if (definition.maxTotal && currentSum > definition.maxTotal) ...]:
    a maximum of 0 is falsy, like an absent one. *)
Definition pushMaxTotal (definition : ClockDefinition.t) (currentIdx currentSum : Z)
    (results : list ValidationResult.t) : list ValidationResult.t :=
  match ClockDefinition.maxTotal definition with
  | Some maxTotal =>
      if negb (maxTotal =? 0) && (maxTotal <? currentSum)
      then results ++
           [ko ("Segment " +:+ pretty (currentIdx + 1) +:+ " sum ("
                +:+ pretty currentSum +:+ ") exceeds limit of "
                +:+ pretty maxTotal +:+ ".")]
      else results
  | None => results
  end.

(** [if (definition.segmentRules && definition.segmentRules[currentIdx]) ...] *)
Definition pushSegmentRule (definition : ClockDefinition.t) (currentIdx : Z)
    (seg : ClockSegment.t) (results : list ValidationResult.t)
    : list ValidationResult.t :=
  match ClockDefinition.segmentRules definition with
  | Some rules =>
      match rules !! currentIdx with
      | Some rule =>
          let res := rule seg in
          if negb (ValidationResult.passed res) then results ++ [res]
          else results
      | None => results
      end
  | None => results
  end.

(** Step 2 of [validateClock] for one [i]: the state is [previousSum] and
    the [results] pushed so far.  Reading [segments[currentIdx].cards] of a
    missing segment throws. *)
Definition validateStep (segments : list ClockSegment.t)
    (definition : ClockDefinition.t) (i : Z)
    (st : Z * list ValidationResult.t) : outcome (Z * list ValidationResult.t) :=
  let '(previousSum, results) := st in
  let currentIdx := Z.rem (ClockDefinition.startingSegmentIndex definition + i)
                          TOTAL_SEGMENTS in
  match js_get segments currentIdx with
  | None => Threw
  | Some seg =>
      let currentSum := sumCards (ClockSegment.cards seg) in
      let results := pushAscending i currentIdx currentSum previousSum results in
      let results := pushMaxTotal definition currentIdx currentSum results in
      let results := pushSegmentRule definition currentIdx seg results in
      Returned (currentSum, results)
  end.

Fixpoint validateLoop (segments : list ClockSegment.t)
    (definition : ClockDefinition.t) (indices : list Z)
    (st : Z * list ValidationResult.t) : outcome (Z * list ValidationResult.t) :=
  match indices with
  | [] => Returned st
  | i :: rest =>
      match validateStep segments definition i st with
      | Threw => Threw
      | Returned st' => validateLoop segments definition rest st'
      end
  end.

(** Step 1: one "is empty" result per segment without cards. *)
Definition emptyResults (segments : list ClockSegment.t) : list ValidationResult.t :=
  flat_map (fun seg =>
    if len (ClockSegment.cards seg) =? 0
    then [ko ("Segment " +:+ pretty (ClockSegment.index seg + 1) +:+ " is empty.")]
    else [])
    segments.

(** [if (definition.globalRules) { ... if (!res.passed) results.push(res) }] *)
Definition pushGlobalRule (definition : ClockDefinition.t)
    (segments : list ClockSegment.t) (results : list ValidationResult.t)
    : list ValidationResult.t :=
  match ClockDefinition.globalRules definition with
  | Some rule =>
      let res := rule segments in
      if negb (ValidationResult.passed res) then results ++ [res]
      else results
  | None => results
  end.

Definition validateClock (segments : list ClockSegment.t)
    (definition : ClockDefinition.t) : outcome (list ValidationResult.t) :=
  let results := emptyResults segments in
  match validateLoop segments definition (seqZ 0 TOTAL_SEGMENTS) (-1, results) with
  | Threw => Threw
  | Returned (_, results) =>
      let results := pushGlobalRule definition segments results in
      if len results =? 0
      then Returned [ValidationResult.mk true (Some "Clock Validated Successfully!")]
      else Returned results
  end.

End GameUtils.

(** ** App.tsx: the canonical state and the messages *)

(** An entry of [resolutionResults]: the tick always sets [message]. *)
Module ResolutionResult.
Record t : Type := mk {
  index : Z;
  passed : bool;
  message : string
}.
End ResolutionResult.

(** The object held by [gameStateRef.current]; the React cells [phase],
    [activeClockDef], ..., [systemMessage] of the component have the same
    shape, and the synchronising effect copies them into the ref. *)
Module GameState.
Record t : Type := mk {
  phase : GamePhase;
  activeClockDef : ClockDefinition.t;
  clockSegments : list ClockSegment.t;
  players : list Player.t;
  currentPlayerIndex : num;
  faceUpTokensUsed : Z;
  cardsPlayedCount : Z;
  clockDefId : string;
  resolutionStep : Z;
  resolutionResults : list ResolutionResult.t;
  systemMessage : string
}.

Definition set_phase (v : GamePhase) (s : t) : t :=
  mk v (activeClockDef s) (clockSegments s) (players s) (currentPlayerIndex s)
     (faceUpTokensUsed s) (cardsPlayedCount s) (clockDefId s)
     (resolutionStep s) (resolutionResults s) (systemMessage s).
Definition set_clockSegments (v : list ClockSegment.t) (s : t) : t :=
  mk (phase s) (activeClockDef s) v (players s) (currentPlayerIndex s)
     (faceUpTokensUsed s) (cardsPlayedCount s) (clockDefId s)
     (resolutionStep s) (resolutionResults s) (systemMessage s).
Definition set_players (v : list Player.t) (s : t) : t :=
  mk (phase s) (activeClockDef s) (clockSegments s) v (currentPlayerIndex s)
     (faceUpTokensUsed s) (cardsPlayedCount s) (clockDefId s)
     (resolutionStep s) (resolutionResults s) (systemMessage s).
Definition set_currentPlayerIndex (v : num) (s : t) : t :=
  mk (phase s) (activeClockDef s) (clockSegments s) (players s) v
     (faceUpTokensUsed s) (cardsPlayedCount s) (clockDefId s)
     (resolutionStep s) (resolutionResults s) (systemMessage s).
Definition set_faceUpTokensUsed (v : Z) (s : t) : t :=
  mk (phase s) (activeClockDef s) (clockSegments s) (players s)
     (currentPlayerIndex s) v (cardsPlayedCount s) (clockDefId s)
     (resolutionStep s) (resolutionResults s) (systemMessage s).
Definition set_cardsPlayedCount (v : Z) (s : t) : t :=
  mk (phase s) (activeClockDef s) (clockSegments s) (players s)
     (currentPlayerIndex s) (faceUpTokensUsed s) v (clockDefId s)
     (resolutionStep s) (resolutionResults s) (systemMessage s).
Definition set_clockDefId (v : string) (s : t) : t :=
  mk (phase s) (activeClockDef s) (clockSegments s) (players s)
     (currentPlayerIndex s) (faceUpTokensUsed s) (cardsPlayedCount s) v
     (resolutionStep s) (resolutionResults s) (systemMessage s).
Definition set_resolutionStep (v : Z) (s : t) : t :=
  mk (phase s) (activeClockDef s) (clockSegments s) (players s)
     (currentPlayerIndex s) (faceUpTokensUsed s) (cardsPlayedCount s)
     (clockDefId s) v (resolutionResults s) (systemMessage s).
Definition set_resolutionResults (v : list ResolutionResult.t) (s : t) : t :=
  mk (phase s) (activeClockDef s) (clockSegments s) (players s)
     (currentPlayerIndex s) (faceUpTokensUsed s) (cardsPlayedCount s)
     (clockDefId s) (resolutionStep s) v (systemMessage s).
Definition set_systemMessage (v : string) (s : t) : t :=
  mk (phase s) (activeClockDef s) (clockSegments s) (players s)
     (currentPlayerIndex s) (faceUpTokensUsed s) (cardsPlayedCount s)
     (clockDefId s) (resolutionStep s) (resolutionResults s) v.
End GameState.

(** What [sanitizeStateForNetwork] produces: the state without
    [activeClockDef], after a JSON round trip ([NaN] is serialised as
    [null]). *)
Module Snapshot.
Record t : Type := mk {
  phase : GamePhase;
  clockSegments : list ClockSegment.t;
  players : list Player.t;
  currentPlayerIndex : option Z;
  faceUpTokensUsed : Z;
  cardsPlayedCount : Z;
  clockDefId : string;
  resolutionStep : Z;
  resolutionResults : list ResolutionResult.t;
  systemMessage : string
}.
End Snapshot.

(** The payloads exchanged over a peer connection, by their [type]. *)
Inductive Message : Type :=
  | STATE_UPDATE (state : Snapshot.t)
  | ERROR (message : string)
  | RESET
  | JOIN (playerId name : string)
  | MOVE (playerId : string) (card : Card.t) (segmentIndex : Z) (faceUp : bool)
  | CLAIM_START (playerId name : string)
  | OTHER.

(** A peer connection is known by a handle; whether it is open is a fact
    of the transport ([App.connOpen]). *)
Definition Connection : Type := nat.

(** The own keys of a plain object (prototype [Object.prototype]) used
    as a dictionary, in the order [Object.values] lists them: first the
    keys that are array indices, in ascending numeric order, then the other
    keys in the order they were created.  An array index is a canonical
    numeric string below 2^32 - 1: decimal digits, no leading zero. *)
Definition digitValue (a : Ascii.ascii) : option N :=
  let n := Ascii.N_of_ascii a in
  if ((48 <=? n) && (n <=? 57))%N then Some (n - 48)%N else None.

Fixpoint digitsValue (s : string) (acc : N) : option N :=
  match s with
  | EmptyString => Some acc
  | String a rest =>
      match digitValue a with
      | Some d => digitsValue rest (10 * acc + d)%N
      | None => None
      end
  end.

Definition arrayIndex (s : string) : option N :=
  match s with
  | EmptyString => None
  | String a rest =>
      if (Ascii.N_of_ascii a =? 48)%N && negb (String.eqb rest "") then None
      else
        match digitsValue s 0 with
        | Some n => if (n <? 4294967295)%N then Some n else None
        | None => None
        end
  end.

(** [key in obj], for own keys. *)
Definition obj_has {V : Type} (key : string) (obj : list (string * V)) : bool :=
  existsb (fun e => String.eqb (fst e) key) obj.

(** The new value of an existing key: the key keeps its place. *)
Fixpoint obj_replace {V : Type} (key : string) (v : V) (obj : list (string * V))
    : list (string * V) :=
  match obj with
  | [] => []
  | (k, w) :: rest =>
      if String.eqb k key then (k, v) :: rest else (k, w) :: obj_replace key v rest
  end.

(** A new key that is the array index [n]: it goes after the array
    indices below it. *)
Fixpoint obj_insert_index {V : Type} (n : N) (key : string) (v : V)
    (obj : list (string * V)) : list (string * V) :=
  match obj with
  | [] => [(key, v)]
  | (k, w) :: rest =>
      match arrayIndex k with
      | Some m =>
          if (m <? n)%N then (k, w) :: obj_insert_index n key v rest
          else (key, v) :: obj
      | None => (key, v) :: obj
      end
  end.

(** [obj[key] = v].  The key [__proto__] is the accessor of
    [Object.prototype]: the assignment calls its setter and creates no own
    key, so [Object.values] does not list the value. *)
Definition obj_set {V : Type} (key : string) (v : V) (obj : list (string * V))
    : list (string * V) :=
  if String.eqb key "__proto__" then obj
  else if obj_has key obj then obj_replace key v obj
  else
    match arrayIndex key with
    | Some n => obj_insert_index n key v obj
    | None => obj ++ [(key, v)]
    end.

(** ** App.tsx: the component's state and the host handlers *)

Module App.

(** The cells of the component: [ui] groups the React state that mirrors
    the canonical state, [gameStateRef] is the host's source of truth
    ([None] is the initial [null]), [sent] logs every [send] on a
    connection, oldest first. *)
Record t : Type := mk {
  ui : GameState.t;
  gameStateRef : option GameState.t;
  myPlayerId : string;
  myName : string;
  selectedCardId : option string;
  playFaceUp : bool;
  feedback : string;
  isHost : bool;
  conn : option Connection;
  connectedPeersList : list (string * string);
  playerCountSetting : Z;
  peerConnectionsRef : list (string * Connection);
  connOpen : Connection -> bool;
  sent : list (Connection * Message)
}.

Definition upd_ui (f : GameState.t -> GameState.t) (a : t) : t :=
  mk (f (ui a)) (gameStateRef a) (myPlayerId a) (myName a) (selectedCardId a)
     (playFaceUp a) (feedback a) (isHost a) (conn a) (connectedPeersList a)
     (playerCountSetting a) (peerConnectionsRef a) (connOpen a) (sent a).
Definition set_gameStateRef (v : option GameState.t) (a : t) : t :=
  mk (ui a) v (myPlayerId a) (myName a) (selectedCardId a)
     (playFaceUp a) (feedback a) (isHost a) (conn a) (connectedPeersList a)
     (playerCountSetting a) (peerConnectionsRef a) (connOpen a) (sent a).
Definition setSelectedCardId (v : option string) (a : t) : t :=
  mk (ui a) (gameStateRef a) (myPlayerId a) (myName a) v
     (playFaceUp a) (feedback a) (isHost a) (conn a) (connectedPeersList a)
     (playerCountSetting a) (peerConnectionsRef a) (connOpen a) (sent a).
Definition setPlayFaceUp (v : bool) (a : t) : t :=
  mk (ui a) (gameStateRef a) (myPlayerId a) (myName a) (selectedCardId a)
     v (feedback a) (isHost a) (conn a) (connectedPeersList a)
     (playerCountSetting a) (peerConnectionsRef a) (connOpen a) (sent a).
Definition setFeedback (v : string) (a : t) : t :=
  mk (ui a) (gameStateRef a) (myPlayerId a) (myName a) (selectedCardId a)
     (playFaceUp a) v (isHost a) (conn a) (connectedPeersList a)
     (playerCountSetting a) (peerConnectionsRef a) (connOpen a) (sent a).
Definition setConnectedPeersList (v : list (string * string)) (a : t) : t :=
  mk (ui a) (gameStateRef a) (myPlayerId a) (myName a) (selectedCardId a)
     (playFaceUp a) (feedback a) (isHost a) (conn a) v
     (playerCountSetting a) (peerConnectionsRef a) (connOpen a) (sent a).
Definition set_peerConnectionsRef (v : list (string * Connection)) (a : t) : t :=
  mk (ui a) (gameStateRef a) (myPlayerId a) (myName a) (selectedCardId a)
     (playFaceUp a) (feedback a) (isHost a) (conn a) (connectedPeersList a)
     (playerCountSetting a) v (connOpen a) (sent a).
Definition set_sent (v : list (Connection * Message)) (a : t) : t :=
  mk (ui a) (gameStateRef a) (myPlayerId a) (myName a) (selectedCardId a)
     (playFaceUp a) (feedback a) (isHost a) (conn a) (connectedPeersList a)
     (playerCountSetting a) (peerConnectionsRef a) (connOpen a) v.

(** The React setters of the mirrored cells. *)
Definition setPhase v := upd_ui (GameState.set_phase v).
Definition setClockSegments v := upd_ui (GameState.set_clockSegments v).
Definition setPlayers v := upd_ui (GameState.set_players v).
Definition setCurrentPlayerIndex v := upd_ui (GameState.set_currentPlayerIndex v).
Definition setFaceUpTokensUsed v := upd_ui (GameState.set_faceUpTokensUsed v).
Definition setCardsPlayedCount v := upd_ui (GameState.set_cardsPlayedCount v).
Definition setResolutionStep v := upd_ui (GameState.set_resolutionStep v).
Definition setResolutionResults v := upd_ui (GameState.set_resolutionResults v).
Definition setSystemMessage v := upd_ui (GameState.set_systemMessage v).

(** [connection.send(msg)] *)
Definition send (c : Connection) (msg : Message) (a : t) : t :=
  set_sent (sent a ++ [(c, msg)]) a.

(** The first effect of the component: after a render in which a mirrored
    cell changed, the ref is overwritten with the React state. *)
Definition syncEffect (a : t) : t :=
  set_gameStateRef
    (Some (GameState.set_clockDefId
             (ClockDefinition.id (GameState.activeClockDef (ui a))) (ui a))) a.

Definition sanitizeStateForNetwork (fullState : GameState.t) : Snapshot.t :=
  Snapshot.mk
    (GameState.phase fullState)
    (GameState.clockSegments fullState)
    (GameState.players fullState)
    (match GameState.currentPlayerIndex fullState with
     | Num z => Some z
     | NaN => None
     end)
    (GameState.faceUpTokensUsed fullState)
    (GameState.cardsPlayedCount fullState)
    (GameState.clockDefId fullState)
    (GameState.resolutionStep fullState)
    (GameState.resolutionResults fullState)
    (GameState.systemMessage fullState).

(** [broadcastState]: the snapshot goes to every stored connection that is
    open, in the order of [Object.values]. *)
Definition broadcastState (statePayload : GameState.t) (a : t) : t :=
  let safeState := sanitizeStateForNetwork statePayload in
  set_sent
    (sent a ++
     map (fun c => (c, STATE_UPDATE safeState))
         (filter (fun c => connOpen a c = true) (map snd (peerConnectionsRef a))))
    a.

(** [startResolution]: called by [executePlayCard] before it stores its
    own new state, so the ref written here is overwritten by the caller. *)
Definition startResolution (finalSegments : list ClockSegment.t) (a : t) : t :=
  let a := setResolutionStep 0 a in
  let a := setSystemMessage "Resolving..." a in
  match gameStateRef a with
  | Some cur =>
      let s := GameState.set_systemMessage "Resolving..." cur in
      broadcastState s (set_gameStateRef (Some s) a)
  | None => a
  end.

Definition removeCard (card : Card.t) (hand : list Card.t) : list Card.t :=
  List.filter (fun c => negb (String.eqb (Card.id c) (Card.id card))) hand.

Definition playedCard (card : Card.t) (faceUp : bool) (playerId : string) : Card.t :=
  Card.mk (Card.id card) (Card.type card) (Card.value card) faceUp (Some playerId).

(** [executePlayCard], the host's mutation.  The only statement that can
    throw, the read of [newSegments[segmentIndex].cards], comes before the
    first write. *)
Definition executePlayCard (playerId : string) (card : Card.t)
    (segmentIndex : Z) (faceUp : bool) (a : t) : outcome t :=
  match gameStateRef a with
  | None => Returned a
  | Some curr =>
      let newPlayers :=
        map (fun p =>
               if String.eqb (Player.id p) playerId
               then Player.mk (Player.id p) (Player.name p)
                      (removeCard card (Player.hand p)) (Player.isLocal p)
               else p)
            (GameState.players curr) in
      let played := playedCard card faceUp playerId in
      match js_get (GameState.clockSegments curr) segmentIndex with
      | None => Threw
      | Some seg =>
          let newSegments :=
            <[Z.to_nat segmentIndex :=
                ClockSegment.mk (ClockSegment.index seg)
                                (ClockSegment.cards seg ++ [played])]>
              (GameState.clockSegments curr) in
          let newFaceUpCount :=
            if faceUp then GameState.faceUpTokensUsed curr + 1
            else GameState.faceUpTokensUsed curr in
          let newCount := GameState.cardsPlayedCount curr + 1 in
          let currentIdx :=
            findIndex (fun p => String.eqb (Player.id p) playerId)
                      (GameState.players curr) in
          let nextIdx := js_rem (currentIdx + 1) (len (GameState.players curr)) in
          let allEmpty := every (fun p => len (Player.hand p) =? 0) newPlayers in
          let nextPhase := if allEmpty then RESOLUTION else GameState.phase curr in
          let a := if allEmpty
                   then startResolution newSegments (setFeedback "Resolving..." a)
                   else a in
          let newState :=
            GameState.mk nextPhase (GameState.activeClockDef curr) newSegments
              newPlayers nextIdx newFaceUpCount newCount
              (GameState.clockDefId curr) (GameState.resolutionStep curr)
              (GameState.resolutionResults curr) (GameState.systemMessage curr) in
          let a := set_gameStateRef (Some newState) a in
          let a := setPlayers newPlayers a in
          let a := setClockSegments newSegments a in
          let a := setFaceUpTokensUsed newFaceUpCount a in
          let a := setCardsPlayedCount newCount a in
          let a := setCurrentPlayerIndex nextIdx a in
          let a := if decide (nextPhase <> GameState.phase (ui a))
                   then setPhase nextPhase a else a in
          let a := setSelectedCardId None a in
          Returned (broadcastState newState a)
      end
  end.

(** [startGamePhase], up to the two timers it arms: one repeats the
    broadcast after 500 ms, the other is [startGameTimeout]. *)
Definition startGamePhase (startIndex : Z) (a : t) : t :=
  match gameStateRef a with
  | None => a
  | Some current =>
      match js_get (GameState.players current) startIndex with
      | None => a
      | Some starter =>
          let startMsg := Player.name starter +:+ " starts!" in
          let a := setSystemMessage startMsg a in
          let newState :=
            GameState.mk PLACEMENT (GameState.activeClockDef current)
              (GameState.clockSegments current) (GameState.players current)
              (Num startIndex) (GameState.faceUpTokensUsed current)
              (GameState.cardsPlayedCount current) (GameState.clockDefId current)
              (-1) [] startMsg in
          let a := set_gameStateRef (Some newState) a in
          let a := setPhase PLACEMENT a in
          let a := setCurrentPlayerIndex (Num startIndex) a in
          broadcastState newState a
      end
  end.

(** The timer [startGamePhase] arms for 3000 ms: it reads the ref when it
    fires and clears the "starts!" message if the game is still placing. *)
Definition startGameTimeout (a : t) : outcome t :=
  match gameStateRef a with
  | None => Threw
  | Some cur =>
      if decide (GameState.phase cur = PLACEMENT)
      then
        let a := setSystemMessage "" a in
        let cleared := GameState.set_systemMessage "" cur in
        Returned (broadcastState cleared (set_gameStateRef (Some cleared) a))
      else Returned a
  end.

Definition handleIncomingDataHost (data : Message) (a : t) : outcome t :=
  match gameStateRef a with
  | None => Returned a
  | Some current =>
      match data with
      | MOVE playerId card segmentIndex faceUp =>
          executePlayCard playerId card segmentIndex faceUp a
      | CLAIM_START playerId _ =>
          let pIdx :=
            findIndex (fun p => String.eqb (Player.id p) playerId)
                      (GameState.players current) in
          if negb (pIdx =? -1) then Returned (startGamePhase pIdx a)
          else Returned a
      | _ => Returned a
      end
  end.

(** The ['data'] callback that [handleHostConnection] installs on an
    incoming connection. *)
Definition handleHostData (connection : Connection) (data : Message) (a : t)
    : outcome t :=
  match data with
  | JOIN pid name =>
      let a := set_peerConnectionsRef
                 (obj_set pid connection (peerConnectionsRef a)) a in
      let a := setConnectedPeersList
                 (List.filter (fun p => negb (String.eqb (fst p) pid))
                              (connectedPeersList a) ++ [(pid, name)]) a in
      match gameStateRef a with
      | Some currentState =>
          if decide (GameState.phase currentState <> LOBBY)
          then
            match List.find (fun p => String.eqb (Player.id p) pid)
                            (GameState.players currentState) with
            | Some _ =>
                let a := setFeedback (name +:+ " reconnected!") a in
                let safeState := sanitizeStateForNetwork currentState in
                Returned (send connection (STATE_UPDATE safeState) a)
            | None =>
                Returned (send connection (ERROR "Game already in progress.") a)
            end
          else Returned (setFeedback (name +:+ " joined lobby.") a)
      | None => Returned (setFeedback (name +:+ " joined lobby.") a)
      end
  | _ => handleIncomingDataHost data a
  end.

(** The "I Start!" button. *)
Definition handleClaimStart (a : t) : t :=
  if decide (GameState.phase (ui a) <> START_PLAYER_SELECTION) then a
  else if isHost a
  then
    let myIdx :=
      findIndex (fun p => String.eqb (Player.id p) (myPlayerId a))
                (GameState.players (ui a)) in
    startGamePhase myIdx a
  else
    match conn a with
    | Some c =>
        setFeedback "Waiting for host..."
          (send c (CLAIM_START (myPlayerId a) (myName a)) a)
    | None => a
    end.

(** A click on a card of the local hand. *)
Definition handleCardSelect (cardId : string) (a : t) : outcome t :=
  let st := ui a in
  if decide (GameState.phase st <> PLACEMENT) then Returned a
  else
    match List.find (fun p => String.eqb (Player.id p) (myPlayerId a))
                    (GameState.players st) with
    | None => Returned a
    | Some player =>
        match js_get_num (GameState.players st) (GameState.currentPlayerIndex st) with
        | None => Threw
        | Some current =>
            if negb (String.eqb (Player.id current) (myPlayerId a)) then Returned a
            else if some (fun c => String.eqb (Card.id c) cardId) (Player.hand player)
            then
              match selectedCardId a with
              | Some selected =>
                  if String.eqb selected cardId
                  then Returned (setSelectedCardId None a)
                  else Returned (setPlayFaceUp false (setSelectedCardId (Some cardId) a))
              | None =>
                  Returned (setPlayFaceUp false (setSelectedCardId (Some cardId) a))
              end
            else Returned a
        end
    end.

(** A click on a slot of the board.  [players[currentPlayerIndex].id]
    throws when the index names no participant. *)
Definition handleSegmentClick (segmentIndex : Z) (a : t) : outcome t :=
  let st := ui a in
  if decide (GameState.phase st <> PLACEMENT) then Returned a
  else
    match js_get_num (GameState.players st) (GameState.currentPlayerIndex st) with
    | None => Threw
    | Some current =>
        if negb (String.eqb (Player.id current) (myPlayerId a)) then Returned a
        else
          match selectedCardId a with
          | None => Returned (setFeedback "Select a card first." a)
          | Some selected =>
              if String.eqb selected ""
              then Returned (setFeedback "Select a card first." a)
              else
                let player :=
                  List.find (fun p => String.eqb (Player.id p) (myPlayerId a))
                            (GameState.players st) in
                let cardToPlay :=
                  match player with
                  | Some p =>
                      List.find (fun c => String.eqb (Card.id c) selected)
                                (Player.hand p)
                  | None => None
                  end in
                match cardToPlay with
                | None => Returned a
                | Some cardToPlay =>
                    let check :=
                      match ClockDefinition.placementRestriction
                              (GameState.activeClockDef st) with
                      | Some restriction =>
                          restriction cardToPlay segmentIndex
                            (GameState.clockSegments st)
                            (GameState.cardsPlayedCount st)
                      | None => ok
                      end in
                    if negb (ValidationResult.passed check)
                    then Returned
                           (setFeedback
                              ("Invalid: " +:+
                               default "undefined" (ValidationResult.message check)) a)
                    else if isHost a
                    then executePlayCard (myPlayerId a) cardToPlay segmentIndex
                           (playFaceUp a) a
                    else
                      match conn a with
                      | Some c =>
                          Returned
                            (setSelectedCardId None
                               (setFeedback "Sending..."
                                  (send c (MOVE (myPlayerId a) cardToPlay
                                             segmentIndex (playFaceUp a)) a)))
                      | None => Returned a
                      end
                end
          end
    end.

(** The body of the bot's think-delay timer: it re-reads the ref.
    [currentP] is the participant the effect saw at the turn index. *)
Definition botTimeout (random : Z -> Z) (currentP : Player.t) (a : t) : outcome t :=
  match gameStateRef a with
  | None => Threw
  | Some currentState =>
      match List.find (fun p => String.eqb (Player.id p) (Player.id currentP))
                      (GameState.players currentState) with
      | None => Returned a
      | Some botPlayer =>
          match GameUtils.findBestBotMove random (Player.hand botPlayer)
                  (GameState.clockSegments currentState)
                  (GameState.activeClockDef currentState)
                  (GameState.cardsPlayedCount currentState) with
          | Some (card, segmentIndex) =>
              executePlayCard (Player.id botPlayer) card segmentIndex false a
          | None =>
              if 0 <? len (Player.hand botPlayer)
              then
                match js_get (Player.hand botPlayer) 0 with
                | Some first => executePlayCard (Player.id botPlayer) first 0 false a
                | None => Threw
                end
              else Returned a
          end
      end
  end.

(** The bot effect: it arms [botTimeout] when the host is placing and the
    participant at the turn index is a bot. *)
Definition botEffect (random : Z -> Z) (a : t) : outcome t :=
  if negb (isHost a) || negb (bool_decide (GameState.phase (ui a) = PLACEMENT))
  then Returned a
  else
    match js_get_num (GameState.players (ui a))
                     (GameState.currentPlayerIndex (ui a)) with
    | Some currentP =>
        if negb (Player.isLocal currentP) && String.prefix "bot" (Player.id currentP)
        then botTimeout random currentP a
        else Returned a
    | None => Returned a
    end.

(** The verdict a resolution tick computes for the slot at
    [resolutionStep]: [(passed, msg)].  [prevSum] and [currSum] are the
    sums of the two [reduce] calls, for card values and partial sums that
    are safe integers. *)
Definition tickVerdict (clockSegments : list ClockSegment.t)
    (activeClockDef : ClockDefinition.t) (resolutionStep : Z)
    : outcome (bool * string) :=
  match js_get clockSegments resolutionStep with
  | None => Threw
  | Some segment =>
      if len (ClockSegment.cards segment) =? 0 then Returned (false, "Empty")
      else
        let '(passed, msg) :=
          match ClockDefinition.segmentRules activeClockDef with
          | Some rules =>
              match rules !! resolutionStep with
              | Some rule =>
                  let res := rule segment in
                  if negb (ValidationResult.passed res)
                  then (false,
                        match ValidationResult.message res with
                        | Some m => if String.eqb m "" then "Rule Failed" else m
                        | None => "Rule Failed"
                        end)
                  else (true, "")
              | None => (true, "")
              end
          | None => (true, "")
          end in
        if passed && (0 <? resolutionStep)
        then
          match js_get clockSegments (resolutionStep - 1) with
          | None => Threw
          | Some previous =>
              let prevSum :=
                fold_left (fun acc c => acc + Card.value c)
                          (ClockSegment.cards previous) 0 in
              let currSum :=
                fold_left (fun acc c => acc + Card.value c)
                          (ClockSegment.cards segment) 0 in
              if currSum <? prevSum then Returned (false, "Not Ascending")
              else Returned (passed, msg)
          end
        else Returned (passed, msg)
  end.

(** The body of the 2000 ms resolution timer.  With a [null] ref the code
    would store an object holding only the two resolution members; the
    synchronising effect has filled the ref before a timer can fire, and a
    [null] ref is left as it is here. *)
Definition resolutionTimeout (a : t) : outcome t :=
  let st := ui a in
  let resolutionStep := GameState.resolutionStep st in
  match tickVerdict (GameState.clockSegments st) (GameState.activeClockDef st)
          resolutionStep with
  | Threw => Threw
  | Returned (passed, msg) =>
      let newResult := ResolutionResult.mk resolutionStep passed msg in
      let a := setResolutionResults (GameState.resolutionResults st ++ [newResult]) a in
      let a := setResolutionStep (resolutionStep + 1) a in
      if isHost a
      then
        match gameStateRef a with
        | Some cur =>
            let newState :=
              GameState.set_resolutionResults
                (GameState.resolutionResults st ++ [newResult])
                (GameState.set_resolutionStep (resolutionStep + 1) cur) in
            Returned (broadcastState newState (set_gameStateRef (Some newState) a))
        | None => Returned a
        end
      else Returned a
  end.

(** The second branch of the resolution effect: the final verdict. *)
Definition resolutionFinal (a : t) : outcome t :=
  if isHost a
  then
    match GameUtils.validateClock (GameState.clockSegments (ui a))
            (GameState.activeClockDef (ui a)) with
    | Threw => Threw
    | Returned totalValidation =>
        let allPassed := every ValidationResult.passed totalValidation in
        let finalMsg := if allPassed then "VICTORY!" else "DEFEAT!" in
        let a := setSystemMessage finalMsg a in
        match gameStateRef a with
        | Some cur =>
            let newState := GameState.set_systemMessage finalMsg cur in
            Returned (broadcastState newState (set_gameStateRef (Some newState) a))
        | None => Returned a
        end
    end
  else Returned a.

(** The resolution effect, with its timer taken as fired. *)
Definition resolutionEffect (a : t) : outcome t :=
  let phase := GameState.phase (ui a) in
  let resolutionStep := GameState.resolutionStep (ui a) in
  if bool_decide (phase = RESOLUTION) && (0 <=? resolutionStep)
     && (resolutionStep <? TOTAL_SEGMENTS)
  then resolutionTimeout a
  else if bool_decide (phase = RESOLUTION) && (resolutionStep =? TOTAL_SEGMENTS)
  then resolutionFinal a
  else Returned a.

End App.

(** ** The App component without reconnection support

    The variant of the component whose click handler checks the face-up
    limit itself.  Only the handler's decisions are modelled: what it hands
    to [executePlayCard] or to the connection. *)

Module AppVariant.

Inductive ClickAction : Type :=
  | Ignored
  | ShowFeedback (msg : string)
  | PlayAsHost (playerId : string) (card : Card.t) (segmentIndex : Z) (faceUp : bool)
  | SendMove (c : Connection) (msg : Message)
  | ClickThrew.

Definition handleSegmentClick (segmentIndex : Z) (a : App.t) : ClickAction :=
  let st := App.ui a in
  if decide (GameState.phase st <> PLACEMENT) then Ignored
  else
    match js_get_num (GameState.players st) (GameState.currentPlayerIndex st) with
    | None => ClickThrew
    | Some current =>
        if negb (String.eqb (Player.id current) (App.myPlayerId a)) then Ignored
        else
          match App.selectedCardId a with
          | None => ShowFeedback "Select a card first."
          | Some selected =>
              if String.eqb selected "" then ShowFeedback "Select a card first."
              else
                let player :=
                  List.find (fun p => String.eqb (Player.id p) (App.myPlayerId a))
                            (GameState.players st) in
                let cardToPlay :=
                  match player with
                  | Some p =>
                      List.find (fun c => String.eqb (Card.id c) selected)
                                (Player.hand p)
                  | None => None
                  end in
                match cardToPlay with
                | None => Ignored
                | Some cardToPlay =>
                    let faceUpLimit := len (GameState.players st) in
                    if App.playFaceUp a
                       && (faceUpLimit <=? GameState.faceUpTokensUsed st)
                    then ShowFeedback ("Limit of " +:+ pretty faceUpLimit
                                       +:+ " Face-Up cards reached.")
                    else
                      let check :=
                        match ClockDefinition.placementRestriction
                                (GameState.activeClockDef st) with
                        | Some restriction =>
                            restriction cardToPlay segmentIndex
                              (GameState.clockSegments st)
                              (GameState.cardsPlayedCount st)
                        | None => ok
                        end in
                      if negb (ValidationResult.passed check)
                      then ShowFeedback
                             ("Invalid Move: " +:+
                              default "undefined" (ValidationResult.message check))
                      else if App.isHost a
                      then PlayAsHost (App.myPlayerId a) cardToPlay segmentIndex
                             (App.playFaceUp a)
                      else
                        match App.conn a with
                        | Some c =>
                            SendMove c (MOVE (App.myPlayerId a) cardToPlay
                                          segmentIndex (App.playFaceUp a))
                        | None => ClickThrew
                        end
                end
          end
    end.

End AppVariant.

(** ** App.tsx: starting a game and the replica's side

    [CLOCK_DEFINITIONS] is a non-empty array constant; the functions that
    search it take it here as its first entry and the entries after it. *)

Module Setup.

Definition setActiveClockDef (v : ClockDefinition.t) : App.t -> App.t :=
  App.upd_ui (fun s =>
    GameState.mk (GameState.phase s) v (GameState.clockSegments s)
      (GameState.players s) (GameState.currentPlayerIndex s)
      (GameState.faceUpTokensUsed s) (GameState.cardsPlayedCount s)
      (GameState.clockDefId s) (GameState.resolutionStep s)
      (GameState.resolutionResults s) (GameState.systemMessage s)).

Definition resetGameLocal (a : App.t) : App.t :=
  let a := App.setPhase LOBBY a in
  let a := App.setClockSegments [] a in
  let a := App.setPlayers [] a in
  let a := App.setResolutionStep (-1) a in
  let a := App.setResolutionResults [] a in
  let a := App.setFaceUpTokensUsed 0 a in
  let a := App.setCardsPlayedCount 0 a in
  let a := App.setConnectedPeersList [] a in
  App.setSystemMessage "" a.

(** [forceSync]: the feedback it shows is cleared by a timer. *)
Definition forceSync (a : App.t) : App.t :=
  match App.gameStateRef a with
  | Some current => App.setFeedback "Force Sync Sent" (App.broadcastState current a)
  | None => a
  end.

(** [CLOCK_DEFINITIONS.find(c => c.id === clockId) || CLOCK_DEFINITIONS[0]] *)
Definition clockOrFirst (firstClock : ClockDefinition.t)
    (otherClocks : list ClockDefinition.t) (clockId : string) : ClockDefinition.t :=
  match List.find (fun c => String.eqb (ClockDefinition.id c) clockId)
                  (firstClock :: otherClocks) with
  | Some def => def
  | None => firstClock
  end.

(** [dealtHands[i]] as the [hand] of a new participant.  Every seat the
    code fills has a dealt hand, except the host's when the count is below
    1: the code then stores [undefined], the model the empty hand. *)
Definition handAt (dealtHands : list (list Card.t)) (i : Z) : list Card.t :=
  default [] (js_get dealtHands i).

(** The callback of [connectedPeersList.forEach] in [initGame]; the state
    is [newPlayers] and [handIndex]. *)
Definition seatPeer (dealtHands : list (list Card.t)) (pCount : Z)
    (st : list Player.t * Z) (p : string * string) : list Player.t * Z :=
  let '(newPlayers, handIndex) := st in
  if handIndex <? pCount
  then (newPlayers ++ [Player.mk (fst p) (snd p) (handAt dealtHands handIndex) false],
        handIndex + 1)
  else st.

(** [while (handIndex < pCount) { newPlayers.push(bot); handIndex++ }],
    which runs [pCount - handIndex] times. *)
Fixpoint seatBots (dealtHands : list (list Card.t)) (iterations : nat)
    (st : list Player.t * Z) : list Player.t * Z :=
  match iterations with
  | O => st
  | S rest =>
      let '(newPlayers, handIndex) := st in
      seatBots dealtHands rest
        (newPlayers ++
         [Player.mk ("bot-" +:+ pretty handIndex) ("Bot " +:+ pretty handIndex)
                    (handAt dealtHands handIndex) false],
         handIndex + 1)
  end.

Definition newPlayers (a : App.t) (dealtHands : list (list Card.t)) : list Player.t :=
  let pCount := App.playerCountSetting a in
  let st := ([Player.mk (App.myPlayerId a) (App.myName a) (handAt dealtHands 0) true], 1) in
  let st := fold_left (seatPeer dealtHands pCount) (App.connectedPeersList a) st in
  fst (seatBots dealtHands (Z.to_nat (pCount - snd st)) st).

(** [initGame].  The React cell of the turn index is not among the cells it
    sets. *)
Definition initGame (firstClock : ClockDefinition.t)
    (otherClocks : list ClockDefinition.t) (random : Z -> Z) (clockId : string)
    (a : App.t) : App.t :=
  let def := clockOrFirst firstClock otherClocks clockId in
  let newSegments := map (fun i => ClockSegment.mk i []) (seqZ 0 TOTAL_SEGMENTS) in
  let deck := GameUtils.createDeck random in
  let dealtHands := GameUtils.dealCards deck (App.playerCountSetting a) in
  let players := newPlayers a dealtHands in
  let initialState :=
    GameState.mk START_PLAYER_SELECTION def newSegments players (Num 0) 0 0
      (ClockDefinition.id def) (-1) [] "" in
  let a := setActiveClockDef def a in
  let a := App.setPlayers players a in
  let a := App.setClockSegments newSegments a in
  let a := App.setFaceUpTokensUsed 0 a in
  let a := App.setCardsPlayedCount 0 a in
  let a := App.setPhase START_PLAYER_SELECTION a in
  let a := App.setResolutionStep (-1) a in
  let a := App.setResolutionResults [] a in
  let a := App.setSystemMessage "" a in
  let a := App.set_gameStateRef (Some initialState) a in
  App.broadcastState initialState a.

End Setup.

Module Client.

(** [applyRemoteState].  The snapshot's turn index is [null] where the
    host's was [NaN]; the mirror cell holds [NaN] for it: both name no
    participant and both serialise to [null].  [s.resolutionStep || -1]
    turns a cursor of 0 into -1. *)
Definition applyRemoteState (firstClock : ClockDefinition.t)
    (otherClocks : list ClockDefinition.t) (s : Snapshot.t) (a : App.t) : App.t :=
  let a := App.setPhase (Snapshot.phase s) a in
  let a := App.setPlayers (Snapshot.players s) a in
  let a := App.setClockSegments (Snapshot.clockSegments s) a in
  let a := App.setCurrentPlayerIndex
             (match Snapshot.currentPlayerIndex s with
              | Some z => Num z
              | None => NaN
              end) a in
  let a := App.setFaceUpTokensUsed (Snapshot.faceUpTokensUsed s) a in
  let a := App.setCardsPlayedCount (Snapshot.cardsPlayedCount s) a in
  let a := App.setSystemMessage (Snapshot.systemMessage s) a in
  let a :=
    if String.eqb (Snapshot.clockDefId s) "" then a
    else
      match List.find (fun c => String.eqb (ClockDefinition.id c) (Snapshot.clockDefId s))
                      (firstClock :: otherClocks) with
      | Some def => Setup.setActiveClockDef def a
      | None => a
      end in
  let a :=
    if decide (Snapshot.phase s = RESOLUTION)
    then
      App.setResolutionResults (Snapshot.resolutionResults s)
        (App.setResolutionStep
           (if Snapshot.resolutionStep s =? 0 then -1 else Snapshot.resolutionStep s) a)
    else a in
  App.setFeedback "" a.

(** The ['data'] callback that [connectToHost] installs on the connection
    to the host. *)
Definition handleClientData (firstClock : ClockDefinition.t)
    (otherClocks : list ClockDefinition.t) (data : Message) (a : App.t) : App.t :=
  match data with
  | STATE_UPDATE state => applyRemoteState firstClock otherClocks state a
  | ERROR message => App.setFeedback message a
  | RESET => Setup.resetGameLocal a
  | _ => a
  end.

End Client.

(** * Specification vocabulary

    Definitions that the statements below use and that are not part of the
    program. *)

(** The [p]-th run of [k] consecutive cards of a deck. *)
Definition chunk (deck : list Card.t) (k p : nat) : list Card.t :=
  take k (drop (p * k) deck).

(** The boards on which the code's sums of card values are the exact
    sums: along every slot, each card value and each partial sum of the
    [reduce] is a safe integer. *)
Fixpoint exactFrom (acc : Z) (cards : list Card.t) : bool :=
  match cards with
  | [] => true
  | c :: rest =>
      safeInteger (Card.value c) && safeInteger (acc + Card.value c)
      && exactFrom (acc + Card.value c) rest
  end.

Definition exactSum (cards : list Card.t) : bool := exactFrom 0 cards.

Definition exactBoard (segments : list ClockSegment.t) : bool :=
  forallb (fun seg => exactSum (ClockSegment.cards seg)) segments.

(** The slot rule of slot [c], when the mission has one, passes on [seg]. *)
Definition slotRuleHolds (definition : ClockDefinition.t) (c : Z)
    (seg : ClockSegment.t) : Prop :=
  forall rules rule,
    ClockDefinition.segmentRules definition = Some rules ->
    rules !! c = Some rule ->
    ValidationResult.passed (rule seg) = true.

(** The verdict of the sequencer for the slot at cursor [c], in the words
    of the specification: "Empty" for a slot without cards; else a failure
    when the slot rule exists and fails; else, past slot 0, "Not Ascending"
    when the slot's sum is below the sum of the slot before; else a pass. *)
Inductive SlotVerdict (segments : list ClockSegment.t)
    (definition : ClockDefinition.t) (c : Z) : bool -> string -> Prop :=
  | verdict_empty (seg : ClockSegment.t) :
      js_get segments c = Some seg ->
      ClockSegment.cards seg = [] ->
      SlotVerdict segments definition c false "Empty"
  | verdict_rule_failed (seg : ClockSegment.t) rules rule :
      js_get segments c = Some seg ->
      ClockSegment.cards seg <> [] ->
      ClockDefinition.segmentRules definition = Some rules ->
      rules !! c = Some rule ->
      ValidationResult.passed (rule seg) = false ->
      SlotVerdict segments definition c false
        (match ValidationResult.message (rule seg) with
         | Some m => if String.eqb m "" then "Rule Failed" else m
         | None => "Rule Failed"
         end)
  | verdict_not_ascending (seg previous : ClockSegment.t) :
      js_get segments c = Some seg ->
      ClockSegment.cards seg <> [] ->
      slotRuleHolds definition c seg ->
      0 < c ->
      js_get segments (c - 1) = Some previous ->
      sumCards (ClockSegment.cards seg) < sumCards (ClockSegment.cards previous) ->
      SlotVerdict segments definition c false "Not Ascending"
  | verdict_passed (seg : ClockSegment.t) :
      js_get segments c = Some seg ->
      ClockSegment.cards seg <> [] ->
      slotRuleHolds definition c seg ->
      (c <= 0 \/
       exists previous,
         js_get segments (c - 1) = Some previous /\
         sumCards (ClockSegment.cards previous) <= sumCards (ClockSegment.cards seg)) ->
      SlotVerdict segments definition c true "".

(** The slot at index [i] of a board, its sum, and the [i]-th slot in the
    mission's order, which starts from the mission's starting slot. *)
Definition slotAt (segments : list ClockSegment.t) (i : Z) : ClockSegment.t :=
  default (ClockSegment.mk i []) (js_get segments i).

Definition slotSum (segments : list ClockSegment.t) (i : Z) : Z :=
  sumCards (ClockSegment.cards (slotAt segments i)).

Definition slotOrder (definition : ClockDefinition.t) (i : Z) : Z :=
  Z.rem (ClockDefinition.startingSegmentIndex definition + i) TOTAL_SEGMENTS.

(** Full validation of a finished board, in the words of the
    specification: every slot holds a card; the sums do not decrease along
    the mission's slot order; every slot rule passes; no slot exceeds the
    maximum total, when the mission has one (a maximum of 0 counts as
    none); the global rule passes. *)
Record FullValidation (segments : list ClockSegment.t)
    (definition : ClockDefinition.t) : Prop := {
  fv_nonempty :
    forall seg, seg ∈ segments -> ClockSegment.cards seg <> [];
  fv_ascending :
    forall i, 1 <= i < TOTAL_SEGMENTS ->
      slotSum segments (slotOrder definition (i - 1))
      <= slotSum segments (slotOrder definition i);
  fv_slot_rules :
    forall i, 0 <= i < TOTAL_SEGMENTS ->
      slotRuleHolds definition i (slotAt segments i);
  fv_max_total :
    forall maxTotal i,
      ClockDefinition.maxTotal definition = Some maxTotal -> maxTotal <> 0 ->
      0 <= i < TOTAL_SEGMENTS -> slotSum segments i <= maxTotal;
  fv_global :
    forall rule,
      ClockDefinition.globalRules definition = Some rule ->
      ValidationResult.passed (rule segments) = true
}.

(** What the loop of [validateClock] checks at the slot [i]-th in order,
    given the sum of the slot before, and along a list of positions. *)
Definition stepHolds (segments : list ClockSegment.t)
    (definition : ClockDefinition.t) (i previousSum : Z) : Prop :=
  (i = 0 \/ previousSum <= slotSum segments (slotOrder definition i)) /\
  (forall maxTotal,
      ClockDefinition.maxTotal definition = Some maxTotal -> maxTotal <> 0 ->
      slotSum segments (slotOrder definition i) <= maxTotal) /\
  slotRuleHolds definition (slotOrder definition i)
    (slotAt segments (slotOrder definition i)).

Fixpoint chainHolds (segments : list ClockSegment.t)
    (definition : ClockDefinition.t) (indices : list Z) (previousSum : Z) : Prop :=
  match indices with
  | [] => True
  | i :: rest =>
      stepHolds segments definition i previousSum /\
      chainHolds segments definition rest (slotSum segments (slotOrder definition i))
  end.

(** A validation result that reports a failure. *)
Definition failing (r : ValidationResult.t) : Prop :=
  ValidationResult.passed r = false.

(** What a handler leaves in the ref, and running two handlers in turn. *)
Definition refOf (o : outcome App.t) : option GameState.t :=
  match o with
  | Returned a => App.gameStateRef a
  | Threw => None
  end.

Definition andThen {A B : Type} (o : outcome A) (f : A -> outcome B) : outcome B :=
  match o with
  | Returned a => f a
  | Threw => Threw
  end.

(** Cards are compared field by field. *)
#[global] Instance Card_eq_dec : EqDecision Card.t.
Proof. solve_decision. Defined.

(** The resolution effect run [n] times in a row. *)
Fixpoint repeatEffect (n : nat) (a : App.t) : outcome App.t :=
  match n with
  | O => Returned a
  | S rest => andThen (App.resolutionEffect a) (repeatEffect rest)
  end.

(** How many cards the hands hold, how many the board holds, and how many
    cards with the id of [card] are held by the participants whose id is
    [playerId]. *)
Definition cardsInHands (players : list Player.t) : Z :=
  fold_right (fun p acc => len (Player.hand p) + acc) 0 players.

Definition cardsOnBoard (segments : list ClockSegment.t) : Z :=
  fold_right (fun seg acc => len (ClockSegment.cards seg) + acc) 0 segments.

Definition heldCopies (playerId : string) (card : Card.t) (players : list Player.t) : Z :=
  fold_right
    (fun p acc =>
       (if String.eqb (Player.id p) playerId
        then len (List.filter (fun c => String.eqb (Card.id c) (Card.id card))
                              (Player.hand p))
        else 0) + acc)
    0 players.

(** The connections that a broadcast reaches. *)
Definition openConnections (a : App.t) : list Connection :=
  filter (fun c => App.connOpen a c = true) (map snd (App.peerConnectionsRef a)).

(** ** Sample games

    Concrete states on which the statements below are evaluated: a game of
    three participants dealt from the unshuffled deck. *)

Module Sample.

Definition solar (i : Z) : Card.t := GameUtils.newCard "s-" SOLAR i.
Definition lunar (i : Z) : Card.t := GameUtils.newCard "l-" LUNAR i.

(** [Array.from({ length: TOTAL_SEGMENTS }, (_, i) => ({ index: i, cards: [] }))] *)
Definition emptyBoard : list ClockSegment.t :=
  map (fun i => ClockSegment.mk i []) (seqZ 0 TOTAL_SEGMENTS).

Definition host : Player.t :=
  Player.mk "user-h" "Hana" [solar 1; solar 2; solar 3; solar 4] true.
Definition guest : Player.t :=
  Player.mk "user-b" "Ben" [solar 5; solar 6; solar 7; solar 8] false.
Definition third : Player.t :=
  Player.mk "user-c" "Cy" [solar 9; solar 10; solar 11; solar 12] false.

(** The state [initGame] stores for these participants and [clock_III]. *)
Definition selecting : GameState.t :=
  GameState.mk START_PLAYER_SELECTION clock_III emptyBoard [host; guest; third]
    (Num 0) 0 0 "c1-3" (-1) [] "".

(** The same game once the host has claimed the start and the "starts!"
    message has been cleared. *)
Definition placing : GameState.t :=
  GameState.mk PLACEMENT clock_III emptyBoard [host; guest; third]
    (Num 0) 0 0 "c1-3" (-1) [] "".

(** The same game when the second participant has claimed the start. *)
Definition placingFromGuest : GameState.t :=
  GameState.mk PLACEMENT clock_III emptyBoard [host; guest; third]
    (Num 1) 0 0 "c1-3" (-1) [] "".

(** That game after one round in which every participant has played a
    card face up: the face-up counter equals the participant count and the
    turn is the second participant's again. *)
Definition faceUpSpent : GameState.t :=
  GameState.mk PLACEMENT clock_III
    [ClockSegment.mk 0 [];
     ClockSegment.mk 1 [App.playedCard (solar 9) true "user-c"];
     ClockSegment.mk 2 [App.playedCard (solar 5) true "user-b"];
     ClockSegment.mk 3 [App.playedCard (solar 1) true "user-h"];
     ClockSegment.mk 4 [];
     ClockSegment.mk 5 []]
    [Player.mk "user-h" "Hana" [solar 2; solar 3; solar 4] true;
     Player.mk "user-b" "Ben" [solar 6; solar 7; solar 8] false;
     Player.mk "user-c" "Cy" [solar 10; solar 11; solar 12] false]
    (Num 1) 3 3 "c1-3" (-1) [] "".

(** A finished board that satisfies [clock_II]: sums 1, 2, 8, 12, 13, 42. *)
Definition wonBoard : list ClockSegment.t :=
  [ClockSegment.mk 0 [solar 1];
   ClockSegment.mk 1 [solar 2];
   ClockSegment.mk 2 [solar 8];
   ClockSegment.mk 3 [solar 3; solar 4; solar 5];
   ClockSegment.mk 4 [solar 6; solar 7];
   ClockSegment.mk 5 [solar 9; solar 10; solar 11; solar 12]].

Definition emptied (p : Player.t) : Player.t :=
  Player.mk (Player.id p) (Player.name p) [] (Player.isLocal p).

(** The resolution of [wonBoard] with the cursor at [step]. *)
Definition resolving (step : Z) (results : list ResolutionResult.t) : GameState.t :=
  GameState.mk RESOLUTION clock_II wonBoard [emptied host; emptied guest; emptied third]
    (Num 0) 0 12 "c1-2" step results "Resolving...".

(** The six verdicts of [wonBoard]. *)
Definition sixPasses : list ResolutionResult.t :=
  map (fun i => ResolutionResult.mk i true "") (seqZ 0 TOTAL_SEGMENTS).

(** Scenario D: slot 1 sums to 5 after slot 0 summed to 8. *)
Definition descending : GameState.t :=
  GameState.mk RESOLUTION clock_III
    [ClockSegment.mk 0 [solar 8];
     ClockSegment.mk 1 [solar 5];
     ClockSegment.mk 2 [solar 9];
     ClockSegment.mk 3 [solar 10];
     ClockSegment.mk 4 [solar 11];
     ClockSegment.mk 5 [solar 12; solar 1; solar 2; solar 3; solar 4; solar 6; solar 7]]
    [emptied host; emptied guest; emptied third]
    (Num 0) 0 12 "c1-3" 1 [ResolutionResult.mk 0 true ""] "Resolving...".

(** The host's component holding state [s] in both its React cells and
    its ref, with the two guests connected. *)
Definition hostApp (s : GameState.t) : App.t :=
  App.mk s (Some s) "user-h" "Hana" None false "" true None
    [("user-b", "Ben"); ("user-c", "Cy")] 3
    [("user-b", 1%nat); ("user-c", 2%nat)] (fun _ => true) [].

(** A game of the host, one guest and one bot, the seat [initGame] names
    [bot-2], at the bot's turn. *)
Definition bot : Player.t :=
  Player.mk "bot-2" "Bot 2" [solar 9; solar 10; solar 11; solar 12] false.

Definition botTurn : GameState.t :=
  GameState.mk PLACEMENT clock_III emptyBoard [host; guest; bot]
    (Num 2) 0 0 "c1-3" (-1) [] "".

(** Clock II with a maximum total of 0, and Clock II started from slot -1. *)
Definition zeroMax : ClockDefinition.t :=
  ClockDefinition.mk "zero-max" "Zero maximum" 1
    (ClockDefinition.description clock_II) 0 (Some 0)
    (ClockDefinition.visualHints clock_II) (ClockDefinition.segmentRules clock_II)
    None None.

Definition negativeStart : ClockDefinition.t :=
  ClockDefinition.mk "negative-start" "Negative start" 1
    (ClockDefinition.description clock_II) (-1) (Some 999)
    (ClockDefinition.visualHints clock_II) (ClockDefinition.segmentRules clock_II)
    None None.

(** The end of the resolution of a board under a mission: the cursor is
    at the slot count. *)
Definition resolved (definition : ClockDefinition.t) (board : list ClockSegment.t)
    : GameState.t :=
  GameState.mk RESOLUTION definition board [emptied host; emptied guest; emptied third]
    (Num 0) 0 12 (ClockDefinition.id definition) TOTAL_SEGMENTS sixPasses "Resolving...".

(** A mission whose placement restriction refuses every move. *)
Definition blocked : ClockDefinition.t :=
  ClockDefinition.mk "blocked" "Blocked" 1 "No placement is allowed."
    0 None None None None
    (Some (fun _ _ _ _ => ko "No placement is allowed.")).

End Sample.

(** * Properties *)

(** ** JavaScript primitives *)

(** Closes a goal [lo <= i < hi] between computed integers. *)
Ltac in_range := vm_compute; split; [discriminate | reflexivity].

Lemma js_get_Some {A : Type} (arr : list A) (i : Z) (x : A) :
  js_get arr i = Some x <-> 0 <= i /\ arr !! Z.to_nat i = Some x.
Proof.
  unfold js_get. destruct (0 <=? i) eqn:E.
  - apply Z.leb_le in E. tauto.
  - apply Z.leb_gt in E. split; [discriminate | lia].
Qed.

Lemma js_get_in_range {A : Type} (arr : list A) (i : Z) :
  0 <= i < len arr -> exists x, js_get arr i = Some x.
Proof.
  intros [H0 H1]. unfold len in H1.
  destruct (lookup_lt_is_Some_2 arr (Z.to_nat i)) as [x Hx]; [lia |].
  exists x. apply js_get_Some. auto.
Qed.

Lemma js_get_range {A : Type} (arr : list A) (i : Z) (x : A) :
  js_get arr i = Some x -> 0 <= i < len arr.
Proof.
  intros H. apply js_get_Some in H as [H0 H1].
  apply lookup_lt_Some in H1. unfold len. lia.
Qed.

Lemma js_get_of_nat {A : Type} (arr : list A) (n : nat) :
  js_get arr (Z.of_nat n) = arr !! n.
Proof.
  unfold js_get. destruct (0 <=? Z.of_nat n) eqn:E.
  - now rewrite Nat2Z.id.
  - apply Z.leb_gt in E. lia.
Qed.

Lemma findIndex_range {A : Type} (f : A -> bool) (arr : list A) :
  findIndex f arr = -1 \/ 0 <= findIndex f arr < len arr.
Proof.
  induction arr as [| x rest IH]; simpl; [now left |].
  unfold len in *. simpl length.
  destruct (f x); [right; lia |].
  destruct (findIndex f rest =? -1) eqn:E; [now left |].
  apply Z.eqb_neq in E. right. lia.
Qed.

Lemma findIndex_found {A : Type} (f : A -> bool) (arr : list A) (x : A) :
  js_get arr (findIndex f arr) = Some x -> f x = true.
Proof.
  induction arr as [| y rest IH] in x |- *; simpl.
  - intros H. apply js_get_range in H. unfold len in H. simpl in H. lia.
  - destruct (f y) eqn:Fy.
    + intros H. apply js_get_Some in H as [_ H]. simpl in H. congruence.
    + destruct (findIndex f rest =? -1) eqn:E.
      * intros H. apply js_get_range in H. lia.
      * apply Z.eqb_neq in E.
        destruct (findIndex_range f rest) as [? | Hr]; [contradiction |].
        intros H. apply IH. apply js_get_Some in H as [_ H].
        apply js_get_Some. split; [lia |].
        replace (Z.to_nat (findIndex f rest + 1))
          with (S (Z.to_nat (findIndex f rest))) in H by lia.
        exact H.
Qed.

Lemma find_none_findIndex {A : Type} (f : A -> bool) (arr : list A) :
  List.find f arr = None <-> findIndex f arr = -1.
Proof.
  induction arr as [| y rest IH]; simpl; [tauto |].
  destruct (f y); [split; [discriminate | lia] |].
  destruct (findIndex f rest =? -1) eqn:E.
  - apply Z.eqb_eq in E. tauto.
  - apply Z.eqb_neq in E.
    destruct (findIndex_range f rest) as [? | Hr]; [contradiction |].
    split; [intros H; apply IH in H; contradiction | lia].
Qed.

(** ** The shuffle *)

Lemma swap_permutation {A : Type} (array : list A) (currentIndex : nat)
    (randomIndex : Z) :
  GameUtils.swap array currentIndex randomIndex ≡ₚ array.
Proof.
  unfold GameUtils.swap.
  destruct (array !! currentIndex) as [x |] eqn:Hx; [| reflexivity].
  destruct (js_get array randomIndex) as [y |] eqn:Hy; [| reflexivity].
  apply js_get_Some in Hy as [_ Hy].
  now apply Permutation_insert_swap.
Qed.

Lemma shuffleFrom_permutation {A : Type} (random : Z -> Z) (currentIndex : nat) :
  forall array : list A,
    GameUtils.shuffleFrom random currentIndex array ≡ₚ array.
Proof.
  induction currentIndex as [| next IH]; intros array; [reflexivity |].
  simpl. rewrite IH. apply swap_permutation.
Qed.

(** Whatever is drawn, the deck that [createDeck] returns is a
    rearrangement of the 24 cards. *)
Lemma createDeck_permutation (random : Z -> Z) :
  GameUtils.createDeck random ≡ₚ GameUtils.unshuffledDeck.
Proof. apply shuffleFrom_permutation. Qed.

Lemma createDeck_length (random : Z -> Z) :
  length (GameUtils.createDeck random) = 24%nat.
Proof. now rewrite (Permutation_length (createDeck_permutation random)). Qed.

(** ** The deal *)

Section Deal.
Import GameUtils.
Variable deck : list Card.t.


Lemma alter_as_insert (f : list Card.t -> list Card.t)
    (hands : list (list Card.t)) (p : nat) (h : list Card.t) :
  hands !! p = Some h -> alter f p hands = <[p := f h]> hands.
Proof.
  revert p. induction hands as [| x rest IH]; intros [| p] H; try discriminate.
  - simpl in *. congruence.
  - simpl in *. f_equal. now apply IH.
Qed.

Lemma dealTo_spec (p n : nat) :
  forall (hands : list (list Card.t)) (cardIdx : nat) (h : list Card.t),
    hands !! p = Some h ->
    dealTo deck p n (hands, cardIdx) =
    (<[p := h ++ take n (drop cardIdx deck)]> hands,
     (cardIdx + length (take n (drop cardIdx deck)))%nat).
Proof.
  induction n as [| n IH]; intros hands cardIdx h Hp.
  - simpl. rewrite take_0, app_nil_r, list_insert_id by assumption.
    f_equal. simpl. lia.
  - simpl. destruct (deck !! cardIdx) as [c |] eqn:E.
    + rewrite (drop_S _ _ _ E). simpl.
      rewrite (alter_as_insert _ _ _ _ Hp).
      rewrite (IH _ _ (h ++ [c])).
      * rewrite list_insert_insert_eq, <- app_assoc. simpl. f_equal. lia.
      * apply list_lookup_insert_eq. now apply lookup_lt_Some in Hp.
    + rewrite (IH _ _ h Hp).
      rewrite (drop_ge deck cardIdx) by now apply lookup_ge_None_1.
      now rewrite !take_nil.
Qed.

Lemma deal_players (k : nat) :
  forall (m s : nat),
    fold_left (fun st p => dealTo deck p k st) (seq s m)
      (map (chunk deck k) (seq 0 s) ++ replicate m [],
       Nat.min (s * k) (length deck)) =
    (map (chunk deck k) (seq 0 (s + m)), Nat.min ((s + m) * k) (length deck)).
Proof.
  induction m as [| m IH]; intros s.
  - simpl. rewrite app_nil_r, Nat.add_0_r. reflexivity.
  - cbn [seq fold_left].
    rewrite (dealTo_spec s k _ _ []).
    2:{ rewrite lookup_app_r by (rewrite length_map, length_seq; lia).
        rewrite length_map, length_seq, Nat.sub_diag. reflexivity. }
    assert (Hchunk : take k (drop (Nat.min (s * k) (length deck)) deck) = chunk deck k s).
    { unfold chunk. destruct (Nat.le_gt_cases (s * k) (length deck)) as [Hle | Hgt].
      - now rewrite Nat.min_l.
      - rewrite Nat.min_r by lia. rewrite !drop_ge by lia. reflexivity. }
    rewrite Hchunk. simpl app at 1.
    replace (<[s:=chunk deck k s]> (map (chunk deck k) (seq 0 s) ++ replicate (S m) []))
      with (map (chunk deck k) (seq 0 (S s)) ++ replicate m []).
    2:{ rewrite seq_S, map_app, <- app_assoc. simpl.
        rewrite insert_app_r_alt by (rewrite length_map, length_seq; lia).
        rewrite length_map, length_seq, Nat.sub_diag. reflexivity. }
    replace (Nat.min (s * k) (length deck) + length (chunk deck k s))%nat
      with (Nat.min (S s * k) (length deck)).
    2:{ unfold chunk. rewrite length_take, length_drop. simpl.
        generalize (s * k)%nat. intros x. lia. }
    rewrite (IH (S s)).
    replace (S s + m)%nat with (s + S m)%nat by lia. reflexivity.
Qed.

(** The deal is the cutting of the deck into consecutive runs of
    [cardsPerPlayer] cards, one per participant. *)
Lemma dealCards_chunks (playerCount : Z) :
  dealCards deck playerCount =
  map (chunk deck (Z.to_nat (cardsPerPlayer playerCount))) (seq 0 (Z.to_nat playerCount)).
Proof.
  unfold dealCards.
  pose proof (deal_players (Z.to_nat (cardsPerPlayer playerCount))
                (Z.to_nat playerCount) 0) as H.
  simpl in H. rewrite H. reflexivity.
Qed.

Lemma concat_chunks (k n : nat) :
  concat (map (chunk deck k) (seq 0 n)) = take (n * k) deck.
Proof.
  induction n as [| n IH]; [reflexivity |].
  rewrite seq_S, map_app, concat_app, IH. simpl.
  rewrite app_nil_r. unfold chunk.
  rewrite take_take_drop. f_equal. lia.
Qed.

(** Everything the deal hands out is a prefix of the deck: its first
    [playerCount * cardsPerPlayer] cards. *)
Lemma dealCards_total (playerCount : Z) :
  concat (dealCards deck playerCount) =
  take (Z.to_nat playerCount * Z.to_nat (cardsPerPlayer playerCount)) deck.
Proof. rewrite dealCards_chunks. apply concat_chunks. Qed.

End Deal.

(** C6 (as amended).  For a participant count of 2, 3 or 4 and a deck of
    at least 12 cards, every participant receives the number of cards fixed
    by the participant count alone (4 each at 3 participants, 3 each at 4),
    the hands are consecutive runs of the deck, and all hands together are
    exactly the first 12 cards of the deck: the cards beyond are not
    dealt. *)
Theorem dealCards_twelve_cards (deck : list Card.t) (playerCount : Z) :
  playerCount = 2 \/ playerCount = 3 \/ playerCount = 4 ->
  (12 <= length deck)%nat ->
  len (GameUtils.dealCards deck playerCount) = playerCount /\
  (forall (p : nat) (hand : list Card.t),
      GameUtils.dealCards deck playerCount !! p = Some hand ->
      len hand = GameUtils.cardsPerPlayer playerCount /\
      hand = chunk deck (Z.to_nat (GameUtils.cardsPerPlayer playerCount)) p) /\
  GameUtils.cardsPerPlayer 3 = 4 /\
  GameUtils.cardsPerPlayer 4 = 3 /\
  concat (GameUtils.dealCards deck playerCount) = take 12 deck.
Proof.
  intros Hcount Hdeck.
  rewrite dealCards_total, dealCards_chunks.
  split; [| split; [| split; [reflexivity | split; [reflexivity |]]]].
  - unfold len. rewrite length_map, length_seq. lia.
  - intros p hand Hp.
    rewrite list_lookup_fmap in Hp.
    destruct (seq 0 (Z.to_nat playerCount) !! p) as [q |] eqn:Hq; [| discriminate].
    apply lookup_seq in Hq as [-> Hlt]. simpl in Hp, Hlt.
    injection Hp as <-. split; [| reflexivity].
    unfold len, chunk. rewrite length_take, length_drop.
    destruct Hcount as [-> | [-> | ->]];
      [ change (GameUtils.cardsPerPlayer 2) with 6
      | change (GameUtils.cardsPerPlayer 3) with 4
      | change (GameUtils.cardsPerPlayer 4) with 3 ]; lia.
  - f_equal. destruct Hcount as [-> | [-> | ->]]; reflexivity.
Qed.

Lemma dealCards_twelve_cards_witness :
  concat (GameUtils.dealCards (GameUtils.createDeck (fun n => n / 2)) 3) =
  take 12 (GameUtils.createDeck (fun n => n / 2)).
Proof.
  destruct (dealCards_twelve_cards (GameUtils.createDeck (fun n => n / 2)) 3)
    as (_ & _ & _ & _ & H).
  - right. left. reflexivity.
  - vm_compute. lia.
  - exact H.
Defined.

(** The same for every deck that [createDeck] can return. *)
Lemma dealCards_of_createDeck (random : Z -> Z) (playerCount : Z) :
  playerCount = 2 \/ playerCount = 3 \/ playerCount = 4 ->
  len (concat (GameUtils.dealCards (GameUtils.createDeck random) playerCount)) = 12.
Proof.
  intros Hcount. rewrite dealCards_total. unfold len.
  rewrite length_take, createDeck_length.
  destruct Hcount as [-> | [-> | ->]]; reflexivity.
Qed.

(** C6 as stated fails: with five participants the deal hands out twenty
    cards of the 24-card deck, not twelve. *)
Lemma dealCards_five_participants :
  len (concat (GameUtils.dealCards (GameUtils.createDeck (fun n => n / 2)) 5)) = 20 /\
  len (concat (GameUtils.dealCards (GameUtils.createDeck (fun n => n / 2)) 5)) <> 12.
Proof. vm_compute. split; [reflexivity | discriminate]. Qed.

(** ** The bot selector *)

Section BotSelector.
Import GameUtils.
Variables (segments : list ClockSegment.t) (definition : ClockDefinition.t)
          (cardsPlayedTotal : Z).

Lemma flat_map_nil {A B : Type} (f : A -> list B) (l : list A) :
  (forall x, x ∈ l -> f x = []) -> flat_map f l = [].
Proof.
  induction l as [| x l IH]; intros H; [reflexivity |].
  simpl. rewrite (H x) by left. apply IH. intros y Hy. apply H. now right.
Qed.

Lemma validMoves_none (hand : list Card.t) :
  (forall card i, card ∈ hand -> 0 <= i < TOTAL_SEGMENTS ->
      isValidMove card i segments definition cardsPlayedTotal = false) ->
  validMoves hand segments definition cardsPlayedTotal = [].
Proof.
  intros H. unfold validMoves. apply flat_map_nil. intros card Hcard.
  apply flat_map_nil. intros i Hi. apply elem_of_seqZ in Hi.
  rewrite (H card i Hcard) by lia. reflexivity.
Qed.

(** A draw inside the list of valid moves selects one of them. *)
Lemma findBestBotMove_some_valid (random : Z -> Z) (hand : list Card.t) :
  (forall k, 0 < k -> 0 <= random k < k) ->
  validMoves hand segments definition cardsPlayedTotal <> [] ->
  exists move,
    findBestBotMove random hand segments definition cardsPlayedTotal = Some move /\
    move ∈ validMoves hand segments definition cardsPlayedTotal.
Proof.
  intros Hrandom Hmoves. unfold findBestBotMove.
  set (moves := validMoves hand segments definition cardsPlayedTotal) in *.
  assert (Hlen : 0 < len moves).
  { unfold len. destruct moves; [contradiction | simpl; lia]. }
  rewrite (proj2 (Z.ltb_lt _ _) Hlen).
  destruct (js_get_in_range moves (random (len moves))) as [move Hmove].
  { now apply Hrandom. }
  exists move. split; [assumption |].
  apply js_get_Some in Hmove as [_ Hmove].
  eapply list_elem_of_lookup_2; eassumption.
Qed.

Lemma findBestBotMove_none_iff (random : Z -> Z) (hand : list Card.t) :
  (forall k, 0 < k -> 0 <= random k < k) ->
  findBestBotMove random hand segments definition cardsPlayedTotal = None <->
  hand = [].
Proof.
  intros Hrandom. split.
  - intros Hnone.
    destruct (validMoves hand segments definition cardsPlayedTotal) eqn:Hmoves.
    + unfold findBestBotMove in Hnone. rewrite Hmoves in Hnone. simpl in Hnone.
      destruct hand; [reflexivity | discriminate].
    + destruct (findBestBotMove_some_valid random hand Hrandom) as (move & Hsome & _).
      * rewrite Hmoves. discriminate.
      * congruence.
  - intros ->. reflexivity.
Qed.

End BotSelector.

(** C4 (as amended).  When draws fall inside their range, the selector
    returns none exactly when the hand is empty; and for a non-empty hand
    of which no (card, slot) pair passes the placement restriction it
    returns the first card of the hand paired with the slot drawn at
    random among 0..5. *)
Theorem findBestBotMove_fallback (random : Z -> Z) (hand : list Card.t)
    (segments : list ClockSegment.t) (definition : ClockDefinition.t)
    (cardsPlayedTotal : Z) :
  (forall k, 0 < k -> 0 <= random k < k) ->
  (GameUtils.findBestBotMove random hand segments definition cardsPlayedTotal = None
   <-> hand = []) /\
  (forall first rest,
      hand = first :: rest ->
      (forall card i, card ∈ hand -> 0 <= i < TOTAL_SEGMENTS ->
          GameUtils.isValidMove card i segments definition cardsPlayedTotal = false) ->
      GameUtils.findBestBotMove random hand segments definition cardsPlayedTotal
      = Some (first, random TOTAL_SEGMENTS) /\
      0 <= random TOTAL_SEGMENTS < TOTAL_SEGMENTS).
Proof.
  intros Hrandom. split.
  - now apply findBestBotMove_none_iff.
  - intros first rest -> Hblocked. split.
    + unfold GameUtils.findBestBotMove.
      rewrite (validMoves_none _ _ _ _ Hblocked). reflexivity.
    + apply Hrandom. reflexivity.
Qed.

Lemma findBestBotMove_fallback_witness :
  GameUtils.findBestBotMove (fun k => k - 1) [Sample.solar 1; Sample.solar 2]
    Sample.emptyBoard Sample.blocked 0
  = Some (Sample.solar 1, 5).
Proof.
  destruct (findBestBotMove_fallback (fun k => k - 1) [Sample.solar 1; Sample.solar 2]
              Sample.emptyBoard Sample.blocked 0) as [_ H].
  - intros k Hk. lia.
  - destruct (H (Sample.solar 1) [Sample.solar 2]) as [Hmove _].
    + reflexivity.
    + intros card i _ _. reflexivity.
    + exact Hmove.
Defined.

(** C4 as stated fails: with no legal pair and a draw of 3, the selector
    pairs the first card with slot 3, not with slot 0. *)
Lemma findBestBotMove_random_slot :
  (forall card i, GameUtils.isValidMove card i Sample.emptyBoard Sample.blocked 0 = false) /\
  GameUtils.findBestBotMove (fun _ => 3) [Sample.solar 1; Sample.solar 2]
    Sample.emptyBoard Sample.blocked 0
  = Some (Sample.solar 1, 3) /\
  GameUtils.findBestBotMove (fun _ => 3) [Sample.solar 1; Sample.solar 2]
    Sample.emptyBoard Sample.blocked 0
  <> Some (Sample.solar 1, 0).
Proof.
  split; [reflexivity |]. split; [reflexivity |].
  vm_compute. discriminate.
Qed.

(** The bot timer's own slot-0 fallback is never taken: the selector
    returns none only for an empty hand, and the timer then plays
    nothing. *)
Lemma botTimeout_fallback_unreachable (random : Z -> Z) (botPlayer : Player.t)
    (s : GameState.t) :
  (forall k, 0 < k -> 0 <= random k < k) ->
  GameUtils.findBestBotMove random (Player.hand botPlayer)
    (GameState.clockSegments s) (GameState.activeClockDef s)
    (GameState.cardsPlayedCount s) = None ->
  (0 <? len (Player.hand botPlayer)) = false.
Proof.
  intros Hrandom Hnone.
  apply findBestBotMove_none_iff in Hnone; [| assumption].
  now rewrite Hnone.
Qed.

(** ** The host's play-card mutation *)

Section PlayCard.
Variables (a : App.t) (curr : GameState.t).
Variables (playerId : string) (card : Card.t) (segmentIndex : Z) (faceUp : bool).
Hypothesis Href : App.gameStateRef a = Some curr.

(** With a slot at [segmentIndex] the mutation always goes through,
    whatever the phase, the turn index and the counters are; this is the
    state it stores in the ref. *)
Lemma executePlayCard_stores (seg : ClockSegment.t) :
  js_get (GameState.clockSegments curr) segmentIndex = Some seg ->
  exists a' next,
    App.executePlayCard playerId card segmentIndex faceUp a = Returned a' /\
    App.gameStateRef a' = Some next /\
    GameState.clockSegments next =
      <[Z.to_nat segmentIndex :=
          ClockSegment.mk (ClockSegment.index seg)
            (ClockSegment.cards seg ++ [App.playedCard card faceUp playerId])]>
        (GameState.clockSegments curr) /\
    GameState.clockSegments (App.ui a') = GameState.clockSegments next /\
    GameState.players next =
      map (fun p =>
             if String.eqb (Player.id p) playerId
             then Player.mk (Player.id p) (Player.name p)
                    (App.removeCard card (Player.hand p)) (Player.isLocal p)
             else p)
          (GameState.players curr) /\
    GameState.currentPlayerIndex next =
      js_rem (findIndex (fun p => String.eqb (Player.id p) playerId)
                        (GameState.players curr) + 1)
             (len (GameState.players curr)) /\
    GameState.faceUpTokensUsed next =
      (if faceUp then GameState.faceUpTokensUsed curr + 1
       else GameState.faceUpTokensUsed curr) /\
    GameState.cardsPlayedCount next = GameState.cardsPlayedCount curr + 1.
Proof.
  intros Hseg. unfold App.executePlayCard. rewrite Href, Hseg.
  eexists. eexists. split; [reflexivity |].
  match goal with
  | |- context [decide ?P] => destruct (decide P)
  end; cbn; repeat split; reflexivity.
Qed.

(** Without a slot at [segmentIndex] the mutation throws before it has
    written anything. *)
Lemma executePlayCard_no_slot :
  js_get (GameState.clockSegments curr) segmentIndex = None ->
  App.executePlayCard playerId card segmentIndex faceUp a = Threw.
Proof. intros Hseg. unfold App.executePlayCard. now rewrite Href, Hseg. Qed.

End PlayCard.

Lemma js_get_insert_other {A : Type} (arr : list A) (s i : Z) (x : A) :
  0 <= s -> i <> s -> js_get (<[Z.to_nat s := x]> arr) i = js_get arr i.
Proof.
  intros Hs Hi. unfold js_get. destruct (0 <=? i) eqn:E; [| reflexivity].
  apply Z.leb_le in E. apply list_lookup_insert_ne. lia.
Qed.

Lemma js_get_insert_same {A : Type} (arr : list A) (s : Z) (x : A) :
  0 <= s < len arr -> js_get (<[Z.to_nat s := x]> arr) s = Some x.
Proof.
  intros [H0 H1]. apply js_get_Some. split; [assumption |].
  apply list_lookup_insert_eq. unfold len in H1. lia.
Qed.

(** C10.  A call of the play-card mutation on a slot [s] of the board
    returns; in the state it stores, slot [s] keeps its index and its cards
    and has the played card (with the requested face flag and the submitter
    as owner) appended, and every other slot is what it was. *)
Theorem executePlayCard_frame (a : App.t) (curr : GameState.t)
    (playerId : string) (card : Card.t) (s : Z) (faceUp : bool) :
  App.gameStateRef a = Some curr ->
  0 <= s < len (GameState.clockSegments curr) ->
  exists a' next seg,
    App.executePlayCard playerId card s faceUp a = Returned a' /\
    App.gameStateRef a' = Some next /\
    js_get (GameState.clockSegments curr) s = Some seg /\
    js_get (GameState.clockSegments next) s =
      Some (ClockSegment.mk (ClockSegment.index seg)
              (ClockSegment.cards seg ++
               [Card.mk (Card.id card) (Card.type card) (Card.value card)
                        faceUp (Some playerId)])) /\
    (forall i, i <> s ->
        js_get (GameState.clockSegments next) i =
        js_get (GameState.clockSegments curr) i) /\
    len (GameState.clockSegments next) = len (GameState.clockSegments curr).
Proof.
  intros Href Hs.
  destruct (js_get_in_range _ _ Hs) as [seg Hseg].
  destruct (executePlayCard_stores a curr playerId card s faceUp Href seg Hseg)
    as (a' & next & Hrun & Hnext & Hsegs & _).
  exists a', next, seg. rewrite Hsegs.
  split; [assumption |]. split; [assumption |]. split; [assumption |].
  split; [| split].
  - now apply js_get_insert_same.
  - intros i Hi. apply js_get_insert_other; [lia | assumption].
  - unfold len. now rewrite length_insert.
Qed.

Lemma executePlayCard_frame_witness :
  exists a' next seg,
    App.executePlayCard "user-h" (Sample.solar 1) 2 true (Sample.hostApp Sample.placing)
    = Returned a' /\
    App.gameStateRef a' = Some next /\
    js_get (GameState.clockSegments Sample.placing) 2 = Some seg /\
    js_get (GameState.clockSegments next) 2 =
      Some (ClockSegment.mk (ClockSegment.index seg)
              (ClockSegment.cards seg ++
               [Card.mk (Card.id (Sample.solar 1)) (Card.type (Sample.solar 1))
                        (Card.value (Sample.solar 1)) true (Some "user-h")])) /\
    (forall i, i <> 2 ->
        js_get (GameState.clockSegments next) i =
        js_get (GameState.clockSegments Sample.placing) i) /\
    len (GameState.clockSegments next) = len (GameState.clockSegments Sample.placing).
Proof.
  apply (executePlayCard_frame (Sample.hostApp Sample.placing) Sample.placing).
  - reflexivity.
  - in_range.
Defined.

(** What the mutation does with a move in turn: when the first seat with
    the submitter's id is the seat at the turn index and its hand holds the
    played card exactly once, the stored turn index is
    [(turnIndexBefore + 1) mod participantCount] and that hand has exactly
    one card fewer. *)
Lemma executePlayCard_turn_and_hand (a : App.t) (curr : GameState.t)
    (playerId : string) (card : Card.t) (s : Z) (faceUp : bool)
    (turn : Z) (p : Player.t) :
  App.gameStateRef a = Some curr ->
  0 <= s < len (GameState.clockSegments curr) ->
  GameState.currentPlayerIndex curr = Num turn ->
  js_get (GameState.players curr) turn = Some p ->
  findIndex (fun q => String.eqb (Player.id q) playerId) (GameState.players curr) = turn ->
  length (List.filter (fun c => String.eqb (Card.id c) (Card.id card)) (Player.hand p))
  = 1%nat ->
  exists a' next p',
    App.executePlayCard playerId card s faceUp a = Returned a' /\
    App.gameStateRef a' = Some next /\
    GameState.currentPlayerIndex next =
      Num ((turn + 1) mod len (GameState.players curr)) /\
    js_get (GameState.players next) turn = Some p' /\
    Player.id p' = Player.id p /\
    len (Player.hand p') = len (Player.hand p) - 1.
Proof.
  intros Href Hs Hturn Hp Hfind Hcard.
  destruct (js_get_in_range _ _ Hs) as [seg Hseg].
  destruct (executePlayCard_stores a curr playerId card s faceUp Href seg Hseg)
    as (a' & next & Hrun & Hnext & _ & _ & Hplayers & Hidx & _).
  pose proof (js_get_range _ _ _ Hp) as Hrange.
  assert (Hid : String.eqb (Player.id p) playerId = true).
  { apply (findIndex_found (fun q => String.eqb (Player.id q) playerId)
             (GameState.players curr)). now rewrite Hfind. }
  exists a', next,
    (Player.mk (Player.id p) (Player.name p) (App.removeCard card (Player.hand p))
       (Player.isLocal p)).
  split; [assumption |]. split; [assumption |]. split; [| split; [| split]].
  - rewrite Hidx, Hfind. unfold js_rem.
    destruct (len (GameState.players curr) =? 0) eqn:E.
    + apply Z.eqb_eq in E. lia.
    + rewrite Z.rem_mod_nonneg by lia. reflexivity.
  - rewrite Hplayers. apply js_get_Some. apply js_get_Some in Hp as [H0 Hp].
    split; [assumption |]. rewrite list_lookup_fmap, Hp. simpl. now rewrite Hid.
  - reflexivity.
  - simpl. unfold App.removeCard, len.
    pose proof (filter_length (fun c => String.eqb (Card.id c) (Card.id card))
                  (Player.hand p)) as Hlen.
    rewrite Hcard in Hlen. lia.
Qed.

Lemma executePlayCard_turn_and_hand_witness :
  exists a' next p',
    App.executePlayCard "user-c" (Sample.solar 9) 2 false
      (Sample.hostApp (GameState.set_currentPlayerIndex (Num 2) Sample.placing))
    = Returned a' /\
    App.gameStateRef a' = Some next /\
    GameState.currentPlayerIndex next = Num ((2 + 1) mod 3) /\
    js_get (GameState.players next) 2 = Some p' /\
    Player.id p' = "user-c" /\
    len (Player.hand p') = 4 - 1.
Proof.
  apply (executePlayCard_turn_and_hand
           (Sample.hostApp (GameState.set_currentPlayerIndex (Num 2) Sample.placing))
           (GameState.set_currentPlayerIndex (Num 2) Sample.placing)
           "user-c" (Sample.solar 9) 2 false 2 Sample.third).
  - reflexivity.
  - in_range.
  - reflexivity.
  - reflexivity.
  - reflexivity.
  - reflexivity.
Defined.

(** The click handler plays only a card of the local hand: with a
    selected id that the local hand does not hold, a click in turn returns
    without touching anything. *)
Lemma handleSegmentClick_card_not_held (a : App.t) (segmentIndex : Z)
    (current me : Player.t) (selected : string) :
  GameState.phase (App.ui a) = PLACEMENT ->
  js_get_num (GameState.players (App.ui a))
             (GameState.currentPlayerIndex (App.ui a)) = Some current ->
  Player.id current = App.myPlayerId a ->
  App.selectedCardId a = Some selected ->
  selected <> "" ->
  List.find (fun p => String.eqb (Player.id p) (App.myPlayerId a))
            (GameState.players (App.ui a)) = Some me ->
  (forall c, c ∈ Player.hand me -> Card.id c <> selected) ->
  App.handleSegmentClick segmentIndex a = Returned a.
Proof.
  intros Hphase Hcur Hid Hsel Hne Hme Hhand. unfold App.handleSegmentClick.
  destruct (decide _) as [Hn | _]; [contradiction |].
  rewrite Hcur. apply String.eqb_eq in Hid. rewrite Hid. cbn [negb].
  rewrite Hsel. apply String.eqb_neq in Hne. rewrite Hne, Hme.
  destruct (List.find _ (Player.hand me)) as [c |] eqn:Hfind; [| reflexivity].
  apply find_some in Hfind as [Hin Hc]. apply String.eqb_eq in Hc.
  apply list_elem_of_In in Hin. exfalso. exact (Hhand c Hin Hc).
Qed.

(** C2.  The host applies a move without looking at the turn index or at
    the submitter's hand: it takes the next turn index from the
    submitter's seat and shrinks the hand by filtering on the card id.  A
    move submitted by the third participant while the turn index is 0 is
    applied and leaves the turn index at 0, not at [(0 + 1) mod 3]; a move
    in turn whose card the submitter does not hold is applied and leaves
    that hand at its four cards; and a move that arrives a second time is
    applied again: the turn index stays at 2 instead of going on to
    [(2 + 1) mod 3], the submitter's hand stays at three cards, and the
    play counter goes to 2. *)
Lemma executePlayCard_turn_from_submitter :
  (GameState.currentPlayerIndex Sample.placing = Num 0 /\
   GameState.currentPlayerIndex <$>
     refOf (App.handleIncomingDataHost (MOVE "user-c" (Sample.solar 9) 2 false)
              (Sample.hostApp Sample.placing)) = Some (Num 0) /\
   Num 0 <> Num ((0 + 1) mod 3)) /\
  (fun s => (GameState.cardsPlayedCount s,
             map (fun p => len (Player.hand p)) (GameState.players s))) <$>
    refOf (App.handleIncomingDataHost (MOVE "user-b" (Sample.solar 9) 2 false)
             (Sample.hostApp Sample.placingFromGuest)) = Some (1, [4; 4; 4]) /\
  ((fun s => (GameState.currentPlayerIndex s, GameState.cardsPlayedCount s,
              map (fun p => len (Player.hand p)) (GameState.players s))) <$>
     refOf (App.handleIncomingDataHost (MOVE "user-b" (Sample.solar 5) 2 false)
              (Sample.hostApp Sample.placingFromGuest))
   = Some (Num 2, 1, [4; 3; 4]) /\
   (fun s => (GameState.currentPlayerIndex s, GameState.cardsPlayedCount s,
              map (fun p => len (Player.hand p)) (GameState.players s))) <$>
     refOf (andThen
              (App.handleIncomingDataHost (MOVE "user-b" (Sample.solar 5) 2 false)
                 (Sample.hostApp Sample.placingFromGuest))
              (App.handleIncomingDataHost (MOVE "user-b" (Sample.solar 5) 2 false)))
   = Some (Num 2, 2, [4; 3; 4]) /\
   Num 2 <> Num ((2 + 1) mod 3)).
Proof. vm_compute. repeat split; (reflexivity || discriminate). Qed.

(** ** Moves and start claims that the host should turn down *)

(** The local click handler does guard the phase and the turn: outside
    PLACEMENT, or when the participant at the turn index is someone else,
    it returns without touching anything. *)
Lemma handleSegmentClick_wrong_phase (a : App.t) (segmentIndex : Z) :
  GameState.phase (App.ui a) <> PLACEMENT ->
  App.handleSegmentClick segmentIndex a = Returned a.
Proof.
  intros H. unfold App.handleSegmentClick.
  destruct (decide _); [reflexivity | contradiction].
Qed.

Lemma handleSegmentClick_not_my_turn (a : App.t) (segmentIndex : Z)
    (current : Player.t) :
  js_get_num (GameState.players (App.ui a))
             (GameState.currentPlayerIndex (App.ui a)) = Some current ->
  Player.id current <> App.myPlayerId a ->
  App.handleSegmentClick segmentIndex a = Returned a.
Proof.
  intros Hcur Hid. unfold App.handleSegmentClick.
  destruct (decide _); [reflexivity |]. rewrite Hcur.
  apply String.eqb_neq in Hid. now rewrite Hid.
Qed.

(** The host applies a network move whatever the phase and the turn
    index: the play counter always advances. *)
Lemma handleIncomingDataHost_applies_any_move (a : App.t) (curr : GameState.t)
    (playerId : string) (card : Card.t) (s : Z) (faceUp : bool) :
  App.gameStateRef a = Some curr ->
  0 <= s < len (GameState.clockSegments curr) ->
  exists a' next,
    App.handleIncomingDataHost (MOVE playerId card s faceUp) a = Returned a' /\
    App.gameStateRef a' = Some next /\
    GameState.cardsPlayedCount next = GameState.cardsPlayedCount curr + 1 /\
    GameState.faceUpTokensUsed next =
      (if faceUp then GameState.faceUpTokensUsed curr + 1
       else GameState.faceUpTokensUsed curr).
Proof.
  intros Href Hs. unfold App.handleIncomingDataHost. rewrite Href.
  destruct (js_get_in_range _ _ Hs) as [seg Hseg].
  destruct (executePlayCard_stores a curr playerId card s faceUp Href seg Hseg)
    as (a' & next & Hrun & Hnext & _ & _ & _ & _ & Hface & Hcount).
  exists a', next. auto.
Qed.

(** C1, at a failing input.  While the turn index is 0 (the host's seat),
    the second participant sends a MOVE: the host applies it.  The play
    counter, the turn index, that participant's hand and slot 2 all change.
    The same message during START_PLAYER_SELECTION is applied as well. *)
Theorem host_applies_move_out_of_turn :
  GameState.phase Sample.placing = PLACEMENT /\
  js_get_num (GameState.players Sample.placing)
             (GameState.currentPlayerIndex Sample.placing) = Some Sample.host /\
  (fun s => (GameState.cardsPlayedCount s, GameState.currentPlayerIndex s,
             map (fun p => len (Player.hand p)) (GameState.players s),
             ClockSegment.cards <$> js_get (GameState.clockSegments s) 2)) <$>
    refOf (App.handleHostData 1%nat (MOVE "user-b" (Sample.solar 5) 2 false)
             (Sample.hostApp Sample.placing))
  = Some (1, Num 2, [4; 3; 4], Some [App.playedCard (Sample.solar 5) false "user-b"]) /\
  GameState.phase Sample.selecting = START_PLAYER_SELECTION /\
  (fun s => (GameState.phase s, GameState.cardsPlayedCount s,
             GameState.currentPlayerIndex s,
             map (fun p => len (Player.hand p)) (GameState.players s))) <$>
    refOf (App.handleHostData 1%nat (MOVE "user-b" (Sample.solar 5) 2 false)
             (Sample.hostApp Sample.selecting))
  = Some (START_PLAYER_SELECTION, 1, Num 2, [4; 3; 4]).
Proof. vm_compute. repeat split; reflexivity. Qed.

(** The click handler of the component variant does guard the face-up
    limit: with the face-up box ticked and the counter at the participant
    count, it neither plays nor sends a move. *)
Lemma variant_click_guards_face_up_limit (a : App.t) (segmentIndex : Z) :
  App.playFaceUp a = true ->
  len (GameState.players (App.ui a)) <= GameState.faceUpTokensUsed (App.ui a) ->
  match AppVariant.handleSegmentClick segmentIndex a with
  | AppVariant.PlayAsHost _ _ _ _ | AppVariant.SendMove _ _ => False
  | _ => True
  end.
Proof.
  intros Hface Hlimit. unfold AppVariant.handleSegmentClick.
  destruct (decide _); [exact I |].
  destruct (js_get_num _ _); [| exact I].
  destruct (negb _); [exact I |].
  destruct (App.selectedCardId a) as [selected |]; [| exact I].
  destruct (String.eqb selected ""); [exact I |].
  destruct (List.find _ _) as [player |]; [| exact I].
  destruct (List.find _ _); [| exact I].
  rewrite Hface, (proj2 (Z.leb_le _ _) Hlimit). exact I.
Qed.

(** The state with three face-up cards is reached from the start of the
    placement by one round of moves, each made in turn and allowed by the
    mission: two arrive over the network, the third is the host's own click
    with the face-up box ticked. *)
Lemma faceUpSpent_reachable :
  refOf (andThen
           (andThen
              (andThen
                 (andThen
                    (App.handleHostData 1%nat (MOVE "user-b" (Sample.solar 5) 2 true)
                       (Sample.hostApp Sample.placingFromGuest))
                    (App.handleHostData 2%nat (MOVE "user-c" (Sample.solar 9) 1 true)))
                 (App.handleCardSelect "s-1"))
              (fun a => Returned (App.setPlayFaceUp true a)))
           (App.handleSegmentClick 3))
  = Some Sample.faceUpSpent.
Proof. vm_compute. reflexivity. Qed.

(** C3, at a failing input.  Three participants, three face-up cards
    already played; the participant at the turn index sends a MOVE with
    [faceUp] set.  The host applies it and the face-up counter becomes 4. *)
Theorem host_exceeds_face_up_limit :
  GameState.phase Sample.faceUpSpent = PLACEMENT /\
  GameState.faceUpTokensUsed Sample.faceUpSpent = len (GameState.players Sample.faceUpSpent) /\
  js_get_num (GameState.players Sample.faceUpSpent)
             (GameState.currentPlayerIndex Sample.faceUpSpent)
  = Some (Player.mk "user-b" "Ben" [Sample.solar 6; Sample.solar 7; Sample.solar 8] false) /\
  (fun s => (GameState.faceUpTokensUsed s, len (GameState.players s),
             GameState.cardsPlayedCount s)) <$>
    refOf (App.handleHostData 1%nat (MOVE "user-b" (Sample.solar 6) 0 true)
             (Sample.hostApp Sample.faceUpSpent))
  = Some (4, 3, 4).
Proof. vm_compute. repeat split; reflexivity. Qed.

(** The "I Start!" button of the host does guard the phase. *)
Lemma handleClaimStart_wrong_phase (a : App.t) :
  GameState.phase (App.ui a) <> START_PLAYER_SELECTION ->
  App.handleClaimStart a = a.
Proof.
  intros H. unfold App.handleClaimStart.
  destruct (decide _); [reflexivity | contradiction].
Qed.

(** A start claim of a seated participant is accepted in any phase: the
    host moves to PLACEMENT and gives the turn to the claimant. *)
Lemma handleIncomingDataHost_accepts_claim (a : App.t) (curr : GameState.t)
    (playerId name : string) (pIdx : Z) :
  App.gameStateRef a = Some curr ->
  findIndex (fun p => String.eqb (Player.id p) playerId) (GameState.players curr) = pIdx ->
  pIdx <> -1 ->
  exists a' next,
    App.handleIncomingDataHost (CLAIM_START playerId name) a = Returned a' /\
    App.gameStateRef a' = Some next /\
    GameState.phase next = PLACEMENT /\
    GameState.currentPlayerIndex next = Num pIdx /\
    GameState.phase (App.ui a') = PLACEMENT /\
    GameState.currentPlayerIndex (App.ui a') = Num pIdx.
Proof.
  intros Href Hfind Hidx. unfold App.handleIncomingDataHost. rewrite Href, Hfind.
  apply Z.eqb_neq in Hidx. rewrite Hidx. simpl.
  destruct (findIndex_range (fun p => String.eqb (Player.id p) playerId)
              (GameState.players curr)) as [Hnone | Hrange].
  { apply Z.eqb_neq in Hidx. congruence. }
  rewrite Hfind in Hrange.
  destruct (js_get_in_range _ _ Hrange) as [starter Hstarter].
  unfold App.startGamePhase. rewrite Href, Hstarter.
  eexists. eexists. split; [reflexivity |]. cbn. repeat split; reflexivity.
Qed.

(** C5, at a failing input.  In START_PLAYER_SELECTION the second
    participant claims the start: the host moves to PLACEMENT with turn
    index 1.  The third participant's claim arrives next: the host accepts
    it too, and the turn index becomes 2. *)
Theorem host_accepts_second_start_claim :
  GameState.phase Sample.selecting = START_PLAYER_SELECTION /\
  (fun s => (GameState.phase s, GameState.currentPlayerIndex s)) <$>
    refOf (App.handleHostData 1%nat (CLAIM_START "user-b" "Ben")
             (Sample.hostApp Sample.selecting))
  = Some (PLACEMENT, Num 1) /\
  (fun s => (GameState.phase s, GameState.currentPlayerIndex s,
             GameState.systemMessage s)) <$>
    refOf (andThen (App.handleHostData 1%nat (CLAIM_START "user-b" "Ben")
                      (Sample.hostApp Sample.selecting))
                   (App.handleHostData 2%nat (CLAIM_START "user-c" "Cy")))
  = Some (PLACEMENT, Num 2, "Cy starts!").
Proof. vm_compute. repeat split; reflexivity. Qed.

(** ** Joining after the lobby *)

(** C9.  A JOIN received while the host's phase is not LOBBY changes
    neither the canonical state nor its React mirror.  If the identity is
    that of a participant, the one message sent is a STATE_UPDATE on the
    joining connection, and the snapshot it carries is the current state in
    full: phase, participants with their hands, board, turn index ([null]
    for [NaN]), both counters, mission id, resolution cursor and verdicts,
    and system message are those of the ref.  If it is not, the one
    message sent is an ERROR on the joining connection. *)
Theorem handleHostData_join_after_lobby (a : App.t) (curr : GameState.t)
    (connection : Connection) (pid name : string) :
  App.gameStateRef a = Some curr ->
  GameState.phase curr <> LOBBY ->
  exists a',
    App.handleHostData connection (JOIN pid name) a = Returned a' /\
    App.gameStateRef a' = Some curr /\
    App.ui a' = App.ui a /\
    ((exists p, p ∈ GameState.players curr /\ Player.id p = pid) ->
       exists snap,
         App.sent a' = App.sent a ++ [(connection, STATE_UPDATE snap)] /\
         snap = App.sanitizeStateForNetwork curr /\
         Snapshot.phase snap = GameState.phase curr /\
         Snapshot.players snap = GameState.players curr /\
         Snapshot.clockSegments snap = GameState.clockSegments curr /\
         Snapshot.currentPlayerIndex snap =
           match GameState.currentPlayerIndex curr with
           | Num z => Some z
           | NaN => None
           end /\
         Snapshot.faceUpTokensUsed snap = GameState.faceUpTokensUsed curr /\
         Snapshot.cardsPlayedCount snap = GameState.cardsPlayedCount curr /\
         Snapshot.clockDefId snap = GameState.clockDefId curr /\
         Snapshot.resolutionStep snap = GameState.resolutionStep curr /\
         Snapshot.resolutionResults snap = GameState.resolutionResults curr /\
         Snapshot.systemMessage snap = GameState.systemMessage curr) /\
    (~ (exists p, p ∈ GameState.players curr /\ Player.id p = pid) ->
       exists message, App.sent a' = App.sent a ++ [(connection, ERROR message)]).
Proof.
  intros Href Hphase. unfold App.handleHostData.
  cbn [App.gameStateRef App.setConnectedPeersList App.set_peerConnectionsRef].
  rewrite Href.
  destruct (decide _) as [_ | Hn]; [| contradiction].
  destruct (List.find _ _) as [p |] eqn:Hfind.
  - apply find_some in Hfind as [Hin Hid]. apply String.eqb_eq in Hid.
    eexists. split; [reflexivity |]. cbn.
    split; [assumption |]. split; [reflexivity |]. split.
    + intros _. eexists. split; [reflexivity |]. repeat split; reflexivity.
    + intros Hnone. exfalso. apply Hnone. exists p.
      split; [now apply list_elem_of_In | assumption].
  - eexists. split; [reflexivity |]. cbn.
    split; [assumption |]. split; [reflexivity |]. split.
    + intros (p & Hin & Hid). exfalso.
      apply list_elem_of_In in Hin.
      pose proof (find_none _ _ Hfind p Hin) as Hneq. simpl in Hneq.
      apply String.eqb_neq in Hneq. contradiction.
    + intros _. eexists. reflexivity.
Qed.

Lemma handleHostData_join_after_lobby_witness :
  exists a',
    App.handleHostData 1%nat (JOIN "user-b" "Ben") (Sample.hostApp Sample.placing)
    = Returned a' /\
    App.gameStateRef a' = Some Sample.placing /\
    App.ui a' = App.ui (Sample.hostApp Sample.placing) /\
    ((exists p, p ∈ GameState.players Sample.placing /\ Player.id p = "user-b") ->
       exists snap,
         App.sent a' =
         App.sent (Sample.hostApp Sample.placing) ++ [(1%nat, STATE_UPDATE snap)] /\
         snap = App.sanitizeStateForNetwork Sample.placing /\
         Snapshot.phase snap = GameState.phase Sample.placing /\
         Snapshot.players snap = GameState.players Sample.placing /\
         Snapshot.clockSegments snap = GameState.clockSegments Sample.placing /\
         Snapshot.currentPlayerIndex snap =
           match GameState.currentPlayerIndex Sample.placing with
           | Num z => Some z
           | NaN => None
           end /\
         Snapshot.faceUpTokensUsed snap = GameState.faceUpTokensUsed Sample.placing /\
         Snapshot.cardsPlayedCount snap = GameState.cardsPlayedCount Sample.placing /\
         Snapshot.clockDefId snap = GameState.clockDefId Sample.placing /\
         Snapshot.resolutionStep snap = GameState.resolutionStep Sample.placing /\
         Snapshot.resolutionResults snap = GameState.resolutionResults Sample.placing /\
         Snapshot.systemMessage snap = GameState.systemMessage Sample.placing) /\
    (~ (exists p, p ∈ GameState.players Sample.placing /\ Player.id p = "user-b") ->
       exists message,
         App.sent a' =
         App.sent (Sample.hostApp Sample.placing) ++ [(1%nat, ERROR message)]).
Proof.
  apply (handleHostData_join_after_lobby (Sample.hostApp Sample.placing) Sample.placing).
  - reflexivity.
  - discriminate.
Defined.

(** The two replies, evaluated: a seated identity gets the snapshot, an
    unknown one gets the error text. *)
Lemma join_replies_evaluated :
  (App.sent <$>
     match App.handleHostData 1%nat (JOIN "user-b" "Ben")
             (Sample.hostApp Sample.placing) with
     | Returned a' => Some a' | Threw => None end)
  = Some [(1%nat, STATE_UPDATE (App.sanitizeStateForNetwork Sample.placing))] /\
  (App.sent <$>
     match App.handleHostData 3%nat (JOIN "user-z" "Zed")
             (Sample.hostApp Sample.placing) with
     | Returned a' => Some a' | Threw => None end)
  = Some [(3%nat, ERROR "Game already in progress.")].
Proof. vm_compute. split; reflexivity. Qed.

(** ** Sums of card values *)

(** On the boards of [exactBoard] the accumulator of
    [cards.reduce((acc, c) => acc + c.value, 0)] is a safe integer after
    every step, so that each addition of the code is exact. *)
Lemma exactFrom_safe (cards : list Card.t) :
  forall acc,
    safeInteger acc = true -> exactFrom acc cards = true ->
    forall n,
      safeInteger (fold_left (fun acc c => acc + Card.value c) (take n cards) acc) = true.
Proof.
  induction cards as [| c rest IH]; intros acc Hacc Hexact n.
  - rewrite take_nil. exact Hacc.
  - destruct n as [| n]; [exact Hacc |].
    cbn [exactFrom] in Hexact.
    apply andb_true_iff in Hexact as [Hexact Hrest].
    apply andb_true_iff in Hexact as [_ Hsum].
    cbn [take fold_left]. now apply IH.
Qed.

Lemma exactBoard_sums_safe (segments : list ClockSegment.t) (seg : ClockSegment.t) :
  exactBoard segments = true -> seg ∈ segments ->
  safeInteger (sumCards (ClockSegment.cards seg)) = true.
Proof.
  intros Hboard Hin. unfold exactBoard in Hboard.
  rewrite forallb_forall in Hboard. apply list_elem_of_In in Hin.
  specialize (Hboard seg Hin). unfold sumCards.
  rewrite <- (firstn_all (ClockSegment.cards seg)).
  now apply exactFrom_safe.
Qed.

(** ** The resolution sequencer *)

Section Tick.
Variables (segments : list ClockSegment.t) (definition : ClockDefinition.t).

Lemma len_zero_nil {A : Type} (l : list A) : (len l =? 0) = true <-> l = [].
Proof.
  unfold len. destruct l; simpl; split; intros H;
    try reflexivity; try discriminate.
Qed.

(** On a slot of the board the tick's computation returns, and what it
    returns is the verdict the specification describes. *)
Lemma tickVerdict_spec (c : Z) :
  0 <= c < len segments ->
  exists passed msg,
    App.tickVerdict segments definition c = Returned (passed, msg) /\
    SlotVerdict segments definition c passed msg.
Proof.
  intros Hc. destruct (js_get_in_range _ _ Hc) as [seg Hseg].
  unfold App.tickVerdict. rewrite Hseg.
  destruct (len (ClockSegment.cards seg) =? 0) eqn:Hempty.
  { apply len_zero_nil in Hempty. exists false, "Empty".
    split; [reflexivity |]. now apply verdict_empty with seg. }
  assert (Hcards : ClockSegment.cards seg <> []).
  { intros Hnil. apply len_zero_nil in Hnil. congruence. }
  (* the ascending step, once the slot rule is known to hold *)
  assert (Hasc : slotRuleHolds definition c seg ->
    exists passed msg,
      (if true && (0 <? c)
       then match js_get segments (c - 1) with
            | Some previous =>
                if fold_left (fun acc x => acc + Card.value x) (ClockSegment.cards seg) 0
                   <? fold_left (fun acc x => acc + Card.value x)
                                (ClockSegment.cards previous) 0
                then Returned (false, "Not Ascending")
                else Returned (true, "")
            | None => Threw
            end
       else Returned (true, "")) = Returned (passed, msg) /\
      SlotVerdict segments definition c passed msg).
  { intros Hrule. simpl. destruct (0 <? c) eqn:Hpos.
    - apply Z.ltb_lt in Hpos.
      destruct (js_get_in_range segments (c - 1)) as [previous Hprev]; [lia |].
      rewrite Hprev.
      destruct (_ <? _) eqn:Hlt.
      + apply Z.ltb_lt in Hlt. exists false, "Not Ascending".
        split; [reflexivity |]. now apply verdict_not_ascending with seg previous.
      + apply Z.ltb_ge in Hlt. exists true, "".
        split; [reflexivity |]. apply verdict_passed with seg; try assumption.
        right. exists previous. split; assumption.
    - apply Z.ltb_ge in Hpos. exists true, "".
      split; [reflexivity |]. apply verdict_passed with seg; try assumption.
      now left. }
  destruct (ClockDefinition.segmentRules definition) as [rules |] eqn:Hrules.
  - destruct (rules !! c) as [rule |] eqn:Hlookup.
    + destruct (ValidationResult.passed (rule seg)) eqn:Hpassed.
      * apply Hasc. intros rules' rule' Hr Hl. congruence.
      * simpl. eexists. eexists. split; [reflexivity |].
        now apply verdict_rule_failed with rules.
    + apply Hasc. intros rules' rule' Hr Hl. congruence.
  - apply Hasc. intros rules' rule' Hr Hl. congruence.
Qed.

(** The description leaves no choice: two verdicts for the same slot
    agree. *)
Lemma SlotVerdict_unique (c : Z) (p1 p2 : bool) (m1 m2 : string) :
  SlotVerdict segments definition c p1 m1 ->
  SlotVerdict segments definition c p2 m2 ->
  p1 = p2 /\ m1 = m2.
Proof.
  intros H1 H2.
  destruct H1 as [s1 G1 E1 | s1 r1 f1 G1 N1 R1 L1 P1
                 | s1 q1 G1 N1 R1 C1 Q1 S1 | s1 G1 N1 R1 A1];
  destruct H2 as [s2 G2 E2 | s2 r2 f2 G2 N2 R2 L2 P2
                 | s2 q2 G2 N2 R2 C2 Q2 S2 | s2 G2 N2 R2 A2];
  rewrite G1 in G2; injection G2 as <-;
  try (split; reflexivity); try contradiction.
  - rewrite R1 in R2. injection R2 as <-. rewrite L1 in L2. injection L2 as <-.
    split; reflexivity.
  - specialize (R2 _ _ R1 L1). congruence.
  - specialize (R2 _ _ R1 L1). congruence.
  - specialize (R1 _ _ R2 L2). congruence.
  - destruct A2 as [A2 | (q2 & Q2 & S2)]; [lia |].
    rewrite Q1 in Q2. injection Q2 as <-. lia.
  - specialize (R1 _ _ R2 L2). congruence.
  - destruct A1 as [A1 | (q1 & Q1 & S1)]; [lia |].
    rewrite Q1 in Q2. injection Q2 as <-. lia.
Qed.

End Tick.

Lemma gameStateRef_upd_ui (f : GameState.t -> GameState.t) (a : App.t) :
  App.gameStateRef (App.upd_ui f a) = App.gameStateRef a.
Proof. reflexivity. Qed.

Lemma isHost_upd_ui (f : GameState.t -> GameState.t) (a : App.t) :
  App.isHost (App.upd_ui f a) = App.isHost a.
Proof. reflexivity. Qed.

(** C7.  On a board whose card values and sums are safe integers, a
    resolution tick at cursor [c] returns; it appends exactly one entry for
    slot [c] to the verdict list and advances the cursor by one, in the
    React state and, on the host, in the ref as well; the entry is the
    verdict described by [SlotVerdict]. *)
Theorem resolution_tick (a : App.t) (c : Z) :
  GameState.phase (App.ui a) = RESOLUTION ->
  GameState.resolutionStep (App.ui a) = c ->
  0 <= c < TOTAL_SEGMENTS ->
  c < len (GameState.clockSegments (App.ui a)) ->
  exactBoard (GameState.clockSegments (App.ui a)) = true ->
  exists a' passed msg,
    App.resolutionEffect a = Returned a' /\
    SlotVerdict (GameState.clockSegments (App.ui a))
                (GameState.activeClockDef (App.ui a)) c passed msg /\
    GameState.resolutionResults (App.ui a') =
      GameState.resolutionResults (App.ui a) ++ [ResolutionResult.mk c passed msg] /\
    GameState.resolutionStep (App.ui a') = c + 1 /\
    (App.isHost a = true ->
     forall cur, App.gameStateRef a = Some cur ->
       exists next,
         App.gameStateRef a' = Some next /\
         GameState.resolutionStep next = c + 1 /\
         GameState.resolutionResults next =
           GameState.resolutionResults (App.ui a) ++ [ResolutionResult.mk c passed msg]).
Proof.
  intros Hphase Hstep Hc Hlen _.
  destruct (tickVerdict_spec (GameState.clockSegments (App.ui a))
              (GameState.activeClockDef (App.ui a)) c) as (passed & msg & Hrun & Hspec);
    [lia |].
  unfold App.resolutionEffect. rewrite Hphase, Hstep.
  rewrite bool_decide_eq_true_2 by reflexivity.
  rewrite (proj2 (Z.leb_le 0 c)) by lia.
  rewrite (proj2 (Z.ltb_lt c TOTAL_SEGMENTS)) by lia.
  simpl andb. cbv iota.
  unfold App.resolutionTimeout. rewrite Hstep, Hrun.
  unfold App.setResolutionStep, App.setResolutionResults.
  rewrite !isHost_upd_ui, !gameStateRef_upd_ui.
  destruct (App.isHost a) eqn:Hhost.
  - destruct (App.gameStateRef a) as [cur |] eqn:Href.
    + eexists. exists passed, msg. split; [reflexivity |]. split; [assumption |].
      cbn. split; [reflexivity |]. split; [reflexivity |].
      intros _ cur' Hcur. injection Hcur as <-. eexists.
      split; [reflexivity |]. split; reflexivity.
    + eexists. exists passed, msg. split; [reflexivity |]. split; [assumption |].
      cbn. split; [reflexivity |]. split; [reflexivity |].
      intros _ cur' Hcur. discriminate.
  - eexists. exists passed, msg. split; [reflexivity |]. split; [assumption |].
    cbn. split; [reflexivity |]. split; [reflexivity |].
    intros Hcontra. discriminate.
Qed.

(** ** The final verdict *)

Section FinalVerdict.
Import GameUtils.
Variables (segments : list ClockSegment.t) (definition : ClockDefinition.t).

Lemma push_nil (results : list ValidationResult.t) (r : ValidationResult.t) :
  results ++ [r] = [] <-> False.
Proof. split; [| contradiction]. destruct results; discriminate. Qed.

Lemma pushAscending_nil (i currentIdx currentSum previousSum : Z)
    (results : list ValidationResult.t) :
  pushAscending i currentIdx currentSum previousSum results = [] <->
  results = [] /\ (i = 0 \/ previousSum <= currentSum).
Proof.
  unfold pushAscending. destruct (i =? 0) eqn:Hi.
  - apply Z.eqb_eq in Hi. tauto.
  - apply Z.eqb_neq in Hi. destruct (currentSum <? previousSum) eqn:Hlt.
    + apply Z.ltb_lt in Hlt. rewrite push_nil. lia.
    + apply Z.ltb_ge in Hlt. tauto.
Qed.

Lemma pushMaxTotal_nil (currentIdx currentSum : Z)
    (results : list ValidationResult.t) :
  pushMaxTotal definition currentIdx currentSum results = [] <->
  results = [] /\
  (forall maxTotal,
      ClockDefinition.maxTotal definition = Some maxTotal -> maxTotal <> 0 ->
      currentSum <= maxTotal).
Proof.
  unfold pushMaxTotal.
  destruct (ClockDefinition.maxTotal definition) as [m |].
  - destruct (m =? 0) eqn:Hm; simpl.
    + apply Z.eqb_eq in Hm. split; [| tauto].
      intros ->. split; [reflexivity |]. intros ? [= <-] ?. contradiction.
    + apply Z.eqb_neq in Hm. destruct (m <? currentSum) eqn:Hlt.
      * apply Z.ltb_lt in Hlt. rewrite push_nil. split; [contradiction |].
        intros [_ H]. specialize (H m eq_refl Hm). lia.
      * apply Z.ltb_ge in Hlt. split; [| tauto].
        intros ->. split; [reflexivity |]. intros ? [= <-] ?. assumption.
  - split; [| tauto]. intros ->. split; [reflexivity |]. discriminate.
Qed.

Lemma pushSegmentRule_nil (currentIdx : Z) (seg : ClockSegment.t)
    (results : list ValidationResult.t) :
  pushSegmentRule definition currentIdx seg results = [] <->
  results = [] /\ slotRuleHolds definition currentIdx seg.
Proof.
  unfold pushSegmentRule, slotRuleHolds.
  destruct (ClockDefinition.segmentRules definition) as [rules |].
  - destruct (rules !! currentIdx) as [rule |] eqn:Hl.
    + simpl. destruct (ValidationResult.passed (rule seg)) eqn:Hp; simpl.
      * split; [| tauto]. intros ->. split; [reflexivity |].
        intros rules' rule' [= <-] Hl'. rewrite Hl in Hl'.
        injection Hl' as <-. assumption.
      * rewrite push_nil. split; [contradiction |].
        intros [_ H]. specialize (H rules rule eq_refl Hl). congruence.
    + split; [| tauto]. intros ->. split; [reflexivity |].
      intros rules' rule' [= <-] Hl'. congruence.
  - split; [| tauto]. intros ->. split; [reflexivity |]. discriminate.
Qed.

Lemma pushGlobalRule_nil (results : list ValidationResult.t) :
  pushGlobalRule definition segments results = [] <->
  results = [] /\
  (forall rule, ClockDefinition.globalRules definition = Some rule ->
                ValidationResult.passed (rule segments) = true).
Proof.
  unfold pushGlobalRule.
  destruct (ClockDefinition.globalRules definition) as [rule |].
  - simpl. destruct (ValidationResult.passed (rule segments)) eqn:Hp; simpl.
    + split; [| tauto]. intros ->. split; [reflexivity |].
      intros ? [= <-]. assumption.
    + rewrite push_nil. split; [contradiction |].
      intros [_ H]. specialize (H rule eq_refl). congruence.
  - split; [| tauto]. intros ->. split; [reflexivity |]. discriminate.
Qed.

(** Every result that is pushed is a failing one. *)
Lemma pushAscending_failing i currentIdx currentSum previousSum results :
  Forall failing results ->
  Forall failing (pushAscending i currentIdx currentSum previousSum results).
Proof.
  intros H. unfold pushAscending.
  destruct (i =? 0); [assumption |].
  destruct (currentSum <? previousSum); [| assumption].
  apply Forall_app. split; [assumption |]. now constructor.
Qed.

Lemma pushMaxTotal_failing currentIdx currentSum results :
  Forall failing results ->
  Forall failing (pushMaxTotal definition currentIdx currentSum results).
Proof.
  intros H. unfold pushMaxTotal.
  destruct (ClockDefinition.maxTotal definition) as [m |]; [| assumption].
  destruct (negb (m =? 0) && (m <? currentSum)); [| assumption].
  apply Forall_app. split; [assumption |]. now constructor.
Qed.

Lemma pushSegmentRule_failing currentIdx seg results :
  Forall failing results ->
  Forall failing (pushSegmentRule definition currentIdx seg results).
Proof.
  intros H. unfold pushSegmentRule.
  destruct (ClockDefinition.segmentRules definition) as [rules |]; [| assumption].
  destruct (rules !! currentIdx) as [rule |]; [| assumption].
  simpl. destruct (ValidationResult.passed (rule seg)) eqn:Hp; [assumption |].
  apply Forall_app. split; [assumption |]. now constructor.
Qed.

Lemma pushGlobalRule_failing results :
  Forall failing results ->
  Forall failing (pushGlobalRule definition segments results).
Proof.
  intros H. unfold pushGlobalRule.
  destruct (ClockDefinition.globalRules definition) as [rule |]; [| assumption].
  simpl. destruct (ValidationResult.passed (rule segments)) eqn:Hp; [assumption |].
  apply Forall_app. split; [assumption |]. now constructor.
Qed.

Lemma emptyResults_failing : Forall failing (emptyResults segments).
Proof.
  unfold emptyResults. induction segments as [| seg rest IH]; [constructor |].
  simpl. destruct (len (ClockSegment.cards seg) =? 0); [| assumption].
  constructor; [reflexivity | assumption].
Qed.

Lemma emptyResults_nil :
  emptyResults segments = [] <->
  forall seg, seg ∈ segments -> ClockSegment.cards seg <> [].
Proof.
  unfold emptyResults. induction segments as [| seg rest IH]; simpl.
  - split; [| reflexivity]. intros _ seg Hin. inversion Hin.
  - destruct (len (ClockSegment.cards seg) =? 0) eqn:Hlen.
    + apply len_zero_nil in Hlen. split; [discriminate |].
      intros H. exfalso. apply (H seg); [left | assumption].
    + simpl. rewrite IH. split.
      * intros H seg' Hin. apply elem_of_cons in Hin as [-> | Hin].
        -- intros Hnil. apply len_zero_nil in Hnil. congruence.
        -- now apply H.
      * intros H seg' Hin. apply H. now right.
Qed.

End FinalVerdict.

Section FullValidationProof.
Import GameUtils.
Variables (segments : list ClockSegment.t) (definition : ClockDefinition.t).
Hypothesis Hboard : len segments = TOTAL_SEGMENTS.
Hypothesis Hstart : 0 <= ClockDefinition.startingSegmentIndex definition.

Lemma slotOrder_range (i : Z) :
  0 <= i -> 0 <= slotOrder definition i < TOTAL_SEGMENTS.
Proof.
  intros Hi. unfold slotOrder. apply Z.rem_bound_pos; [lia | reflexivity].
Qed.

(** The mission's order visits every slot. *)
Lemma slotOrder_onto (j : Z) :
  0 <= j < TOTAL_SEGMENTS ->
  exists i, 0 <= i < TOTAL_SEGMENTS /\ slotOrder definition i = j.
Proof.
  intros Hj. unfold TOTAL_SEGMENTS in *.
  exists ((j - ClockDefinition.startingSegmentIndex definition) mod 6).
  assert (Hi : 0 <= (j - ClockDefinition.startingSegmentIndex definition) mod 6 < 6)
    by (apply Z.mod_pos_bound; lia).
  split; [assumption |]. unfold slotOrder, TOTAL_SEGMENTS.
  rewrite Z.rem_mod_nonneg by lia.
  rewrite Zplus_mod_idemp_r.
  replace (ClockDefinition.startingSegmentIndex definition
           + (j - ClockDefinition.startingSegmentIndex definition)) with j by lia.
  apply Z.mod_small. lia.
Qed.

Lemma validateStep_spec (i previousSum : Z) (results : list ValidationResult.t) :
  0 <= i ->
  exists results',
    validateStep segments definition i (previousSum, results)
    = Returned (slotSum segments (slotOrder definition i), results') /\
    (Forall failing results -> Forall failing results') /\
    (results' = [] <->
     results = [] /\ stepHolds segments definition i previousSum).
Proof.
  intros Hi. pose proof (slotOrder_range i Hi) as Hrange.
  destruct (js_get_in_range segments (slotOrder definition i)) as [seg Hseg];
    [lia |].
  unfold validateStep. fold (slotOrder definition i). rewrite Hseg.
  assert (Hslot : slotAt segments (slotOrder definition i) = seg).
  { unfold slotAt. now rewrite Hseg. }
  eexists. split; [| split].
  - unfold slotSum. rewrite Hslot. reflexivity.
  - intros H. now apply pushSegmentRule_failing, pushMaxTotal_failing,
      pushAscending_failing.
  - rewrite pushSegmentRule_nil, pushMaxTotal_nil, pushAscending_nil.
    unfold stepHolds, slotSum. rewrite Hslot. tauto.
Qed.

Lemma validateLoop_spec (indices : list Z) :
  forall (previousSum : Z) (results : list ValidationResult.t),
    (forall i, i ∈ indices -> 0 <= i) ->
    exists previousSum' results',
      validateLoop segments definition indices (previousSum, results)
      = Returned (previousSum', results') /\
      (Forall failing results -> Forall failing results') /\
      (results' = [] <->
       results = [] /\ chainHolds segments definition indices previousSum).
Proof.
  induction indices as [| i rest IH]; intros previousSum results Hpos.
  - exists previousSum, results. simpl. tauto.
  - destruct (validateStep_spec i previousSum results) as (mid & Hrun & Hfail & Hnil).
    { apply Hpos. left. }
    destruct (IH (slotSum segments (slotOrder definition i)) mid)
      as (previousSum' & results' & Hrun' & Hfail' & Hnil').
    { intros j Hj. apply Hpos. now right. }
    exists previousSum', results'. cbn [validateLoop chainHolds].
    rewrite Hrun, Hrun'.
    split; [reflexivity |]. split; [tauto |]. rewrite Hnil', Hnil. tauto.
Qed.

(** The six steps of the loop hold together exactly when the sums
    ascend along the mission's order, every slot rule passes and no slot
    exceeds the maximum total. *)
Lemma chainHolds_all :
  chainHolds segments definition (seqZ 0 TOTAL_SEGMENTS) (-1) <->
  (forall i, 1 <= i < TOTAL_SEGMENTS ->
      slotSum segments (slotOrder definition (i - 1))
      <= slotSum segments (slotOrder definition i)) /\
  (forall i, 0 <= i < TOTAL_SEGMENTS ->
      slotRuleHolds definition i (slotAt segments i)) /\
  (forall maxTotal i,
      ClockDefinition.maxTotal definition = Some maxTotal -> maxTotal <> 0 ->
      0 <= i < TOTAL_SEGMENTS -> slotSum segments i <= maxTotal).
Proof.
  change (seqZ 0 TOTAL_SEGMENTS) with [0; 1; 2; 3; 4; 5].
  unfold chainHolds, stepHolds. split.
  - intros (S0 & S1 & S2 & S3 & S4 & S5 & _).
    assert (Hstep : forall i, 0 <= i < TOTAL_SEGMENTS ->
              (forall maxTotal,
                  ClockDefinition.maxTotal definition = Some maxTotal ->
                  maxTotal <> 0 ->
                  slotSum segments (slotOrder definition i) <= maxTotal) /\
              slotRuleHolds definition (slotOrder definition i)
                (slotAt segments (slotOrder definition i))).
    { intros i Hi. unfold TOTAL_SEGMENTS in Hi.
      assert (i = 0 \/ i = 1 \/ i = 2 \/ i = 3 \/ i = 4 \/ i = 5) as Hcase by lia.
      destruct Hcase as [-> | [-> | [-> | [-> | [-> | ->]]]]]; tauto. }
    split; [| split].
    + intros i Hi. unfold TOTAL_SEGMENTS in Hi.
      assert (i = 1 \/ i = 2 \/ i = 3 \/ i = 4 \/ i = 5) as Hcase by lia.
      destruct Hcase as [-> | [-> | [-> | [-> | ->]]]]; simpl Z.sub.
      * destruct S1 as [[? | ?] _]; [lia | assumption].
      * destruct S2 as [[? | ?] _]; [lia | assumption].
      * destruct S3 as [[? | ?] _]; [lia | assumption].
      * destruct S4 as [[? | ?] _]; [lia | assumption].
      * destruct S5 as [[? | ?] _]; [lia | assumption].
    + intros j Hj. destruct (slotOrder_onto j Hj) as (i & Hi & <-).
      apply Hstep. assumption.
    + intros maxTotal j Hmax Hnz Hj.
      destruct (slotOrder_onto j Hj) as (i & Hi & <-).
      apply (Hstep i Hi); assumption.
  - intros (Hasc & Hrules & Hmax).
    assert (Hstep : forall i, 0 <= i < TOTAL_SEGMENTS ->
              (forall maxTotal,
                  ClockDefinition.maxTotal definition = Some maxTotal ->
                  maxTotal <> 0 ->
                  slotSum segments (slotOrder definition i) <= maxTotal) /\
              slotRuleHolds definition (slotOrder definition i)
                (slotAt segments (slotOrder definition i))).
    { intros i Hi. pose proof (slotOrder_range i (proj1 Hi)) as Hrange. split.
      - intros maxTotal Hm Hnz. now apply Hmax.
      - now apply Hrules. }
    repeat split; try (apply Hstep; unfold TOTAL_SEGMENTS; lia);
      try (now left);
      try (right; apply (Hasc 1); unfold TOTAL_SEGMENTS; lia);
      try (right; apply (Hasc 2); unfold TOTAL_SEGMENTS; lia);
      try (right; apply (Hasc 3); unfold TOTAL_SEGMENTS; lia);
      try (right; apply (Hasc 4); unfold TOTAL_SEGMENTS; lia);
      try (right; apply (Hasc 5); unfold TOTAL_SEGMENTS; lia).
Qed.

Lemma every_failing (results : list ValidationResult.t) :
  Forall failing results -> results <> [] ->
  every ValidationResult.passed results = false.
Proof.
  intros Hfail Hne. destruct results as [| r rest]; [contradiction |].
  inversion Hfail as [| ? ? Hr _]; subst. unfold failing in Hr.
  simpl. now rewrite Hr.
Qed.

(** On a board of six slots [validateClock] returns, and all its results
    pass exactly when the board passes full validation. *)
Lemma validateClock_spec :
  exists results,
    validateClock segments definition = Returned results /\
    (every ValidationResult.passed results = true <->
     FullValidation segments definition).
Proof.
  destruct (validateLoop_spec (seqZ 0 TOTAL_SEGMENTS) (-1) (emptyResults segments))
    as (previousSum & results & Hrun & Hfail & Hnil).
  { intros i Hi. apply elem_of_seqZ in Hi. lia. }
  unfold validateClock. rewrite Hrun.
  assert (Hiff : pushGlobalRule definition segments results = [] <->
                 FullValidation segments definition).
  { rewrite pushGlobalRule_nil, Hnil, emptyResults_nil, chainHolds_all. split.
    - intros ((Hne & Hasc & Hrules & Hmax) & Hglobal). now constructor.
    - intros [Hne Hasc Hrules Hmax Hglobal]. tauto. }
  destruct (len (pushGlobalRule definition segments results) =? 0) eqn:Hlen.
  - eexists. split; [reflexivity |]. apply len_zero_nil in Hlen.
    rewrite <- Hiff. simpl. tauto.
  - eexists. split; [reflexivity |].
    assert (Hne : pushGlobalRule definition segments results <> []).
    { intros Hn. apply len_zero_nil in Hn. congruence. }
    rewrite every_failing; [| | assumption].
    + rewrite <- Hiff. split; [discriminate | contradiction].
    + apply pushGlobalRule_failing, Hfail, emptyResults_failing.
Qed.

End FullValidationProof.

Lemma resolution_tick_witness :
  exists a' passed msg,
    App.resolutionEffect (Sample.hostApp Sample.descending) = Returned a' /\
    SlotVerdict (GameState.clockSegments Sample.descending) clock_III 1 passed msg /\
    GameState.resolutionResults (App.ui a') =
      [ResolutionResult.mk 0 true ""] ++ [ResolutionResult.mk 1 passed msg] /\
    GameState.resolutionStep (App.ui a') = 1 + 1 /\
    (App.isHost (Sample.hostApp Sample.descending) = true ->
     forall cur, App.gameStateRef (Sample.hostApp Sample.descending) = Some cur ->
       exists next,
         App.gameStateRef a' = Some next /\
         GameState.resolutionStep next = 1 + 1 /\
         GameState.resolutionResults next =
           [ResolutionResult.mk 0 true ""] ++ [ResolutionResult.mk 1 passed msg]).
Proof.
  apply (resolution_tick (Sample.hostApp Sample.descending) 1).
  - reflexivity.
  - reflexivity.
  - in_range.
  - reflexivity.
  - reflexivity.
Defined.

(** Scenario D, evaluated: slot 1 sums to 5 after slot 0 summed to 8, and
    the tick appends the verdict "Not Ascending" for slot 1. *)
Lemma resolution_tick_not_ascending :
  GameState.resolutionResults <$>
    refOf (App.resolutionEffect (Sample.hostApp Sample.descending))
  = Some [ResolutionResult.mk 0 true ""; ResolutionResult.mk 1 false "Not Ascending"].
Proof. vm_compute. reflexivity. Qed.




(** * Further properties of the code *)

(** ** Deck and deal *)

Lemma unshuffledDeck_NoDup : NoDup GameUtils.unshuffledDeck.
Proof.
  assert (H : bool_decide (NoDup GameUtils.unshuffledDeck) = true)
    by (vm_compute; reflexivity).
  now apply bool_decide_eq_true in H.
Qed.

(** X1.  Whatever the draws are, [createDeck] returns the 24 cards of the
    two suits rearranged: each of them once, none else. *)
Theorem createDeck_rearranges (random : Z -> Z) :
  GameUtils.createDeck random ≡ₚ GameUtils.unshuffledDeck /\
  NoDup (GameUtils.createDeck random) /\
  len (GameUtils.createDeck random) = 24.
Proof.
  pose proof (createDeck_permutation random) as Hperm.
  split; [assumption |]. split.
  - apply (NoDup_Permutation_proper _ _ Hperm). apply unshuffledDeck_NoDup.
  - unfold len. now rewrite createDeck_length.
Qed.

(** X2.  For any deck and any participant count, the deal makes one hand
    per participant (none for a count below 1), no hand is longer than the
    per-participant count, and the hands laid end to end are a prefix of the
    deck: cards are dealt in deck order, none twice, and a deck that runs
    out leaves the later hands short or empty. *)
Theorem dealCards_deals_prefix (deck : list Card.t) (playerCount : Z) :
  length (GameUtils.dealCards deck playerCount) = Z.to_nat playerCount /\
  (forall (p : nat) (hand : list Card.t),
      GameUtils.dealCards deck playerCount !! p = Some hand ->
      (length hand <= Z.to_nat (GameUtils.cardsPerPlayer playerCount))%nat) /\
  concat (GameUtils.dealCards deck playerCount) =
    take (Z.to_nat playerCount * Z.to_nat (GameUtils.cardsPerPlayer playerCount)) deck /\
  ((length deck <= Z.to_nat playerCount * Z.to_nat (GameUtils.cardsPerPlayer playerCount))%nat ->
   concat (GameUtils.dealCards deck playerCount) = deck).
Proof.
  rewrite dealCards_chunks, concat_chunks.
  split; [| split; [| split]].
  - now rewrite length_map, length_seq.
  - intros p hand Hp. rewrite list_lookup_fmap in Hp.
    destruct (seq 0 (Z.to_nat playerCount) !! p) as [q |]; [| discriminate].
    injection Hp as <-. unfold chunk. rewrite length_take. lia.
  - reflexivity.
  - intros Hshort. now apply take_ge.
Qed.

(** ** The bot selector and the bot's turn *)

Lemma validMoves_elem (hand : list Card.t) (segments : list ClockSegment.t)
    (definition : ClockDefinition.t) (cardsPlayedTotal : Z) (card : Card.t) (i : Z) :
  (card, i) ∈ GameUtils.validMoves hand segments definition cardsPlayedTotal <->
  card ∈ hand /\ 0 <= i < TOTAL_SEGMENTS /\
  GameUtils.isValidMove card i segments definition cardsPlayedTotal = true.
Proof.
  unfold GameUtils.validMoves. rewrite list_elem_of_In, in_flat_map. split.
  - intros (c & Hc & Hin). apply in_flat_map in Hin as (j & Hj & Hin).
    apply list_elem_of_In in Hc. apply list_elem_of_In, elem_of_seqZ in Hj.
    destruct (GameUtils.isValidMove c j segments definition cardsPlayedTotal) eqn:Hv;
      [| inversion Hin].
    destruct Hin as [[= <- <-] | []]. split; [assumption |]. split; [lia | assumption].
  - intros (Hc & Hi & Hv). exists card. split; [now apply list_elem_of_In |].
    apply in_flat_map. exists i. split.
    + apply list_elem_of_In, elem_of_seqZ. lia.
    + rewrite Hv. now left.
Qed.

Lemma findBestBotMove_slot_range (random : Z -> Z) (hand : list Card.t)
    (segments : list ClockSegment.t) (definition : ClockDefinition.t)
    (cardsPlayedTotal : Z) (card : Card.t) (slot : Z) :
  (forall k, 0 < k -> 0 <= random k < k) ->
  GameUtils.findBestBotMove random hand segments definition cardsPlayedTotal
  = Some (card, slot) ->
  card ∈ hand /\ 0 <= slot < TOTAL_SEGMENTS.
Proof.
  intros Hrandom Hmove.
  destruct (GameUtils.validMoves hand segments definition cardsPlayedTotal)
    as [| m rest] eqn:Hmoves.
  - unfold GameUtils.findBestBotMove in Hmove. rewrite Hmoves in Hmove. simpl in Hmove.
    destruct hand as [| first others]; [discriminate |].
    injection Hmove as <- <-. split; [left | now apply Hrandom].
  - destruct (findBestBotMove_some_valid segments definition cardsPlayedTotal
                random hand Hrandom) as (move & Hsome & Hin).
    { rewrite Hmoves. discriminate. }
    rewrite Hmove in Hsome. injection Hsome as <-.
    apply validMoves_elem in Hin as (Hc & Hi & _). auto.
Qed.

Lemma cardsOnBoard_insert (segments : list ClockSegment.t) (n : nat)
    (seg : ClockSegment.t) (card : Card.t) :
  segments !! n = Some seg ->
  cardsOnBoard (<[n := ClockSegment.mk (ClockSegment.index seg)
                         (ClockSegment.cards seg ++ [card])]> segments)
  = cardsOnBoard segments + 1.
Proof.
  revert n. induction segments as [| s rest IH]; intros [| n] Hn; try discriminate.
  - injection Hn as ->. simpl. unfold len. rewrite length_app. simpl. lia.
  - simpl in *. rewrite (IH n Hn). lia.
Qed.

(** X3.  With draws inside their range, whatever the selector returns is
    a card of the hand and a slot of the board; and whenever some (card,
    slot) pair passes the placement restriction, the pair it returns passes
    it too. *)
Theorem findBestBotMove_sound (random : Z -> Z) (hand : list Card.t)
    (segments : list ClockSegment.t) (definition : ClockDefinition.t)
    (cardsPlayedTotal : Z) (card : Card.t) (slot : Z) :
  (forall k, 0 < k -> 0 <= random k < k) ->
  GameUtils.findBestBotMove random hand segments definition cardsPlayedTotal
  = Some (card, slot) ->
  card ∈ hand /\ 0 <= slot < TOTAL_SEGMENTS /\
  ((exists c i, c ∈ hand /\ 0 <= i < TOTAL_SEGMENTS /\
                GameUtils.isValidMove c i segments definition cardsPlayedTotal = true) ->
   GameUtils.isValidMove card slot segments definition cardsPlayedTotal = true).
Proof.
  intros Hrandom Hmove.
  destruct (GameUtils.validMoves hand segments definition cardsPlayedTotal)
    as [| m rest] eqn:Hmoves.
  - unfold GameUtils.findBestBotMove in Hmove. rewrite Hmoves in Hmove. simpl in Hmove.
    destruct hand as [| first others]; [discriminate |].
    injection Hmove as <- <-. split; [left |]. split; [now apply Hrandom |].
    intros (c & i & Hc & Hi & Hv).
    assert (Hin : (c, i) ∈ GameUtils.validMoves (first :: others) segments definition
                              cardsPlayedTotal) by now apply validMoves_elem.
    rewrite Hmoves in Hin. inversion Hin.
  - destruct (findBestBotMove_some_valid segments definition cardsPlayedTotal
                random hand Hrandom) as (move & Hsome & Hin).
    { rewrite Hmoves. discriminate. }
    rewrite Hmove in Hsome. injection Hsome as <-.
    apply validMoves_elem in Hin as (Hc & Hi & Hv). auto.
Qed.

Lemma findBestBotMove_sound_witness :
  Sample.solar 1 ∈ [Sample.solar 1; Sample.solar 2] /\ 0 <= 2 < TOTAL_SEGMENTS /\
  ((exists c i, c ∈ [Sample.solar 1; Sample.solar 2] /\ 0 <= i < TOTAL_SEGMENTS /\
                GameUtils.isValidMove c i Sample.emptyBoard clock_III 0 = true) ->
   GameUtils.isValidMove (Sample.solar 1) 2 Sample.emptyBoard clock_III 0 = true).
Proof.
  apply (findBestBotMove_sound (fun _ => 0) [Sample.solar 1; Sample.solar 2]
           Sample.emptyBoard clock_III 0).
  - intros k Hk. lia.
  - reflexivity.
Defined.

(** X4.  The bot's turn always moves the game on.  When the host is
    placing, the participant at the turn index is a bot that holds a card,
    and the board has its six slots, the bot effect returns and one more
    card has been played: the play counter has grown by one and the board
    holds one more card. *)
Theorem botEffect_plays (random : Z -> Z) (a : App.t) (cur : GameState.t)
    (currentP botPlayer : Player.t) :
  (forall k, 0 < k -> 0 <= random k < k) ->
  App.isHost a = true ->
  GameState.phase (App.ui a) = PLACEMENT ->
  js_get_num (GameState.players (App.ui a))
             (GameState.currentPlayerIndex (App.ui a)) = Some currentP ->
  Player.isLocal currentP = false ->
  String.prefix "bot" (Player.id currentP) = true ->
  App.gameStateRef a = Some cur ->
  List.find (fun p => String.eqb (Player.id p) (Player.id currentP))
            (GameState.players cur) = Some botPlayer ->
  Player.hand botPlayer <> [] ->
  len (GameState.clockSegments cur) = TOTAL_SEGMENTS ->
  exists a' next,
    App.botEffect random a = Returned a' /\
    App.gameStateRef a' = Some next /\
    GameState.cardsPlayedCount next = GameState.cardsPlayedCount cur + 1 /\
    cardsOnBoard (GameState.clockSegments next)
    = cardsOnBoard (GameState.clockSegments cur) + 1.
Proof.
  intros Hrandom Hhost Hphase Hcur Hlocal Hbot Href Hfind Hhand Hboard.
  unfold App.botEffect. rewrite Hhost, Hphase, Hcur, Hlocal, Hbot.
  rewrite bool_decide_eq_true_2 by reflexivity. simpl.
  unfold App.botTimeout. rewrite Href, Hfind.
  destruct (GameUtils.findBestBotMove random (Player.hand botPlayer)
              (GameState.clockSegments cur) (GameState.activeClockDef cur)
              (GameState.cardsPlayedCount cur)) as [[card slot] |] eqn:Hmove.
  - destruct (findBestBotMove_slot_range random _ _ _ _ card slot Hrandom Hmove)
      as [_ Hslot].
    assert (Hin : 0 <= slot < len (GameState.clockSegments cur)) by (rewrite Hboard; exact Hslot).
    destruct (js_get_in_range _ _ Hin) as [seg Hseg].
    destruct (executePlayCard_stores a cur (Player.id botPlayer) card slot false Href seg Hseg)
      as (a' & next & Hrun & Hnext & Hsegs & _ & _ & _ & _ & Hcount).
    exists a', next. split; [assumption |]. split; [assumption |].
    split; [assumption |]. rewrite Hsegs.
    apply cardsOnBoard_insert. apply js_get_Some in Hseg as [H0 Hseg]. exact Hseg.
  - apply findBestBotMove_none_iff in Hmove; [| assumption]. contradiction.
Qed.

Lemma botEffect_plays_witness :
  exists a' next,
    App.botEffect (fun _ => 0) (Sample.hostApp Sample.botTurn) = Returned a' /\
    App.gameStateRef a' = Some next /\
    GameState.cardsPlayedCount next = GameState.cardsPlayedCount Sample.botTurn + 1 /\
    cardsOnBoard (GameState.clockSegments next)
    = cardsOnBoard (GameState.clockSegments Sample.botTurn) + 1.
Proof.
  apply (botEffect_plays (fun _ => 0) (Sample.hostApp Sample.botTurn) Sample.botTurn
           Sample.bot Sample.bot).
  - intros k Hk. lia.
  - reflexivity.
  - reflexivity.
  - reflexivity.
  - reflexivity.
  - reflexivity.
  - reflexivity.
  - reflexivity.
  - discriminate.
  - reflexivity.
Defined.

(** ** What a move does to the rest of the state *)

Section PlayCardEffects.
Variables (a : App.t) (curr : GameState.t).
Variables (playerId : string) (card : Card.t) (segmentIndex : Z) (faceUp : bool).
Hypothesis Href : App.gameStateRef a = Some curr.

Lemma executePlayCard_effects (seg : ClockSegment.t) :
  js_get (GameState.clockSegments curr) segmentIndex = Some seg ->
  exists a' next,
    App.executePlayCard playerId card segmentIndex faceUp a = Returned a' /\
    App.gameStateRef a' = Some next /\
    GameState.players next =
      map (fun p =>
             if String.eqb (Player.id p) playerId
             then Player.mk (Player.id p) (Player.name p)
                    (App.removeCard card (Player.hand p)) (Player.isLocal p)
             else p)
          (GameState.players curr) /\
    GameState.phase next =
      (if every (fun p => len (Player.hand p) =? 0) (GameState.players next)
       then RESOLUTION else GameState.phase curr) /\
    GameState.phase (App.ui a') = GameState.phase next /\
    GameState.resolutionStep next = GameState.resolutionStep curr /\
    GameState.resolutionResults next = GameState.resolutionResults curr /\
    GameState.activeClockDef next = GameState.activeClockDef curr /\
    (every (fun p => len (Player.hand p) =? 0) (GameState.players next) = true ->
     GameState.resolutionStep (App.ui a') = 0 /\
     GameState.systemMessage (App.ui a') = "Resolving...") /\
    openConnections a' = openConnections a /\
    exists earlier,
      App.sent a' =
        App.sent a ++ earlier ++
        map (fun c => (c, STATE_UPDATE (App.sanitizeStateForNetwork next)))
            (openConnections a) /\
      Forall (fun m => fst m ∈ openConnections a /\ exists snap, snd m = STATE_UPDATE snap)
             earlier.
Proof.
  intros Hseg. unfold App.executePlayCard. rewrite Href, Hseg.
  remember (map _ (GameState.players curr)) as newPlayers eqn:Hnew. clear Hnew.
  destruct (every (fun p => len (Player.hand p) =? 0) newPlayers) eqn:Hall.
  - unfold App.startResolution. cbn [App.gameStateRef App.setFeedback App.setSystemMessage
      App.setResolutionStep App.upd_ui]. rewrite Href.
    eexists. eexists. split; [reflexivity |].
    match goal with
    | |- context [decide ?P] => destruct (decide P)
    end.
    all: split; [reflexivity |]; cbn; unfold every in Hall |- *; rewrite Hall.
    all: do 6 (split; [first [reflexivity
      | symmetry; apply dec_stable; match goal with H : ¬ _ |- _ => cbn in H; exact H end] |]).
    all: split; [intros _; split; reflexivity |].
    all: split; [reflexivity |].
    all: eexists; split; [rewrite <- app_assoc; reflexivity |].
    all: apply Forall_forall; intros [c m] Hin.
    all: apply list_elem_of_fmap in Hin as (c' & [= -> ->] & Hc').
    all: split; [exact Hc' | eexists; reflexivity].
  - eexists. eexists. split; [reflexivity |].
    match goal with
    | |- context [decide ?P] => destruct (decide P)
    end.
    all: split; [reflexivity |]; cbn; unfold every in Hall |- *; rewrite Hall.
    all: do 6 (split; [first [reflexivity
      | symmetry; apply dec_stable; match goal with H : ¬ _ |- _ => cbn in H; exact H end] |]).
    all: split; [intros Hcontra; discriminate |].
    all: split; [reflexivity |].
    all: exists []; split; [reflexivity | constructor].
Qed.

End PlayCardEffects.

Lemma cardsInHands_after_move (playerId : string) (card : Card.t)
    (players : list Player.t) :
  cardsInHands
    (map (fun p =>
            if String.eqb (Player.id p) playerId
            then Player.mk (Player.id p) (Player.name p)
                   (App.removeCard card (Player.hand p)) (Player.isLocal p)
            else p)
         players)
  = cardsInHands players - heldCopies playerId card players.
Proof.
  induction players as [| p rest IH]; [reflexivity |].
  simpl. rewrite IH. destruct (String.eqb (Player.id p) playerId); [| lia].
  simpl. unfold App.removeCard, len.
  pose proof (filter_length (fun c => String.eqb (Card.id c) (Card.id card))
                (Player.hand p)) as Hlen.
  lia.
Qed.

(** X5.  The count of cards in play after a move: the board gains the
    played card and the hands lose every copy (by id) that participants
    with the submitter's id held.  So hands plus board keep their total
    exactly when one such copy was held, grow by one when the card came
    from nowhere, and shrink when it was held more than once. *)
Theorem executePlayCard_card_count (a : App.t) (curr : GameState.t)
    (playerId : string) (card : Card.t) (s : Z) (faceUp : bool) :
  App.gameStateRef a = Some curr ->
  0 <= s < len (GameState.clockSegments curr) ->
  exists a' next,
    App.executePlayCard playerId card s faceUp a = Returned a' /\
    App.gameStateRef a' = Some next /\
    cardsOnBoard (GameState.clockSegments next)
    = cardsOnBoard (GameState.clockSegments curr) + 1 /\
    cardsInHands (GameState.players next)
    = cardsInHands (GameState.players curr)
      - heldCopies playerId card (GameState.players curr) /\
    (heldCopies playerId card (GameState.players curr) = 1 ->
     cardsInHands (GameState.players next) + cardsOnBoard (GameState.clockSegments next)
     = cardsInHands (GameState.players curr) + cardsOnBoard (GameState.clockSegments curr)).
Proof.
  intros Href Hs. destruct (js_get_in_range _ _ Hs) as [seg Hseg].
  destruct (executePlayCard_stores a curr playerId card s faceUp Href seg Hseg)
    as (a' & next & Hrun & Hnext & Hsegs & _ & Hplayers & _).
  exists a', next. split; [assumption |]. split; [assumption |].
  assert (Hboard : cardsOnBoard (GameState.clockSegments next)
                   = cardsOnBoard (GameState.clockSegments curr) + 1).
  { rewrite Hsegs. apply cardsOnBoard_insert.
    apply js_get_Some in Hseg as [_ Hseg]. exact Hseg. }
  assert (Hhands : cardsInHands (GameState.players next)
                   = cardsInHands (GameState.players curr)
                     - heldCopies playerId card (GameState.players curr)).
  { rewrite Hplayers. apply cardsInHands_after_move. }
  split; [assumption |]. split; [assumption |]. intros Hone. lia.
Qed.

Lemma executePlayCard_card_count_witness :
  exists a' next,
    App.executePlayCard "user-b" (Sample.solar 5) 2 false
      (Sample.hostApp Sample.placingFromGuest) = Returned a' /\
    App.gameStateRef a' = Some next /\
    cardsOnBoard (GameState.clockSegments next)
    = cardsOnBoard (GameState.clockSegments Sample.placingFromGuest) + 1 /\
    cardsInHands (GameState.players next)
    = cardsInHands (GameState.players Sample.placingFromGuest)
      - heldCopies "user-b" (Sample.solar 5) (GameState.players Sample.placingFromGuest) /\
    (heldCopies "user-b" (Sample.solar 5) (GameState.players Sample.placingFromGuest) = 1 ->
     cardsInHands (GameState.players next) + cardsOnBoard (GameState.clockSegments next)
     = cardsInHands (GameState.players Sample.placingFromGuest)
       + cardsOnBoard (GameState.clockSegments Sample.placingFromGuest)).
Proof.
  apply (executePlayCard_card_count (Sample.hostApp Sample.placingFromGuest)
           Sample.placingFromGuest).
  - reflexivity.
  - in_range.
Defined.

(** X6.  A move leaves the seating alone: the participants keep their
    order, ids, names and locality; a participant whose id is not the
    submitter's keeps the hand untouched; the submitter's hand keeps, in
    order, exactly the cards whose id is not the played card's. *)
Theorem executePlayCard_seats (a : App.t) (curr : GameState.t)
    (playerId : string) (card : Card.t) (s : Z) (faceUp : bool) :
  App.gameStateRef a = Some curr ->
  0 <= s < len (GameState.clockSegments curr) ->
  exists a' next,
    App.executePlayCard playerId card s faceUp a = Returned a' /\
    App.gameStateRef a' = Some next /\
    length (GameState.players next) = length (GameState.players curr) /\
    forall (i : nat) (p : Player.t),
      GameState.players curr !! i = Some p ->
      exists p',
        GameState.players next !! i = Some p' /\
        Player.id p' = Player.id p /\ Player.name p' = Player.name p /\
        Player.isLocal p' = Player.isLocal p /\
        (Player.id p <> playerId -> p' = p) /\
        (Player.id p = playerId ->
         Player.hand p' =
         List.filter (fun c => negb (String.eqb (Card.id c) (Card.id card)))
                     (Player.hand p)).
Proof.
  intros Href Hs. destruct (js_get_in_range _ _ Hs) as [seg Hseg].
  destruct (executePlayCard_stores a curr playerId card s faceUp Href seg Hseg)
    as (a' & next & Hrun & Hnext & _ & _ & Hplayers & _).
  exists a', next. split; [assumption |]. split; [assumption |].
  rewrite Hplayers. split; [apply length_map |].
  intros i p Hp. rewrite list_lookup_fmap, Hp. simpl.
  destruct (String.eqb (Player.id p) playerId) eqn:Hid.
  - apply String.eqb_eq in Hid. eexists. split; [reflexivity |]. simpl.
    repeat split; try reflexivity. intros Hne. contradiction.
  - apply String.eqb_neq in Hid. exists p. repeat split; try reflexivity.
    intros Heq. contradiction.
Qed.

Lemma executePlayCard_seats_witness :
  exists a' next,
    App.executePlayCard "user-b" (Sample.solar 5) 2 false
      (Sample.hostApp Sample.placingFromGuest) = Returned a' /\
    App.gameStateRef a' = Some next /\
    length (GameState.players next) = length (GameState.players Sample.placingFromGuest) /\
    forall (i : nat) (p : Player.t),
      GameState.players Sample.placingFromGuest !! i = Some p ->
      exists p',
        GameState.players next !! i = Some p' /\
        Player.id p' = Player.id p /\ Player.name p' = Player.name p /\
        Player.isLocal p' = Player.isLocal p /\
        (Player.id p <> "user-b" -> p' = p) /\
        (Player.id p = "user-b" ->
         Player.hand p' =
         List.filter (fun c => negb (String.eqb (Card.id c) (Card.id (Sample.solar 5))))
                     (Player.hand p)).
Proof.
  apply (executePlayCard_seats (Sample.hostApp Sample.placingFromGuest)
           Sample.placingFromGuest).
  - reflexivity.
  - in_range.
Defined.

(** X7.  The last card.  A move after which every hand is empty stores
    phase RESOLUTION in the ref, but with the cursor and the verdicts the
    ref had before; the cursor 0 and the message "Resolving..." are set in
    the React cells only, and reach the ref when the synchronising effect
    runs.  A move that leaves a card in some hand keeps the phase. *)
Theorem executePlayCard_enters_resolution (a : App.t) (curr : GameState.t)
    (playerId : string) (card : Card.t) (s : Z) (faceUp : bool) :
  App.gameStateRef a = Some curr ->
  0 <= s < len (GameState.clockSegments curr) ->
  exists a' next,
    App.executePlayCard playerId card s faceUp a = Returned a' /\
    App.gameStateRef a' = Some next /\
    (every (fun p => len (Player.hand p) =? 0) (GameState.players next) = false ->
     GameState.phase next = GameState.phase curr) /\
    (every (fun p => len (Player.hand p) =? 0) (GameState.players next) = true ->
     GameState.phase next = RESOLUTION /\
     GameState.resolutionStep next = GameState.resolutionStep curr /\
     GameState.resolutionResults next = GameState.resolutionResults curr /\
     exists synced,
       App.gameStateRef (App.syncEffect a') = Some synced /\
       GameState.phase synced = RESOLUTION /\
       GameState.resolutionStep synced = 0 /\
       GameState.systemMessage synced = "Resolving..." /\
       GameState.clockSegments synced = GameState.clockSegments next).
Proof.
  intros Href Hs. destruct (js_get_in_range _ _ Hs) as [seg Hseg].
  destruct (executePlayCard_effects a curr playerId card s faceUp Href seg Hseg)
    as (a' & next & Hrun & Hnext & _ & Hphase & Hui & Hstep & Hres & _ & Hcur & _).
  destruct (executePlayCard_stores a curr playerId card s faceUp Href seg Hseg)
    as (a2 & next2 & Hrun2 & Hnext2 & _ & Hsegs & _).
  rewrite Hrun in Hrun2. injection Hrun2 as <-.
  rewrite Hnext in Hnext2. injection Hnext2 as <-.
  exists a', next. split; [assumption |]. split; [assumption |]. split.
  - intros Hall. now rewrite Hall in Hphase.
  - intros Hall. destruct (Hcur Hall) as [Hzero Hmsg]. rewrite Hall in Hphase.
    split; [assumption |]. split; [assumption |]. split; [assumption |].
    eexists. split; [reflexivity |]. cbn.
    split; [congruence |]. split; [assumption |]. split; assumption.
Qed.

Lemma executePlayCard_enters_resolution_witness :
  exists a' next,
    App.executePlayCard "user-b" (Sample.solar 5) 2 false
      (Sample.hostApp Sample.placingFromGuest) = Returned a' /\
    App.gameStateRef a' = Some next /\
    (every (fun p => len (Player.hand p) =? 0) (GameState.players next) = false ->
     GameState.phase next = GameState.phase Sample.placingFromGuest) /\
    (every (fun p => len (Player.hand p) =? 0) (GameState.players next) = true ->
     GameState.phase next = RESOLUTION /\
     GameState.resolutionStep next = GameState.resolutionStep Sample.placingFromGuest /\
     GameState.resolutionResults next = GameState.resolutionResults Sample.placingFromGuest /\
     exists synced,
       App.gameStateRef (App.syncEffect a') = Some synced /\
       GameState.phase synced = RESOLUTION /\
       GameState.resolutionStep synced = 0 /\
       GameState.systemMessage synced = "Resolving..." /\
       GameState.clockSegments synced = GameState.clockSegments next).
Proof.
  apply (executePlayCard_enters_resolution (Sample.hostApp Sample.placingFromGuest)
           Sample.placingFromGuest).
  - reflexivity.
  - in_range.
Defined.

(** X8.  What the host stores, it broadcasts.  When a network message
    makes the host return, either nothing at all has changed, or the ref
    holds a state whose snapshot has just been sent, last, to every stored
    connection that is open; whatever else was sent in between is a state
    update to an open connection too. *)
Theorem host_broadcasts_what_it_stores (data : Message) (a a' : App.t) :
  App.handleIncomingDataHost data a = Returned a' ->
  a' = a \/
  exists next earlier,
    App.gameStateRef a' = Some next /\
    App.sent a' =
      App.sent a ++ earlier ++
      map (fun c => (c, STATE_UPDATE (App.sanitizeStateForNetwork next)))
          (openConnections a) /\
    Forall (fun m => fst m ∈ openConnections a /\ exists snap, snd m = STATE_UPDATE snap)
           earlier.
Proof.
  unfold App.handleIncomingDataHost.
  destruct (App.gameStateRef a) as [current |] eqn:Href;
    [| intros [= <-]; now left].
  destruct data as [state | message | | pid name | pid card s faceUp | pid name |];
    try (intros [= <-]; now left).
  - (* MOVE *)
    destruct (js_get (GameState.clockSegments current) s) as [seg |] eqn:Hseg.
    + destruct (executePlayCard_effects a current pid card s faceUp Href seg Hseg)
        as (a2 & next & Hrun & Hnext & _ & _ & _ & _ & _ & _ & _ & _ & earlier & Hsent & Hall).
      rewrite Hrun. intros [= <-]. right. exists next, earlier. auto.
    + rewrite (executePlayCard_no_slot a current pid card s faceUp Href Hseg).
      discriminate.
  - (* CLAIM_START *)
    destruct (negb _); [| intros [= <-]; now left].
    unfold App.startGamePhase. rewrite Href.
    destruct (js_get (GameState.players current) _) as [starter |];
      [| intros [= <-]; now left].
    intros [= <-]. right. eexists. exists []. split; [reflexivity |].
    split; [reflexivity | constructor].
Qed.

Lemma host_broadcasts_what_it_stores_witness :
  exists a',
    App.handleIncomingDataHost (CLAIM_START "user-b" "Ben")
      (Sample.hostApp Sample.selecting) = Returned a' /\
    (a' = Sample.hostApp Sample.selecting \/
     exists next earlier,
       App.gameStateRef a' = Some next /\
       App.sent a' =
         App.sent (Sample.hostApp Sample.selecting) ++ earlier ++
         map (fun c => (c, STATE_UPDATE (App.sanitizeStateForNetwork next)))
             (openConnections (Sample.hostApp Sample.selecting)) /\
       Forall (fun m => fst m ∈ openConnections (Sample.hostApp Sample.selecting) /\
                        exists snap, snd m = STATE_UPDATE snap)
              earlier).
Proof.
  eexists. split; [reflexivity |].
  apply (host_broadcasts_what_it_stores (CLAIM_START "user-b" "Ben")
           (Sample.hostApp Sample.selecting)).
  reflexivity.
Defined.

(** ** The replica *)

(** X9.  A replica that applies the snapshot of a host state mirrors that
    state: phase, participants with their hands, board, turn index, both
    counters and the system message are the host's, whatever the replica
    held before.  The resolution cursor and verdicts are taken over only in
    RESOLUTION, and there a cursor of 0 arrives as -1; in any other phase
    the replica keeps the cursor and verdicts it had.  Applying a snapshot
    sends nothing and leaves the ref alone. *)
Theorem replica_mirrors_snapshot (firstClock : ClockDefinition.t)
    (otherClocks : list ClockDefinition.t) (g : GameState.t) (a : App.t) :
  let a' := Client.applyRemoteState firstClock otherClocks
              (App.sanitizeStateForNetwork g) a in
  GameState.phase (App.ui a') = GameState.phase g /\
  GameState.players (App.ui a') = GameState.players g /\
  GameState.clockSegments (App.ui a') = GameState.clockSegments g /\
  GameState.currentPlayerIndex (App.ui a') = GameState.currentPlayerIndex g /\
  GameState.faceUpTokensUsed (App.ui a') = GameState.faceUpTokensUsed g /\
  GameState.cardsPlayedCount (App.ui a') = GameState.cardsPlayedCount g /\
  GameState.systemMessage (App.ui a') = GameState.systemMessage g /\
  (GameState.phase g = RESOLUTION ->
   GameState.resolutionResults (App.ui a') = GameState.resolutionResults g /\
   GameState.resolutionStep (App.ui a') =
     (if GameState.resolutionStep g =? 0 then -1 else GameState.resolutionStep g)) /\
  (GameState.phase g <> RESOLUTION ->
   GameState.resolutionResults (App.ui a') = GameState.resolutionResults (App.ui a) /\
   GameState.resolutionStep (App.ui a') = GameState.resolutionStep (App.ui a)) /\
  App.gameStateRef a' = App.gameStateRef a /\
  App.sent a' = App.sent a.
Proof.
  unfold Client.applyRemoteState. cbn [Snapshot.phase Snapshot.clockDefId
    Snapshot.resolutionStep Snapshot.resolutionResults App.sanitizeStateForNetwork].
  destruct (String.eqb (GameState.clockDefId g) "");
    [| destruct (List.find _ _)];
    destruct (decide (GameState.phase g = RESOLUTION)) as [Hres | Hres];
    cbn; destruct (GameState.currentPlayerIndex g);
    repeat split; try reflexivity; try (intros; contradiction);
    try (intros; congruence).
Qed.

(** X10.  Applying the same snapshot a second time changes nothing. *)
Theorem applyRemoteState_idempotent (firstClock : ClockDefinition.t)
    (otherClocks : list ClockDefinition.t) (s : Snapshot.t) (a : App.t) :
  Client.applyRemoteState firstClock otherClocks s
    (Client.applyRemoteState firstClock otherClocks s a)
  = Client.applyRemoteState firstClock otherClocks s a.
Proof.
  destruct a as [ui ref me name sel face fb host conn peers count table open sent].
  destruct ui as [ph def segs pl idx fu cp cid step res msg].
  unfold Client.applyRemoteState.
  destruct (String.eqb (Snapshot.clockDefId s) "");
    [| destruct (List.find _ (firstClock :: otherClocks))];
    destruct (decide (Snapshot.phase s = RESOLUTION));
    vm_compute; reflexivity.
Qed.

(** ** Full validation: when it throws, and the shape of what it returns *)

Section ValidateTotality.
Variables (segments : list ClockSegment.t) (definition : ClockDefinition.t).

Lemma validateStep_missing (i : Z) (st : Z * list ValidationResult.t) :
  js_get segments (slotOrder definition i) = None ->
  GameUtils.validateStep segments definition i st = Threw.
Proof.
  intros Hnone. destruct st as [previousSum results].
  unfold GameUtils.validateStep. fold (slotOrder definition i). now rewrite Hnone.
Qed.

Lemma validateStep_present (i : Z) (st : Z * list ValidationResult.t)
    (seg : ClockSegment.t) :
  js_get segments (slotOrder definition i) = Some seg ->
  exists results',
    GameUtils.validateStep segments definition i st
    = Returned (sumCards (ClockSegment.cards seg), results') /\
    (Forall failing (snd st) -> Forall failing results').
Proof.
  intros Hseg. destruct st as [previousSum results].
  unfold GameUtils.validateStep. fold (slotOrder definition i). rewrite Hseg.
  eexists. split; [reflexivity |]. cbn [snd]. intros H.
  now apply pushSegmentRule_failing, pushMaxTotal_failing, pushAscending_failing.
Qed.

Lemma validateLoop_throws (indices : list Z) :
  forall (st : Z * list ValidationResult.t) (i : Z),
    i ∈ indices ->
    js_get segments (slotOrder definition i) = None ->
    GameUtils.validateLoop segments definition indices st = Threw.
Proof.
  induction indices as [| j rest IH]; intros st i Hin Hnone; [inversion Hin |].
  cbn [GameUtils.validateLoop]. apply elem_of_cons in Hin as [-> | Hin].
  - now rewrite validateStep_missing.
  - destruct (GameUtils.validateStep segments definition j st); [| reflexivity].
    now apply IH with i.
Qed.

Lemma validateLoop_returns (indices : list Z) :
  forall st : Z * list ValidationResult.t,
    (forall i, i ∈ indices -> exists seg, js_get segments (slotOrder definition i) = Some seg) ->
    exists st',
      GameUtils.validateLoop segments definition indices st = Returned st' /\
      (Forall failing (snd st) -> Forall failing (snd st')).
Proof.
  induction indices as [| j rest IH]; intros st Hall.
  - exists st. split; [reflexivity | tauto].
  - destruct (Hall j) as [seg Hseg]; [left |].
    destruct (validateStep_present j st seg Hseg) as (mid & Hrun & Hfail).
    destruct (IH (sumCards (ClockSegment.cards seg), mid)) as (st' & Hrun' & Hfail').
    { intros i Hi. apply Hall. now right. }
    exists st'. cbn [GameUtils.validateLoop]. rewrite Hrun, Hrun'.
    split; [reflexivity | tauto].
Qed.

Lemma validateLoop_failing (indices : list Z) :
  forall st st' : Z * list ValidationResult.t,
    GameUtils.validateLoop segments definition indices st = Returned st' ->
    Forall failing (snd st) -> Forall failing (snd st').
Proof.
  induction indices as [| j rest IH]; intros st st' Hrun Hfail.
  - cbn [GameUtils.validateLoop] in Hrun. now injection Hrun as <-.
  - cbn [GameUtils.validateLoop] in Hrun.
    destruct (js_get segments (slotOrder definition j)) as [seg |] eqn:Hseg.
    + destruct (validateStep_present j st seg Hseg) as (mid & Hstep & Hmid).
      rewrite Hstep in Hrun. apply (IH _ _ Hrun). cbn [snd]. tauto.
    + rewrite validateStep_missing in Hrun by assumption. discriminate.
Qed.

End ValidateTotality.

Lemma slotOrder_negative (definition : ClockDefinition.t) :
  ClockDefinition.startingSegmentIndex definition < 0 ->
  exists i, 0 <= i < TOTAL_SEGMENTS /\ slotOrder definition i < 0.
Proof.
  intros Hneg. unfold slotOrder, TOTAL_SEGMENTS.
  destruct (Z.eq_dec (Z.rem (ClockDefinition.startingSegmentIndex definition + 0) 6) 0)
    as [Hzero | Hnz].
  - exists 1. split; [lia |].
    revert Hzero. generalize (ClockDefinition.startingSegmentIndex definition) Hneg.
    intros z Hz. Z.quot_rem_to_equations. lia.
  - exists 0. split; [lia |].
    revert Hnz. generalize (ClockDefinition.startingSegmentIndex definition) Hneg.
    intros z Hz. Z.quot_rem_to_equations. lia.
Qed.


(** X12.  What full validation returns is never empty and never mixed: it
    is either the single passing result "Clock Validated Successfully!" or
    a list of failing results only.  So [every(r => r.passed)] on it holds
    exactly when its first result passed. *)
Theorem validateClock_shape (segments : list ClockSegment.t)
    (definition : ClockDefinition.t) (results : list ValidationResult.t) :
  GameUtils.validateClock segments definition = Returned results ->
  results = [ValidationResult.mk true (Some "Clock Validated Successfully!")] \/
  (results <> [] /\ Forall failing results /\
   every ValidationResult.passed results = false).
Proof.
  unfold GameUtils.validateClock.
  destruct (GameUtils.validateLoop segments definition (seqZ 0 TOTAL_SEGMENTS)
              (-1, GameUtils.emptyResults segments)) as [[p rs] |] eqn:Hrun;
    [| discriminate].
  pose proof (validateLoop_failing segments definition _ _ _ Hrun
                (emptyResults_failing segments)) as Hfail. cbn [snd] in Hfail.
  destruct (len (GameUtils.pushGlobalRule definition segments rs) =? 0) eqn:Hlen.
  - intros [= <-]. now left.
  - intros [= <-]. right.
    assert (Hne : GameUtils.pushGlobalRule definition segments rs <> []).
    { intros Hn. apply len_zero_nil in Hn. congruence. }
    assert (Hall : Forall failing (GameUtils.pushGlobalRule definition segments rs))
      by now apply pushGlobalRule_failing.
    split; [assumption |]. split; [assumption |]. now apply every_failing.
Qed.

Lemma validateClock_shape_witness :
  exists results,
    GameUtils.validateClock Sample.emptyBoard clock_III = Returned results /\
    (results = [ValidationResult.mk true (Some "Clock Validated Successfully!")] \/
     (results <> [] /\ Forall failing results /\
      every ValidationResult.passed results = false)).
Proof.
  eexists. split; [vm_compute; reflexivity |].
  apply (validateClock_shape Sample.emptyBoard clock_III).
  vm_compute. reflexivity.
Defined.

(** ** The sequencer over the whole board *)

Lemma resolutionEffect_tick (a : App.t) :
  GameState.phase (App.ui a) = RESOLUTION ->
  0 <= GameState.resolutionStep (App.ui a) < TOTAL_SEGMENTS ->
  GameState.resolutionStep (App.ui a) < len (GameState.clockSegments (App.ui a)) ->
  exists a' passed msg,
    App.resolutionEffect a = Returned a' /\
    App.tickVerdict (GameState.clockSegments (App.ui a))
      (GameState.activeClockDef (App.ui a)) (GameState.resolutionStep (App.ui a))
    = Returned (passed, msg) /\
    App.ui a' =
      GameState.set_resolutionStep (GameState.resolutionStep (App.ui a) + 1)
        (GameState.set_resolutionResults
           (GameState.resolutionResults (App.ui a) ++
            [ResolutionResult.mk (GameState.resolutionStep (App.ui a)) passed msg])
           (App.ui a)).
Proof.
  intros Hphase Hc Hlen.
  destruct (tickVerdict_spec (GameState.clockSegments (App.ui a))
              (GameState.activeClockDef (App.ui a))
              (GameState.resolutionStep (App.ui a))) as (passed & msg & Hrun & _);
    [lia |].
  unfold App.resolutionEffect. rewrite Hphase.
  rewrite bool_decide_eq_true_2 by reflexivity.
  rewrite (proj2 (Z.leb_le 0 _)) by lia.
  rewrite (proj2 (Z.ltb_lt _ TOTAL_SEGMENTS)) by lia.
  simpl andb. cbv iota.
  unfold App.resolutionTimeout. rewrite Hrun.
  unfold App.setResolutionStep, App.setResolutionResults.
  rewrite !isHost_upd_ui, !gameStateRef_upd_ui.
  destruct (App.isHost a); [destruct (App.gameStateRef a) |];
    eexists; exists passed, msg; (split; [reflexivity |]);
    (split; [reflexivity |]); reflexivity.
Qed.

Lemma repeatEffect_ticks (n : nat) :
  forall a : App.t,
    GameState.phase (App.ui a) = RESOLUTION ->
    0 <= GameState.resolutionStep (App.ui a) ->
    GameState.resolutionStep (App.ui a) + Z.of_nat n <= TOTAL_SEGMENTS ->
    GameState.resolutionStep (App.ui a) + Z.of_nat n
    <= len (GameState.clockSegments (App.ui a)) ->
    exists a' verdicts,
      repeatEffect n a = Returned a' /\
      GameState.phase (App.ui a') = RESOLUTION /\
      GameState.clockSegments (App.ui a') = GameState.clockSegments (App.ui a) /\
      GameState.activeClockDef (App.ui a') = GameState.activeClockDef (App.ui a) /\
      GameState.resolutionStep (App.ui a')
      = GameState.resolutionStep (App.ui a) + Z.of_nat n /\
      GameState.resolutionResults (App.ui a')
      = GameState.resolutionResults (App.ui a) ++ verdicts /\
      map ResolutionResult.index verdicts
      = seqZ (GameState.resolutionStep (App.ui a)) (Z.of_nat n) /\
      Forall (fun v =>
                App.tickVerdict (GameState.clockSegments (App.ui a))
                  (GameState.activeClockDef (App.ui a)) (ResolutionResult.index v)
                = Returned (ResolutionResult.passed v, ResolutionResult.message v))
             verdicts.
Proof.
  induction n as [| n IH]; intros a Hphase Hpos Hsix Hlen.
  - exists a, []. cbn [repeatEffect Z.of_nat map]. rewrite app_nil_r, Z.add_0_r.
    repeat (split; [first [assumption | reflexivity] |]). constructor.
  - destruct (resolutionEffect_tick a Hphase) as (mid & passed & msg & Hrun & Htick & Hui);
      [lia | lia |].
    destruct (IH mid) as (a' & verdicts & Hrun' & Hp & Hs & Hd & Hstep & Hres & Hidx & Hall).
    { rewrite Hui. exact Hphase. }
    { rewrite Hui. simpl. lia. }
    { rewrite Hui. simpl. lia. }
    { rewrite Hui. simpl. lia. }
    rewrite Hui in Hs, Hd, Hstep, Hres, Hidx, Hall. simpl in Hs, Hd, Hstep, Hres, Hidx, Hall.
    exists a',
      (ResolutionResult.mk (GameState.resolutionStep (App.ui a)) passed msg :: verdicts).
    cbn [repeatEffect andThen]. rewrite Hrun. cbn [andThen].
    split; [assumption |]. split; [assumption |]. split; [assumption |].
    split; [assumption |]. split; [lia |]. split.
    { rewrite Hres, <- app_assoc. reflexivity. }
    split.
    { cbn [map ResolutionResult.index]. rewrite Hidx.
      rewrite (seqZ_cons (GameState.resolutionStep (App.ui a))) by lia.
      f_equal. f_equal; lia. }
    constructor; [exact Htick | exact Hall].
Qed.

(** X13.  On a board of six slots whose card values and sums are safe
    integers, from any cursor, the resolution effect run [n] times without passing the sixth slot returns; it advances the
    cursor by [n] and appends [n] verdicts, for the slots from the cursor
    on, in order, each the verdict of its slot on the board; the board and
    the phase stay as they are.  So the verdict list and the cursor grow
    together, and a resolution begun at cursor 0 with no verdicts reaches
    cursor 6 with the six verdicts of slots 0..5. *)
Theorem resolution_ticks (n : nat) (a : App.t) :
  GameState.phase (App.ui a) = RESOLUTION ->
  0 <= GameState.resolutionStep (App.ui a) ->
  GameState.resolutionStep (App.ui a) + Z.of_nat n <= TOTAL_SEGMENTS ->
  len (GameState.clockSegments (App.ui a)) = TOTAL_SEGMENTS ->
  exactBoard (GameState.clockSegments (App.ui a)) = true ->
  exists a' verdicts,
    repeatEffect n a = Returned a' /\
    GameState.phase (App.ui a') = RESOLUTION /\
    GameState.clockSegments (App.ui a') = GameState.clockSegments (App.ui a) /\
    GameState.resolutionStep (App.ui a')
    = GameState.resolutionStep (App.ui a) + Z.of_nat n /\
    GameState.resolutionResults (App.ui a')
    = GameState.resolutionResults (App.ui a) ++ verdicts /\
    len verdicts = Z.of_nat n /\
    map ResolutionResult.index verdicts
    = seqZ (GameState.resolutionStep (App.ui a)) (Z.of_nat n) /\
    Forall (fun v =>
              App.tickVerdict (GameState.clockSegments (App.ui a))
                (GameState.activeClockDef (App.ui a)) (ResolutionResult.index v)
              = Returned (ResolutionResult.passed v, ResolutionResult.message v))
           verdicts.
Proof.
  intros Hphase Hpos Hsix Hboard _.
  destruct (repeatEffect_ticks n a Hphase Hpos Hsix)
    as (a' & verdicts & Hrun & Hp & Hs & _ & Hstep & Hres & Hidx & Hall); [lia |].
  exists a', verdicts. repeat (split; [assumption |]).
  split; [| split; assumption].
  unfold len. rewrite <- (length_map ResolutionResult.index), Hidx, length_seqZ. lia.
Qed.

Lemma resolution_ticks_witness :
  exists a' verdicts,
    repeatEffect 6 (Sample.hostApp (Sample.resolving 0 [])) = Returned a' /\
    GameState.phase (App.ui a') = RESOLUTION /\
    GameState.clockSegments (App.ui a') = Sample.wonBoard /\
    GameState.resolutionStep (App.ui a') = 0 + Z.of_nat 6 /\
    GameState.resolutionResults (App.ui a') = [] ++ verdicts /\
    len verdicts = Z.of_nat 6 /\
    map ResolutionResult.index verdicts = seqZ 0 (Z.of_nat 6) /\
    Forall (fun v =>
              App.tickVerdict Sample.wonBoard clock_II (ResolutionResult.index v)
              = Returned (ResolutionResult.passed v, ResolutionResult.message v))
           verdicts.
Proof.
  apply (resolution_ticks 6 (Sample.hostApp (Sample.resolving 0 []))).
  - reflexivity.
  - vm_compute. discriminate.
  - vm_compute. discriminate.
  - reflexivity.
  - reflexivity.
Defined.

(** X14.  For a mission that starts at slot 0, on a board of six slots
    whose card values and sums are safe integers, the final validation passes exactly when all six slot verdicts of the
    sequencer pass, no slot exceeds the mission's maximum total and the
    global rule passes. *)
Theorem victory_iff_all_slots_pass (segments : list ClockSegment.t)
    (definition : ClockDefinition.t) :
  len segments = TOTAL_SEGMENTS ->
  exactBoard segments = true ->
  ClockDefinition.startingSegmentIndex definition = 0 ->
  exists results,
    GameUtils.validateClock segments definition = Returned results /\
    (every ValidationResult.passed results = true <->
     (forall c, 0 <= c < TOTAL_SEGMENTS ->
        App.tickVerdict segments definition c = Returned (true, "")) /\
     (forall maxTotal c,
        ClockDefinition.maxTotal definition = Some maxTotal -> maxTotal <> 0 ->
        0 <= c < TOTAL_SEGMENTS -> slotSum segments c <= maxTotal) /\
     (forall rule,
        ClockDefinition.globalRules definition = Some rule ->
        ValidationResult.passed (rule segments) = true)).
Proof.
  intros Hboard _ Hstart.
  destruct (validateClock_spec segments definition Hboard ltac:(lia))
    as (results & Hrun & Hiff).
  exists results. split; [assumption |]. rewrite Hiff. clear Hiff Hrun results.
  assert (Horder : forall i, 0 <= i < TOTAL_SEGMENTS -> slotOrder definition i = i).
  { intros i Hi. unfold slotOrder. rewrite Hstart. simpl.
    apply Z.rem_small. exact Hi. }
  assert (Hslot : forall c seg, js_get segments c = Some seg -> slotAt segments c = seg).
  { intros c seg H. unfold slotAt. now rewrite H. }
  split.
  - intros [Hne Hasc Hrules Hmax Hglobal]. split; [| split; assumption].
    intros c Hc.
    destruct (tickVerdict_spec segments definition c) as (passed & msg & Hrun & Hv);
      [lia |].
    destruct (js_get_in_range segments c) as [seg Hseg]; [lia |].
    assert (Hpass : SlotVerdict segments definition c true "").
    { apply verdict_passed with seg; [assumption | | |].
      - apply Hne. apply js_get_Some in Hseg as [_ Hseg].
        eapply list_elem_of_lookup_2; eassumption.
      - rewrite <- (Hslot c seg Hseg). now apply Hrules.
      - destruct (Z.eq_dec c 0) as [-> | Hnz]; [left; lia |]. right.
        destruct (js_get_in_range segments (c - 1)) as [previous Hprev]; [lia |].
        exists previous. split; [assumption |].
        specialize (Hasc c ltac:(lia)).
        rewrite !Horder in Hasc by lia. unfold slotSum in Hasc.
        now rewrite (Hslot _ _ Hprev), (Hslot _ _ Hseg) in Hasc. }
    destruct (SlotVerdict_unique _ _ _ _ _ _ _ Hv Hpass) as [-> ->]. exact Hrun.
  - intros (Hticks & Hmax & Hglobal).
    assert (Hpassed : forall c, 0 <= c < TOTAL_SEGMENTS ->
              SlotVerdict segments definition c true "").
    { intros c Hc.
      destruct (tickVerdict_spec segments definition c) as (passed & msg & Hrun & Hv);
        [lia |].
      rewrite (Hticks c Hc) in Hrun. now injection Hrun as <- <-. }
    constructor; try assumption.
    + intros seg Hin. apply list_elem_of_lookup in Hin as [i Hi].
      pose proof (lookup_lt_Some _ _ _ Hi) as Hlt. unfold len in Hboard.
      specialize (Hpassed (Z.of_nat i) ltac:(lia)).
      inversion Hpassed as [| | | seg' Hget Hne _ _]; subst.
      rewrite js_get_of_nat, Hi in Hget. now injection Hget as <-.
    + intros i Hi. rewrite !Horder by lia. unfold slotSum.
      specialize (Hpassed i ltac:(lia)).
      inversion Hpassed as [| | | seg Hget _ _ Hasc]; subst.
      destruct Hasc as [Hle | (previous & Hprev & Hsum)]; [lia |].
      now rewrite (Hslot _ _ Hprev), (Hslot _ _ Hget).
    + intros i Hi. specialize (Hpassed i Hi).
      inversion Hpassed as [| | | seg Hget _ Hrule _]; subst.
      now rewrite (Hslot _ _ Hget).
Qed.

Lemma victory_iff_all_slots_pass_witness :
  exists results,
    GameUtils.validateClock Sample.wonBoard clock_II = Returned results /\
    (every ValidationResult.passed results = true <->
     (forall c, 0 <= c < TOTAL_SEGMENTS ->
        App.tickVerdict Sample.wonBoard clock_II c = Returned (true, "")) /\
     (forall maxTotal c,
        ClockDefinition.maxTotal clock_II = Some maxTotal -> maxTotal <> 0 ->
        0 <= c < TOTAL_SEGMENTS -> slotSum Sample.wonBoard c <= maxTotal) /\
     (forall rule,
        ClockDefinition.globalRules clock_II = Some rule ->
        ValidationResult.passed (rule Sample.wonBoard) = true)).
Proof.
  apply (victory_iff_all_slots_pass Sample.wonBoard clock_II).
  - reflexivity.
  - reflexivity.
  - reflexivity.
Defined.

(** X15.  The resolution effect never touches the game itself: whenever
    it returns, participants, hands, board, phase, turn index and both
    counters are what they were.  On a node that is not the host it sends
    nothing and leaves the ref alone. *)
Theorem resolutionEffect_frame (a a' : App.t) :
  App.resolutionEffect a = Returned a' ->
  GameState.players (App.ui a') = GameState.players (App.ui a) /\
  GameState.clockSegments (App.ui a') = GameState.clockSegments (App.ui a) /\
  GameState.phase (App.ui a') = GameState.phase (App.ui a) /\
  GameState.currentPlayerIndex (App.ui a') = GameState.currentPlayerIndex (App.ui a) /\
  GameState.faceUpTokensUsed (App.ui a') = GameState.faceUpTokensUsed (App.ui a) /\
  GameState.cardsPlayedCount (App.ui a') = GameState.cardsPlayedCount (App.ui a) /\
  (App.isHost a = false ->
   App.gameStateRef a' = App.gameStateRef a /\ App.sent a' = App.sent a).
Proof.
  unfold App.resolutionEffect.
  destruct (_ && _ && _).
  - unfold App.resolutionTimeout.
    destruct (App.tickVerdict _ _ _) as [[passed msg] |]; [| discriminate].
    unfold App.setResolutionStep, App.setResolutionResults.
    rewrite !isHost_upd_ui, !gameStateRef_upd_ui.
    destruct (App.isHost a); [destruct (App.gameStateRef a) |];
      intros [= <-]; cbn; repeat split; try reflexivity; intros; discriminate.
  - destruct (_ && _); [| intros [= <-]; repeat split; reflexivity].
    unfold App.resolutionFinal.
    destruct (App.isHost a); [| intros [= <-]; repeat split; reflexivity].
    destruct (GameUtils.validateClock _ _); [| discriminate].
    unfold App.setSystemMessage. rewrite gameStateRef_upd_ui.
    destruct (App.gameStateRef a);
      intros [= <-]; cbn; repeat split; try reflexivity; intros; discriminate.
Qed.

Lemma resolutionEffect_frame_witness :
  exists a',
    App.resolutionEffect (Sample.hostApp Sample.descending) = Returned a' /\
    GameState.players (App.ui a') = GameState.players Sample.descending /\
    GameState.clockSegments (App.ui a') = GameState.clockSegments Sample.descending /\
    GameState.phase (App.ui a') = RESOLUTION.
Proof.
  eexists. split; [vm_compute; reflexivity |].
  destruct (resolutionEffect_frame (Sample.hostApp Sample.descending) _
              ltac:(vm_compute; reflexivity)) as (Hp & Hs & Hph & _).
  split; [exact Hp |]. split; [exact Hs | exact Hph].
Defined.

(** ** Starting a game *)

Section Seats.
Variables (dealtHands : list (list Card.t)) (pCount : Z).

Lemma seatPeer_fold (peers : list (string * string)) :
  forall (acc : list Player.t) (h : Z),
    fold_left (Setup.seatPeer dealtHands pCount) peers (acc, h) =
    (acc ++ zip_with (fun p i => Player.mk (fst p) (snd p) (Setup.handAt dealtHands i) false)
                     peers (seqZ h (pCount - h)),
     h + Z.of_nat (Nat.min (length peers) (Z.to_nat (pCount - h)))).
Proof.
  induction peers as [| p rest IH]; intros acc h.
  - cbn. rewrite app_nil_r, Z.add_0_r. reflexivity.
  - cbn [fold_left]. unfold Setup.seatPeer at 2.
    destruct (h <? pCount) eqn:E.
    + apply Z.ltb_lt in E. rewrite IH.
      rewrite (seqZ_cons h) by lia. cbn [zip_with]. rewrite <- app_assoc.
      replace (pCount - (h + 1)) with (Z.pred (pCount - h)) by lia.
      replace (h + 1) with (Z.succ h) by lia.
      f_equal. cbn [length]. lia.
    + apply Z.ltb_ge in E. rewrite IH.
      replace (seqZ h (pCount - h)) with (@nil Z)
        by (unfold seqZ; replace (Z.to_nat (pCount - h)) with 0%nat by lia; reflexivity).
      rewrite !zip_with_nil_r. f_equal. lia.
Qed.

Lemma seatBots_spec (n : nat) :
  forall (acc : list Player.t) (h : Z),
    Setup.seatBots dealtHands n (acc, h) =
    (acc ++ map (fun i => Player.mk ("bot-" +:+ pretty i) ("Bot " +:+ pretty i)
                            (Setup.handAt dealtHands i) false)
                (seqZ h (Z.of_nat n)),
     h + Z.of_nat n).
Proof.
  induction n as [| n IH]; intros acc h.
  - cbn. rewrite app_nil_r, Z.add_0_r. reflexivity.
  - cbn [Setup.seatBots]. rewrite IH.
    rewrite (seqZ_cons h (Z.of_nat (S n))) by lia. cbn [map]. rewrite <- app_assoc.
    replace (Z.pred (Z.of_nat (S n))) with (Z.of_nat n) by lia.
    replace (h + 1) with (Z.succ h) by lia.
    f_equal. lia.
Qed.

End Seats.

(** The seats [initGame] fills: the host, then the lobby entries in the
    order of the list while seats remain, then bots named after their
    seat; seat [i] holds hand [i] of the deal. *)
Lemma newPlayers_spec (a : App.t) (dealtHands : list (list Card.t)) :
  Setup.newPlayers a dealtHands =
  Player.mk (App.myPlayerId a) (App.myName a) (Setup.handAt dealtHands 0) true
  :: zip_with (fun p i => Player.mk (fst p) (snd p) (Setup.handAt dealtHands i) false)
       (App.connectedPeersList a) (seqZ 1 (App.playerCountSetting a - 1))
  ++ map (fun i => Player.mk ("bot-" +:+ pretty i) ("Bot " +:+ pretty i)
                     (Setup.handAt dealtHands i) false)
       (seqZ (1 + Z.of_nat (Nat.min (length (App.connectedPeersList a))
                                    (Z.to_nat (App.playerCountSetting a - 1))))
             (App.playerCountSetting a - 1
              - Z.of_nat (Nat.min (length (App.connectedPeersList a))
                                  (Z.to_nat (App.playerCountSetting a - 1))))).
Proof.
  unfold Setup.newPlayers. rewrite seatPeer_fold. cbn [fst snd].
  rewrite seatBots_spec. cbn [fst app]. f_equal. f_equal. f_equal.
  unfold seqZ. rewrite Nat2Z.id. f_equal. f_equal. lia.
Qed.

Lemma handAt_all (hands : list (list Card.t)) :
  map (Setup.handAt hands) (seqZ 0 (len hands)) = hands.
Proof.
  apply list_eq. intros i. rewrite list_lookup_fmap.
  destruct (decide (i < length hands)%nat) as [Hlt | Hge].
  - rewrite lookup_seqZ_lt by (unfold len; lia). cbn [fmap option_fmap option_map].
    unfold Setup.handAt. rewrite Z.add_0_l, js_get_of_nat.
    destruct (lookup_lt_is_Some_2 hands i Hlt) as [x ->]. reflexivity.
  - rewrite lookup_seqZ_ge by (unfold len; lia).
    rewrite lookup_ge_None_2 by lia. reflexivity.
Qed.

Lemma dealCards_length (deck : list Card.t) (playerCount : Z) :
  length (GameUtils.dealCards deck playerCount) = Z.to_nat playerCount.
Proof. rewrite dealCards_chunks, length_map, length_seq. reflexivity. Qed.

Lemma newPlayers_hands (a : App.t) (dealtHands : list (list Card.t)) :
  map Player.hand (Setup.newPlayers a dealtHands) =
  map (Setup.handAt dealtHands) (seqZ 0 (Z.max 1 (App.playerCountSetting a))).
Proof.
  rewrite newPlayers_spec.
  generalize (App.playerCountSetting a) as pc, (App.connectedPeersList a) as peers.
  intros pc peers.
  remember (Nat.min (length peers) (Z.to_nat (pc - 1))) as k eqn:Hk'.
  remember (Z.to_nat (pc - 1 - Z.of_nat k)) as m eqn:Hm.
  replace (seqZ (1 + Z.of_nat k) (pc - 1 - Z.of_nat k))
    with (seqZ (1 + Z.of_nat k) (Z.of_nat m))
    by (unfold seqZ; rewrite Hm, Nat2Z.id; reflexivity).
  replace (Z.max 1 pc) with (1 + (Z.of_nat k + Z.of_nat m)) by lia.
  rewrite seqZ_app by lia. rewrite (seqZ_app (0 + 1)) by lia.
  change (seqZ 0 1) with [0]. cbn [map app Player.hand]. rewrite !map_app.
  f_equal. f_equal.
  - change (0 + 1) with 1.
    replace (seqZ 1 (Z.of_nat k)) with (take k (seqZ 1 (pc - 1))).
    2:{ apply list_eq. intros i. destruct (decide (i < k)%nat).
        - rewrite lookup_take_lt by lia. rewrite !lookup_seqZ_lt by lia. reflexivity.
        - rewrite lookup_take_ge by lia. rewrite lookup_seqZ_ge by lia. reflexivity. }
    rewrite <- (zip_with_take_r' _ k) by (rewrite length_seqZ; lia).
    assert (Hlen : (length (take k (seqZ 1 (pc - 1))) <= length peers)%nat)
      by (rewrite length_take; lia).
    revert Hlen. generalize (take k (seqZ 1 (pc - 1))) as l'. clear.
    induction peers as [| p l IH]; intros [| i l'] Hlen.
    + reflexivity.
    + cbn [length] in Hlen. lia.
    + reflexivity.
    + cbn [length] in Hlen. cbn [zip_with map Player.hand].
      rewrite IH by lia. reflexivity.
  - rewrite map_map. reflexivity.
Qed.

Lemma zip_seats (dealtHands : list (list Card.t)) (peers : list (string * string)) :
  forall indices : list Z,
    map (fun p => (Player.id p, Player.name p))
        (zip_with (fun p i => Player.mk (fst p) (snd p) (Setup.handAt dealtHands i) false)
                  peers indices)
    = take (length indices) peers /\
    Forall (fun p => Player.isLocal p = false)
        (zip_with (fun p i => Player.mk (fst p) (snd p) (Setup.handAt dealtHands i) false)
                  peers indices).
Proof.
  induction peers as [| [pid name] rest IH]; intros [| i indices]; cbn [zip_with map take length].
  - split; [reflexivity | constructor].
  - split; [reflexivity | constructor].
  - split; [reflexivity | constructor].
  - destruct (IH indices) as [Hids Hlocal]. split.
    + cbn. f_equal. exact Hids.
    + constructor; [reflexivity | exact Hlocal].
Qed.

Lemma initGame_ref (firstClock : ClockDefinition.t) (otherClocks : list ClockDefinition.t)
    (random : Z -> Z) (clockId : string) (a : App.t) :
  App.gameStateRef (Setup.initGame firstClock otherClocks random clockId a) =
  Some (GameState.mk START_PLAYER_SELECTION
          (Setup.clockOrFirst firstClock otherClocks clockId)
          (map (fun i => ClockSegment.mk i []) (seqZ 0 TOTAL_SEGMENTS))
          (Setup.newPlayers a
             (GameUtils.dealCards (GameUtils.createDeck random) (App.playerCountSetting a)))
          (Num 0) 0 0
          (ClockDefinition.id (Setup.clockOrFirst firstClock otherClocks clockId))
          (-1) [] "").
Proof. reflexivity. Qed.

Lemma initGame_ui (firstClock : ClockDefinition.t) (otherClocks : list ClockDefinition.t)
    (random : Z -> Z) (clockId : string) (a : App.t) :
  App.ui (Setup.initGame firstClock otherClocks random clockId a) =
  GameState.mk START_PLAYER_SELECTION
    (Setup.clockOrFirst firstClock otherClocks clockId)
    (map (fun i => ClockSegment.mk i []) (seqZ 0 TOTAL_SEGMENTS))
    (Setup.newPlayers a
       (GameUtils.dealCards (GameUtils.createDeck random) (App.playerCountSetting a)))
    (GameState.currentPlayerIndex (App.ui a)) 0 0
    (GameState.clockDefId (App.ui a))
    (-1) [] "".
Proof. reflexivity. Qed.

(** X16.  [initGame] seats as many participants as the count setting says
    (one, the host, when the setting is below 1): the host first and alone
    local, then the lobby entries in the order they joined while seats
    remain, then bots named after the number of their seat. *)
Theorem initGame_seats (firstClock : ClockDefinition.t)
    (otherClocks : list ClockDefinition.t) (random : Z -> Z) (clockId : string)
    (a : App.t) :
  let pc := App.playerCountSetting a in
  let joined := take (Z.to_nat (pc - 1)) (App.connectedPeersList a) in
  let a' := Setup.initGame firstClock otherClocks random clockId a in
  exists st,
    App.gameStateRef a' = Some st /\
    GameState.players (App.ui a') = GameState.players st /\
    len (GameState.players st) = Z.max 1 pc /\
    map (fun p => (Player.id p, Player.name p)) (GameState.players st) =
      (App.myPlayerId a, App.myName a) :: joined ++
      map (fun i => ("bot-" +:+ pretty i, "Bot " +:+ pretty i))
          (seqZ (1 + len joined) (pc - 1 - len joined)) /\
    map Player.isLocal (GameState.players st) =
      true :: replicate (Z.to_nat (pc - 1)) false.
Proof.
  intros pc joined a'. subst a'. eexists. split; [apply initGame_ref |].
  rewrite initGame_ui. cbn [GameState.players]. split; [reflexivity |].
  split.
  { unfold len. rewrite <- (length_map Player.hand), newPlayers_hands.
    rewrite length_map, length_seqZ. fold pc. lia. }
  rewrite newPlayers_spec. fold pc.
  set (hands := GameUtils.dealCards _ _).
  destruct (zip_seats hands (App.connectedPeersList a) (seqZ 1 (pc - 1)))
    as [Hids Hlocal].
  rewrite length_seqZ in Hids. fold joined in Hids.
  assert (Hk : Z.of_nat (Nat.min (length (App.connectedPeersList a)) (Z.to_nat (pc - 1)))
               = len joined).
  { unfold len, joined. rewrite length_take. lia. }
  rewrite Hk. split.
  - cbn [map Player.id Player.name]. rewrite map_app, Hids, map_map. reflexivity.
  - cbn [map Player.isLocal]. f_equal. rewrite map_app, map_map. cbn [Player.isLocal].
    replace (Z.to_nat (pc - 1))
      with (length joined + Z.to_nat (pc - 1 - len joined))%nat
      by (unfold len, joined; rewrite length_take; lia).
    rewrite replicate_add. f_equal.
    + rewrite <- Hids, length_map.
      clear Hids. induction Hlocal as [| p l Hp _ IH]; [reflexivity |].
      cbn [map length replicate]. rewrite Hp, IH. reflexivity.
    + rewrite <- (length_seqZ (1 + len joined)).
      generalize (seqZ (1 + len joined) (pc - 1 - len joined)) as l.
      induction l as [| i l IH]; [reflexivity |].
      cbn [map length replicate]. rewrite IH. reflexivity.
Qed.

Lemma cardsInHands_concat (players : list Player.t) :
  cardsInHands players = len (concat (map Player.hand players)).
Proof.
  unfold len. induction players as [| p rest IH]; [reflexivity |].
  cbn [cardsInHands fold_right map concat]. fold (cardsInHands rest).
  rewrite IH, length_app. unfold len. lia.
Qed.

Lemma initGame_hands (random : Z -> Z) (a : App.t) :
  1 <= App.playerCountSetting a ->
  map Player.hand
      (Setup.newPlayers a
         (GameUtils.dealCards (GameUtils.createDeck random) (App.playerCountSetting a)))
  = GameUtils.dealCards (GameUtils.createDeck random) (App.playerCountSetting a).
Proof.
  intros Hpc. rewrite newPlayers_hands.
  rewrite <- (handAt_all (GameUtils.dealCards _ _)) at 2.
  unfold len. rewrite dealCards_length. f_equal. f_equal. lia.
Qed.

(** X17.  With a count setting of at least 1, [initGame] gives seat [i] the
    [i]-th hand of the deal of a fresh deck.  No card is held twice, every
    card held is one of the 24 of the deck, the hands hold
    [min 24 (count * perPlayer)] cards in all, and the board holds none. *)
Theorem initGame_deals (firstClock : ClockDefinition.t)
    (otherClocks : list ClockDefinition.t) (random : Z -> Z) (clockId : string)
    (a : App.t) :
  1 <= App.playerCountSetting a ->
  exists st,
    App.gameStateRef (Setup.initGame firstClock otherClocks random clockId a) = Some st /\
    map Player.hand (GameState.players st)
    = GameUtils.dealCards (GameUtils.createDeck random) (App.playerCountSetting a) /\
    NoDup (concat (map Player.hand (GameState.players st))) /\
    (forall c, c ∈ concat (map Player.hand (GameState.players st)) ->
               c ∈ GameUtils.unshuffledDeck) /\
    cardsInHands (GameState.players st)
    = Z.min 24 (App.playerCountSetting a
                * GameUtils.cardsPerPlayer (App.playerCountSetting a)) /\
    cardsOnBoard (GameState.clockSegments st) = 0.
Proof.
  intros Hpc. eexists. split; [apply initGame_ref |].
  cbn [GameState.players GameState.clockSegments].
  rewrite cardsInHands_concat, initGame_hands by assumption.
  rewrite dealCards_total.
  pose proof (createDeck_permutation random) as Hperm.
  split; [reflexivity |]. split; [| split; [| split; [| reflexivity]]].
  - apply (sublist_NoDup _ (GameUtils.createDeck random)); [| apply sublist_take].
    apply (NoDup_Permutation_proper _ _ Hperm). apply unshuffledDeck_NoDup.
  - intros c Hc. rewrite <- Hperm. exact (subseteq_take _ _ c Hc).
  - unfold len. rewrite length_take, createDeck_length.
    assert (Hcpp : 3 <= GameUtils.cardsPerPlayer (App.playerCountSetting a) <= 6).
    { unfold GameUtils.cardsPerPlayer.
      destruct (App.playerCountSetting a =? 2), (App.playerCountSetting a =? 4); lia. }
    nia.
Qed.

Lemma initGame_deals_witness :
  exists st,
    App.gameStateRef
      (Setup.initGame clock_II [clock_III] (fun n => n / 2) "c1-3"
         (Sample.hostApp Sample.selecting)) = Some st /\
    map Player.hand (GameState.players st)
    = GameUtils.dealCards (GameUtils.createDeck (fun n => n / 2)) 3 /\
    NoDup (concat (map Player.hand (GameState.players st))) /\
    (forall c, c ∈ concat (map Player.hand (GameState.players st)) ->
               c ∈ GameUtils.unshuffledDeck) /\
    cardsInHands (GameState.players st) = Z.min 24 (3 * GameUtils.cardsPerPlayer 3) /\
    cardsOnBoard (GameState.clockSegments st) = 0.
Proof.
  apply (initGame_deals clock_II [clock_III] (fun n => n / 2) "c1-3"
           (Sample.hostApp Sample.selecting)).
  vm_compute. discriminate.
Defined.

(** X18.  [initGame] stores a game in START_PLAYER_SELECTION with six
    slots, the turn index 0, both counters 0 and no resolution under way;
    its mission is the first of the table with the id asked for, or the
    first of the table when none has it.  The React cells show the stored
    game, except the cell of the turn index, which [initGame] does not
    write; the snapshot of the stored game goes once to every open
    connection. *)
Theorem initGame_opens_selection (firstClock : ClockDefinition.t)
    (otherClocks : list ClockDefinition.t) (random : Z -> Z) (clockId : string)
    (a : App.t) :
  let a' := Setup.initGame firstClock otherClocks random clockId a in
  exists st,
    App.gameStateRef a' = Some st /\
    (GameState.phase st = START_PLAYER_SELECTION /\
     len (GameState.clockSegments st) = TOTAL_SEGMENTS /\
     GameState.currentPlayerIndex st = Num 0 /\
     GameState.faceUpTokensUsed st = 0 /\ GameState.cardsPlayedCount st = 0 /\
     GameState.resolutionStep st = -1 /\ GameState.resolutionResults st = []) /\
    (GameState.clockDefId st = ClockDefinition.id (GameState.activeClockDef st) /\
     GameState.activeClockDef st ∈ firstClock :: otherClocks /\
     ((exists def, def ∈ firstClock :: otherClocks /\ ClockDefinition.id def = clockId) ->
      GameState.clockDefId st = clockId) /\
     (~ (exists def, def ∈ firstClock :: otherClocks /\ ClockDefinition.id def = clockId) ->
      GameState.activeClockDef st = firstClock)) /\
    App.ui a' =
      GameState.set_clockDefId (GameState.clockDefId (App.ui a))
        (GameState.set_currentPlayerIndex (GameState.currentPlayerIndex (App.ui a)) st) /\
    App.sent a' =
      App.sent a ++
      map (fun c => (c, STATE_UPDATE (App.sanitizeStateForNetwork st))) (openConnections a).
Proof.
  intros a'. subst a'. eexists. split; [apply initGame_ref |].
  split; [repeat split; reflexivity |].
  split; [| split; [apply initGame_ui | reflexivity]].
  cbn [GameState.clockDefId GameState.activeClockDef].
  split; [reflexivity |].
  unfold Setup.clockOrFirst.
  destruct (List.find _ (firstClock :: otherClocks)) as [def |] eqn:Hfind.
  - apply find_some in Hfind as [Hin Hid]. apply String.eqb_eq in Hid.
    split; [now apply list_elem_of_In |]. split; [intros _; exact Hid |].
    intros Hnone. exfalso. apply Hnone. exists def.
    split; [now apply list_elem_of_In | exact Hid].
  - split; [left |]. split; [| reflexivity].
    intros (def & Hin & Hid). apply list_elem_of_In in Hin.
    pose proof (find_none _ _ Hfind def Hin) as Hneq. cbn in Hneq.
    apply String.eqb_neq in Hneq. contradiction.
Qed.

(** ** The host's registry of connections *)

Section Registry.
Context {V : Type}.

Lemma obj_has_spec (key : string) (obj : list (string * V)) :
  obj_has key obj = true <-> key ∈ map fst obj.
Proof.
  unfold obj_has. rewrite existsb_exists, list_elem_of_In, in_map_iff. split.
  - intros ([k w] & Hin & Hk). apply String.eqb_eq in Hk. exists (k, w). auto.
  - intros ([k w] & Hk & Hin). exists (k, w). split; [exact Hin |].
    apply String.eqb_eq. exact Hk.
Qed.

Lemma obj_replace_keys (key : string) (v : V) (obj : list (string * V)) :
  map fst (obj_replace key v obj) = map fst obj.
Proof.
  induction obj as [| [k0 w0] rest IH]; [reflexivity |].
  cbn [obj_replace]. destruct (String.eqb k0 key); [reflexivity |].
  cbn [map fst]. now rewrite IH.
Qed.

Lemma obj_replace_elem (key : string) (v : V) (obj : list (string * V)) :
  NoDup (map fst obj) ->
  forall k w,
    (k, w) ∈ obj_replace key v obj <->
    (k = key /\ w = v /\ key ∈ map fst obj) \/ (k <> key /\ (k, w) ∈ obj).
Proof.
  induction obj as [| [k0 w0] rest IH]; intros Hnd k w.
  - cbn. split.
    + intros Hin. inversion Hin.
    + intros [(_ & _ & Hin) | [_ Hin]]; inversion Hin.
  - cbn [map fst] in Hnd. apply NoDup_cons in Hnd as [Hfresh Hnd].
    cbn [obj_replace map fst]. destruct (String.eqb k0 key) eqn:E.
    + apply String.eqb_eq in E. subst k0. rewrite !elem_of_cons. split.
      * intros [[= -> ->] | Hin]; [left; repeat split; left; reflexivity |].
        right. split; [| right; exact Hin].
        intros ->. apply Hfresh. apply list_elem_of_fmap. exists (key, w).
        split; [reflexivity | exact Hin].
      * intros [(-> & -> & _) | [Hne [[= -> ->] | Hin]]];
          [left; reflexivity | contradiction | right; exact Hin].
    + apply String.eqb_neq in E. rewrite !elem_of_cons, (IH Hnd). split.
      * intros [[= -> ->] | [(-> & -> & Hin) | [Hne Hin]]].
        -- right. split; [exact E | left; reflexivity].
        -- left. repeat split. right. exact Hin.
        -- right. split; [exact Hne | right; exact Hin].
      * intros [(-> & -> & [Heq | Hin]) | [Hne [[= -> ->] | Hin]]].
        -- exfalso. apply E. symmetry. exact Heq.
        -- right. left. repeat split. exact Hin.
        -- left. reflexivity.
        -- right. right. split; assumption.
Qed.

Lemma obj_insert_index_perm (n : N) (key : string) (v : V) (obj : list (string * V)) :
  obj_insert_index n key v obj ≡ₚ (key, v) :: obj.
Proof.
  induction obj as [| [k0 w0] rest IH]; [reflexivity |].
  cbn [obj_insert_index]. destruct (arrayIndex k0) as [m |]; [| reflexivity].
  destruct (m <? n)%N; [| reflexivity].
  rewrite IH. apply Permutation_swap.
Qed.

(** A key that the object does not have yet is added, whatever its place. *)
Lemma obj_set_new (key : string) (v : V) (obj : list (string * V)) :
  key <> "__proto__" -> key ∉ map fst obj ->
  obj_set key v obj ≡ₚ (key, v) :: obj.
Proof.
  intros Hproto Hnew. unfold obj_set.
  apply String.eqb_neq in Hproto. rewrite Hproto.
  destruct (obj_has key obj) eqn:Hhas.
  - apply obj_has_spec in Hhas. contradiction.
  - destruct (arrayIndex key) as [n |].
    + apply obj_insert_index_perm.
    + symmetry. apply Permutation_cons_append.
Qed.

Lemma obj_set_elem (key : string) (v : V) (obj : list (string * V)) :
  key <> "__proto__" ->
  NoDup (map fst obj) ->
  forall k w,
    (k, w) ∈ obj_set key v obj <->
    (k = key /\ w = v) \/ (k <> key /\ (k, w) ∈ obj).
Proof.
  intros Hproto Hnd k w.
  destruct (obj_has key obj) eqn:Hhas.
  - unfold obj_set. apply String.eqb_neq in Hproto. rewrite Hproto, Hhas.
    apply obj_has_spec in Hhas. rewrite (obj_replace_elem key v obj Hnd). tauto.
  - assert (Hnew : key ∉ map fst obj).
    { intros Hin. apply obj_has_spec in Hin. congruence. }
    rewrite (obj_set_new key v obj Hproto Hnew), elem_of_cons. split.
    + intros [[= -> ->] | Hin]; [left; split; reflexivity |].
      right. split; [| exact Hin].
      intros ->. apply Hnew. apply list_elem_of_fmap. exists (key, w).
      split; [reflexivity | exact Hin].
    + intros [[-> ->] | [_ Hin]]; [left; reflexivity | right; exact Hin].
Qed.

Lemma obj_set_NoDup (key : string) (v : V) (obj : list (string * V)) :
  NoDup (map fst obj) -> NoDup (map fst (obj_set key v obj)).
Proof.
  intros Hnd. destruct (String.eqb key "__proto__") eqn:Hproto.
  - unfold obj_set. rewrite Hproto. exact Hnd.
  - apply String.eqb_neq in Hproto. destruct (obj_has key obj) eqn:Hhas.
    + unfold obj_set. apply String.eqb_neq in Hproto. rewrite Hproto, Hhas.
      rewrite obj_replace_keys. exact Hnd.
    + assert (Hnew : key ∉ map fst obj).
      { intros Hin. apply obj_has_spec in Hin. congruence. }
      rewrite (obj_set_new key v obj Hproto Hnew). cbn [map fst].
      apply NoDup_cons. split; assumption.
Qed.

End Registry.

(** The order of the stored connections, evaluated: array indices first,
    in numeric order, then the other keys as they came; a key that is
    set again keeps its place; [__proto__] is not stored; [01] is not an
    array index. *)
Lemma obj_set_order_evaluated :
  obj_set "2" 4%nat (obj_set "a" 3%nat (obj_set "10" 2%nat (obj_set "b" 1%nat [])))
  = [("2", 4%nat); ("10", 2%nat); ("b", 1%nat); ("a", 3%nat)] /\
  obj_set "b" 9%nat [("2", 4%nat); ("b", 1%nat); ("a", 3%nat)]
  = [("2", 4%nat); ("b", 9%nat); ("a", 3%nat)] /\
  obj_set "__proto__" 5%nat [("b", 1%nat)] = [("b", 1%nat)] /\
  obj_set "01" 6%nat [("7", 1%nat); ("b", 2%nat)]
  = [("7", 1%nat); ("b", 2%nat); ("01", 6%nat)].
Proof. vm_compute. repeat split; reflexivity. Qed.

Lemma filter_out_then_in {A : Type} (f : A -> bool) (l : list A) :
  List.filter f (List.filter (fun x => negb (f x)) l) = [].
Proof.
  induction l as [| x l IH]; [reflexivity |].
  cbn [List.filter]. destruct (f x) eqn:E; cbn [negb]; [exact IH |].
  cbn [List.filter]. rewrite E. exact IH.
Qed.

Lemma filter_twice {A : Type} (f : A -> bool) (l : list A) :
  List.filter f (List.filter f l) = List.filter f l.
Proof.
  induction l as [| x l IH]; [reflexivity |].
  cbn [List.filter]. destruct (f x) eqn:E; [| exact IH].
  cbn [List.filter]. rewrite E, IH. reflexivity.
Qed.

Lemma handleHostData_join (a : App.t) (connection : Connection) (pid name : string) :
  exists a',
    App.handleHostData connection (JOIN pid name) a = Returned a' /\
    App.connectedPeersList a' =
      List.filter (fun p => negb (String.eqb (fst p) pid)) (App.connectedPeersList a)
      ++ [(pid, name)] /\
    App.peerConnectionsRef a' = obj_set pid connection (App.peerConnectionsRef a) /\
    App.gameStateRef a' = App.gameStateRef a /\
    App.ui a' = App.ui a /\
    (App.sent a' = App.sent a \/ exists m, App.sent a' = App.sent a ++ [(connection, m)]) /\
    ((App.gameStateRef a = None \/
      exists cur, App.gameStateRef a = Some cur /\ GameState.phase cur = LOBBY) ->
     App.sent a' = App.sent a).
Proof.
  unfold App.handleHostData.
  cbn [App.gameStateRef App.setConnectedPeersList App.set_peerConnectionsRef].
  destruct (App.gameStateRef a) as [cur |] eqn:Href.
  - destruct (decide (GameState.phase cur <> LOBBY)) as [Hphase | Hphase].
    + destruct (List.find _ (GameState.players cur)).
      * eexists. split; [reflexivity |]. cbn. repeat (split; [first [reflexivity | exact Href] |]).
        split; [right; eexists; reflexivity |].
        intros [Hnone | (cur' & [= <-] & Hlobby)]; [discriminate | contradiction].
      * eexists. split; [reflexivity |]. cbn. repeat (split; [first [reflexivity | exact Href] |]).
        split; [right; eexists; reflexivity |].
        intros [Hnone | (cur' & [= <-] & Hlobby)]; [discriminate | contradiction].
    + eexists. split; [reflexivity |]. cbn. repeat (split; [first [reflexivity | exact Href] |]).
      split; [left; reflexivity | intros _; reflexivity].
  - eexists. split; [reflexivity |]. cbn. repeat (split; [first [reflexivity | exact Href] |]).
    split; [left; reflexivity | intros _; reflexivity].
Qed.

(** X19.  A JOIN always returns and leaves exactly one lobby entry for
    the joining identity, with the new name, last in the list; the entries
    of the other identities stay, in their order.  The stored connections
    keep one entry per identity: for an identity other than [__proto__]
    the new connection replaces what the identity had and the other
    entries stay; the identity [__proto__] gets no entry.  The game and
    its React mirror are not touched, nothing is sent to any other
    connection, and nothing at all while the game is in the lobby. *)
Theorem join_registers_once (a : App.t) (connection : Connection) (pid name : string) :
  NoDup (map fst (App.peerConnectionsRef a)) ->
  exists a',
    App.handleHostData connection (JOIN pid name) a = Returned a' /\
    App.connectedPeersList a' =
      List.filter (fun p => negb (String.eqb (fst p) pid)) (App.connectedPeersList a)
      ++ [(pid, name)] /\
    List.filter (fun p => String.eqb (fst p) pid) (App.connectedPeersList a')
    = [(pid, name)] /\
    NoDup (map fst (App.peerConnectionsRef a')) /\
    (pid = "__proto__" -> App.peerConnectionsRef a' = App.peerConnectionsRef a) /\
    (pid <> "__proto__" ->
     forall k c, (k, c) ∈ App.peerConnectionsRef a' <->
                 (k = pid /\ c = connection) \/
                 (k <> pid /\ (k, c) ∈ App.peerConnectionsRef a)) /\
    App.gameStateRef a' = App.gameStateRef a /\
    App.ui a' = App.ui a /\
    (App.sent a' = App.sent a \/ exists m, App.sent a' = App.sent a ++ [(connection, m)]) /\
    ((App.gameStateRef a = None \/
      exists cur, App.gameStateRef a = Some cur /\ GameState.phase cur = LOBBY) ->
     App.sent a' = App.sent a).
Proof.
  intros Hnd.
  destruct (handleHostData_join a connection pid name)
    as (a' & Hrun & Hlist & Hrefs & Href & Hui & Hsent & Hlobby).
  exists a'. split; [exact Hrun |]. rewrite Hlist, Hrefs.
  split; [reflexivity |].
  split; [| split; [| split; [| split; [| repeat split; assumption]]]].
  - rewrite List.filter_app.
    rewrite (filter_out_then_in (fun p : string * string => String.eqb (fst p) pid)).
    cbn. rewrite String.eqb_refl. reflexivity.
  - apply obj_set_NoDup. exact Hnd.
  - intros ->. reflexivity.
  - intros Hproto. apply obj_set_elem; assumption.
Qed.

Lemma join_registers_once_witness :
  exists a',
    App.handleHostData 7%nat (JOIN "user-b" "Benno") (Sample.hostApp Sample.placing)
    = Returned a' /\
    App.connectedPeersList a' = [("user-c", "Cy"); ("user-b", "Benno")] /\
    App.peerConnectionsRef a' = [("user-b", 7%nat); ("user-c", 2%nat)].
Proof.
  destruct (join_registers_once (Sample.hostApp Sample.placing) 7%nat "user-b" "Benno")
    as (a' & Hrun & _).
  - apply (bool_decide_unpack _). vm_compute. exact I.
  - exists a'. split; [exact Hrun |].
    vm_compute in Hrun. injection Hrun as <-. split; reflexivity.
Defined.

(** ** Claiming the start *)

Lemma findIndex_some {A : Type} (f : A -> bool) (arr : list A) :
  (exists x, x ∈ arr /\ f x = true) ->
  exists x, js_get arr (findIndex f arr) = Some x /\ f x = true.
Proof.
  intros (x & Hin & Hfx).
  destruct (findIndex_range f arr) as [Hnone | Hrange].
  - apply find_none_findIndex in Hnone. apply list_elem_of_In in Hin.
    pose proof (find_none _ _ Hnone x Hin) as Hcontra. congruence.
  - destruct (js_get_in_range arr _ Hrange) as [y Hy].
    exists y. split; [exact Hy |]. exact (findIndex_found f arr y Hy).
Qed.

(** X20.  A start claim that reaches the host with a game in its ref
    always returns.  From an identity that holds no seat it changes
    nothing.  From a seated identity it stores a game in PLACEMENT whose
    turn index names a seat of that identity, with the message
    "<name> starts!", no resolution under way, and participants, board and
    counters as before; the React cells of phase and turn index follow, and
    the snapshot goes to every open connection. *)
Theorem claim_start_seats_claimant (a : App.t) (curr : GameState.t)
    (playerId name : string) :
  App.gameStateRef a = Some curr ->
  exists a',
    App.handleIncomingDataHost (CLAIM_START playerId name) a = Returned a' /\
    ((forall p, p ∈ GameState.players curr -> Player.id p <> playerId) -> a' = a) /\
    ((exists p, p ∈ GameState.players curr /\ Player.id p = playerId) ->
     exists next starter,
       App.gameStateRef a' = Some next /\
       GameState.phase next = PLACEMENT /\
       js_get_num (GameState.players next) (GameState.currentPlayerIndex next)
       = Some starter /\
       Player.id starter = playerId /\
       GameState.systemMessage next = Player.name starter +:+ " starts!" /\
       GameState.resolutionStep next = -1 /\
       GameState.resolutionResults next = [] /\
       GameState.players next = GameState.players curr /\
       GameState.clockSegments next = GameState.clockSegments curr /\
       GameState.faceUpTokensUsed next = GameState.faceUpTokensUsed curr /\
       GameState.cardsPlayedCount next = GameState.cardsPlayedCount curr /\
       GameState.phase (App.ui a') = PLACEMENT /\
       GameState.currentPlayerIndex (App.ui a') = GameState.currentPlayerIndex next /\
       App.sent a' =
         App.sent a ++
         map (fun c => (c, STATE_UPDATE (App.sanitizeStateForNetwork next)))
             (openConnections a)).
Proof.
  intros Href. unfold App.handleIncomingDataHost. rewrite Href.
  set (f := fun p : Player.t => String.eqb (Player.id p) playerId).
  destruct (findIndex_range f (GameState.players curr)) as [Hnone | Hrange].
  - rewrite Hnone. cbn [Z.eqb negb Pos.eqb]. exists a.
    split; [reflexivity |]. split; [reflexivity |].
    intros (p & Hin & Hid). exfalso.
    apply find_none_findIndex in Hnone. apply list_elem_of_In in Hin.
    pose proof (find_none _ _ Hnone p Hin) as Hcontra. unfold f in Hcontra.
    apply String.eqb_neq in Hcontra. contradiction.
  - destruct (js_get_in_range _ _ Hrange) as [starter Hstarter].
    pose proof (findIndex_found f _ _ Hstarter) as Hid. unfold f in Hid.
    apply String.eqb_eq in Hid.
    assert (Hneq : (findIndex f (GameState.players curr) =? -1) = false)
      by (apply Z.eqb_neq; lia).
    rewrite Hneq. cbn [negb]. eexists. split; [reflexivity |]. split.
    + intros Hnone. exfalso. apply (Hnone starter); [| exact Hid].
      apply js_get_Some in Hstarter as [_ Hlookup].
      eapply list_elem_of_lookup_2. exact Hlookup.
    + intros _. unfold App.startGamePhase. rewrite Href, Hstarter.
      eexists. exists starter. split; [reflexivity |].
      cbn. rewrite Hstarter. repeat (split; [first [reflexivity | exact Hid] |]).
      reflexivity.
Qed.

Lemma claim_start_seats_claimant_witness :
  exists a' next,
    App.handleIncomingDataHost (CLAIM_START "user-b" "Ben")
      (Sample.hostApp Sample.selecting) = Returned a' /\
    App.gameStateRef a' = Some next /\
    GameState.phase next = PLACEMENT /\
    js_get_num (GameState.players next) (GameState.currentPlayerIndex next)
    = Some Sample.guest.
Proof.
  destruct (claim_start_seats_claimant (Sample.hostApp Sample.selecting) Sample.selecting
              "user-b" "Ben" eq_refl) as (a' & Hrun & _ & Hseated).
  destruct Hseated as (next & starter & Href & Hphase & Hturn & _).
  - exists Sample.guest. split; [| reflexivity].
    apply list_elem_of_In. right. left. reflexivity.
  - exists a', next. split; [exact Hrun |]. split; [exact Href |].
    split; [exact Hphase |].
    vm_compute in Hrun. injection Hrun as <-.
    vm_compute in Href. injection Href as <-. reflexivity.
Defined.

(** ** Clicks of the local participant *)

(** X21.  A click on a slot that returns changes more than the feedback
    line only as a legal move of the local participant: the phase is
    PLACEMENT, the participant at the turn index has the local identity,
    the selected card is in the hand of the first participant with that
    identity, and the mission's restriction accepts the card on the slot
    (the test [isValidMove] makes).  The host then applies the move; a
    replica sends one MOVE to the host, clears the selection and changes
    nothing of the game. *)
Theorem handleSegmentClick_only_legal_moves (a a' : App.t) (segmentIndex : Z) :
  App.handleSegmentClick segmentIndex a = Returned a' ->
  a' = a \/
  (exists msg, a' = App.setFeedback msg a) \/
  (GameState.phase (App.ui a) = PLACEMENT /\
   exists current me card,
     js_get_num (GameState.players (App.ui a))
                (GameState.currentPlayerIndex (App.ui a)) = Some current /\
     Player.id current = App.myPlayerId a /\
     List.find (fun p => String.eqb (Player.id p) (App.myPlayerId a))
               (GameState.players (App.ui a)) = Some me /\
     card ∈ Player.hand me /\
     App.selectedCardId a = Some (Card.id card) /\
     GameUtils.isValidMove card segmentIndex (GameState.clockSegments (App.ui a))
       (GameState.activeClockDef (App.ui a)) (GameState.cardsPlayedCount (App.ui a))
     = true /\
     ((App.isHost a = true /\
       App.executePlayCard (App.myPlayerId a) card segmentIndex (App.playFaceUp a) a
       = Returned a') \/
      (App.isHost a = false /\
       exists c,
         App.conn a = Some c /\
         a' = App.setSelectedCardId None
                (App.setFeedback "Sending..."
                   (App.send c (MOVE (App.myPlayerId a) card segmentIndex
                                     (App.playFaceUp a)) a))))).
Proof.
  unfold App.handleSegmentClick.
  destruct (decide (GameState.phase (App.ui a) <> PLACEMENT)) as [Hphase | Hphase];
    [intros [= <-]; left; reflexivity |].
  apply dec_stable in Hphase.
  destruct (js_get_num _ _) as [current |] eqn:Hcur; [| discriminate].
  destruct (String.eqb (Player.id current) (App.myPlayerId a)) eqn:Hmine;
    cbn [negb]; [| intros [= <-]; left; reflexivity].
  apply String.eqb_eq in Hmine.
  destruct (App.selectedCardId a) as [selected |] eqn:Hsel;
    [| intros [= <-]; right; left; eexists; reflexivity].
  destruct (String.eqb selected ""); [intros [= <-]; right; left; eexists; reflexivity |].
  destruct (List.find _ (GameState.players (App.ui a))) as [me |] eqn:Hme;
    [| intros [= <-]; left; reflexivity].
  destruct (List.find _ (Player.hand me)) as [card |] eqn:Hcard;
    [| intros [= <-]; left; reflexivity].
  apply find_some in Hcard as [Hin Hid]. apply String.eqb_eq in Hid.
  apply list_elem_of_In in Hin.
  match goal with
  | |- context [negb (ValidationResult.passed ?check)] =>
      destruct (ValidationResult.passed check) eqn:Hcheck
  end; cbn [negb]; [| intros [= <-]; right; left; eexists; reflexivity].
  assert (Hvalid : GameUtils.isValidMove card segmentIndex
                     (GameState.clockSegments (App.ui a))
                     (GameState.activeClockDef (App.ui a))
                     (GameState.cardsPlayedCount (App.ui a)) = true).
  { unfold GameUtils.isValidMove.
    destruct (ClockDefinition.placementRestriction _); [| reflexivity].
    rewrite Hcheck. reflexivity. }
  destruct (App.isHost a) eqn:Hhost.
  - intros Hrun. right. right. split; [exact Hphase |].
    exists current, me, card. rewrite Hid.
    repeat (split; [first [reflexivity | assumption] |]).
    left. split; [reflexivity | exact Hrun].
  - destruct (App.conn a) as [c |] eqn:Hconn; [| intros [= <-]; left; reflexivity].
    intros [= <-]. right. right. split; [exact Hphase |].
    exists current, me, card. rewrite Hid.
    repeat (split; [first [reflexivity | assumption] |]).
    right. split; [reflexivity |]. exists c. split; reflexivity.
Qed.

Lemma handleSegmentClick_only_legal_moves_witness :
  exists a',
    App.handleSegmentClick 2
      (App.setSelectedCardId (Some "s-1") (Sample.hostApp Sample.placing)) = Returned a' /\
    (a' = App.setSelectedCardId (Some "s-1") (Sample.hostApp Sample.placing) \/
     (exists msg,
        a' = App.setFeedback msg
               (App.setSelectedCardId (Some "s-1") (Sample.hostApp Sample.placing))) \/
     GameState.phase Sample.placing = PLACEMENT).
Proof.
  eexists. split; [vm_compute; reflexivity |].
  destruct (handleSegmentClick_only_legal_moves
              (App.setSelectedCardId (Some "s-1") (Sample.hostApp Sample.placing)) _ 2
              ltac:(vm_compute; reflexivity)) as [H | [H | [H _]]].
  - left. exact H.
  - right. left. exact H.
  - right. right. exact H.
Defined.

(** X22.  A click on a card never touches the game, the ref or the
    network.  It changes the selection only in PLACEMENT, at the local
    participant's turn, for a card in the local hand: a click on the
    selected card clears the selection, a click on another card selects it
    and resets the face-up switch. *)
Theorem handleCardSelect_selects_own_card (a a' : App.t) (cardId : string) :
  App.handleCardSelect cardId a = Returned a' ->
  App.ui a' = App.ui a /\ App.gameStateRef a' = App.gameStateRef a /\
  App.sent a' = App.sent a /\
  (a' = a \/
   (GameState.phase (App.ui a) = PLACEMENT /\
    exists current me card,
      js_get_num (GameState.players (App.ui a))
                 (GameState.currentPlayerIndex (App.ui a)) = Some current /\
      Player.id current = App.myPlayerId a /\
      List.find (fun p => String.eqb (Player.id p) (App.myPlayerId a))
                (GameState.players (App.ui a)) = Some me /\
      card ∈ Player.hand me /\ Card.id card = cardId /\
      ((App.selectedCardId a = Some cardId /\ a' = App.setSelectedCardId None a) \/
       (App.selectedCardId a <> Some cardId /\
        a' = App.setPlayFaceUp false (App.setSelectedCardId (Some cardId) a))))).
Proof.
  unfold App.handleCardSelect.
  destruct (decide (GameState.phase (App.ui a) <> PLACEMENT)) as [Hphase | Hphase];
    [intros [= <-]; repeat split; left; reflexivity |].
  apply dec_stable in Hphase.
  destruct (List.find _ (GameState.players (App.ui a))) as [me |] eqn:Hme;
    [| intros [= <-]; repeat split; left; reflexivity].
  destruct (js_get_num _ _) as [current |] eqn:Hcur; [| discriminate].
  destruct (String.eqb (Player.id current) (App.myPlayerId a)) eqn:Hmine;
    cbn [negb]; [| intros [= <-]; repeat split; left; reflexivity].
  apply String.eqb_eq in Hmine.
  destruct (some _ (Player.hand me)) eqn:Hsome;
    [| intros [= <-]; repeat split; left; reflexivity].
  unfold some in Hsome. apply existsb_exists in Hsome as (card & Hin & Hid).
  apply String.eqb_eq in Hid. apply list_elem_of_In in Hin.
  destruct (App.selectedCardId a) as [selected |] eqn:Hsel;
    [destruct (String.eqb selected cardId) eqn:Hsame |];
    intros [= <-]; (split; [reflexivity |]); (split; [reflexivity |]);
    (split; [reflexivity |]); right; (split; [exact Hphase |]);
    exists current, me, card;
    repeat (split; [first [reflexivity | assumption] |]).
  - apply String.eqb_eq in Hsame. subst selected. left. split; reflexivity.
  - apply String.eqb_neq in Hsame. right. split; [congruence | reflexivity].
  - right. split; [discriminate | reflexivity].
Qed.

Lemma handleCardSelect_selects_own_card_witness :
  exists a',
    App.handleCardSelect "s-2" (Sample.hostApp Sample.placing) = Returned a' /\
    App.ui a' = Sample.placing /\
    App.gameStateRef a' = Some Sample.placing /\
    App.sent a' = [].
Proof.
  eexists. split; [vm_compute; reflexivity |].
  destruct (handleCardSelect_selects_own_card (Sample.hostApp Sample.placing) _ "s-2"
              ltac:(vm_compute; reflexivity)) as (Hui & Href & Hsent & _).
  split; [exact Hui |]. split; [exact Href | exact Hsent].
Defined.

(** ** The missions Clock II and Clock III *)

Lemma slotOrder_start_0 (definition : ClockDefinition.t) (i : Z) :
  ClockDefinition.startingSegmentIndex definition = 0 ->
  0 <= i < TOTAL_SEGMENTS -> slotOrder definition i = i.
Proof.
  intros Hstart Hi. unfold slotOrder. rewrite Hstart, Z.add_0_l.
  apply Z.rem_small. exact Hi.
Qed.

Lemma ascending_below_last (sums : Z -> Z) :
  (forall i, 1 <= i < TOTAL_SEGMENTS -> sums (i - 1) <= sums i) ->
  forall i, 0 <= i < TOTAL_SEGMENTS -> sums i <= sums 5.
Proof.
  unfold TOTAL_SEGMENTS. intros Hasc i Hi.
  pose proof (Hasc 1 ltac:(lia)) as H1. pose proof (Hasc 2 ltac:(lia)) as H2.
  pose proof (Hasc 3 ltac:(lia)) as H3. pose proof (Hasc 4 ltac:(lia)) as H4.
  pose proof (Hasc 5 ltac:(lia)) as H5.
  change (1 - 1) with 0 in H1. change (2 - 1) with 1 in H2.
  change (3 - 1) with 2 in H3. change (4 - 1) with 3 in H4.
  change (5 - 1) with 4 in H5.
  assert (Hcases : i = 0 \/ i = 1 \/ i = 2 \/ i = 3 \/ i = 4 \/ i = 5) by lia.
  destruct Hcases as [-> | [-> | [-> | [-> | [-> | ->]]]]]; lia.
Qed.

Lemma clock_II_rules (c : Z) (seg : ClockSegment.t) :
  slotRuleHolds clock_II c seg <->
  (c = 2 -> 8 <= sumCards (ClockSegment.cards seg) <= 12) /\
  (c = 3 -> len (ClockSegment.cards seg) = 3).
Proof.
  unfold slotRuleHolds, clock_II. cbn [ClockDefinition.segmentRules]. split.
  - intros H. split; intros ->.
    + specialize (H _ _ eq_refl (lookup_insert_eq _ _ _)). cbn beta zeta in H.
      destruct (_ && _) eqn:E; [| discriminate H].
      apply andb_true_iff in E as [E1 E2].
      apply Z.leb_le in E1. apply Z.leb_le in E2. lia.
    + assert (Hne : (2 : Z) <> 3) by lia.
      specialize (H _ _ eq_refl
                    (eq_trans (lookup_insert_ne _ _ _ _ Hne) (lookup_insert_eq _ _ _))).
      cbn beta in H.
      destruct (_ =? 3) eqn:E; [| discriminate H]. apply Z.eqb_eq in E. exact E.
  - intros [H2 H3] rules rule [= <-] Hlook.
    apply lookup_insert_Some in Hlook as [[<- <-] | [Hne2 Hlook]].
    + specialize (H2 eq_refl). cbn beta zeta.
      rewrite (proj2 (Z.leb_le _ _) (proj1 H2)), (proj2 (Z.leb_le _ _) (proj2 H2)).
      reflexivity.
    + apply lookup_insert_Some in Hlook as [[<- <-] | [Hne3 Hlook]].
      * rewrite (H3 eq_refl). reflexivity.
      * rewrite lookup_empty in Hlook. discriminate.
Qed.

Lemma clock_III_rules (c : Z) (seg : ClockSegment.t) :
  slotRuleHolds clock_III c seg <->
  (c = 5 -> 20 <= sumCards (ClockSegment.cards seg) <= 30).
Proof.
  unfold slotRuleHolds, clock_III. cbn [ClockDefinition.segmentRules]. split.
  - intros H ->.
    specialize (H _ _ eq_refl (lookup_insert_eq _ _ _)). cbn beta zeta in H.
    destruct (_ && _) eqn:E; [| discriminate H].
    apply andb_true_iff in E as [E1 E2].
    apply Z.leb_le in E1. apply Z.leb_le in E2. lia.
  - intros H5 rules rule [= <-] Hlook.
    apply lookup_insert_Some in Hlook as [[<- <-] | [Hne Hlook]].
    + specialize (H5 eq_refl). cbn beta zeta.
      rewrite (proj2 (Z.leb_le _ _) (proj1 H5)), (proj2 (Z.leb_le _ _) (proj2 H5)).
      reflexivity.
    + rewrite lookup_empty in Hlook. discriminate.
Qed.

(** X23.  A board of six slots whose card values and sums are safe
    integers wins Clock II exactly when every slot holds
    a card, the sums do not decrease from slot 0 to slot 5, slot 2 sums to
    8..12, slot 3 holds exactly three cards and the last sum is at most
    999. *)
Theorem clock_II_victory (segments : list ClockSegment.t) :
  len segments = TOTAL_SEGMENTS ->
  exactBoard segments = true ->
  exists results,
    GameUtils.validateClock segments clock_II = Returned results /\
    (every ValidationResult.passed results = true <->
     (forall seg, seg ∈ segments -> ClockSegment.cards seg <> []) /\
     (forall i, 1 <= i < TOTAL_SEGMENTS -> slotSum segments (i - 1) <= slotSum segments i) /\
     8 <= slotSum segments 2 <= 12 /\
     len (ClockSegment.cards (slotAt segments 3)) = 3 /\
     slotSum segments 5 <= 999).
Proof.
  intros Hboard _.
  destruct (validateClock_spec segments clock_II Hboard ltac:(cbn; lia))
    as (results & Hrun & Hiff).
  exists results. split; [exact Hrun |]. rewrite Hiff. clear Hiff Hrun results.
  assert (Horder : forall i, 0 <= i < TOTAL_SEGMENTS -> slotOrder clock_II i = i)
    by (intros i Hi; now apply slotOrder_start_0).
  split.
  - intros [Hne Hasc Hrules Hmax _]. split; [exact Hne |]. split.
    { intros i Hi. specialize (Hasc i Hi). rewrite !Horder in Hasc by lia. exact Hasc. }
    pose proof (proj1 (clock_II_rules 2 _) (Hrules 2 ltac:(unfold TOTAL_SEGMENTS; lia)))
      as [H2 _].
    pose proof (proj1 (clock_II_rules 3 _) (Hrules 3 ltac:(unfold TOTAL_SEGMENTS; lia)))
      as [_ H3].
    split; [exact (H2 eq_refl) |]. split; [exact (H3 eq_refl) |].
    apply (Hmax 999 5); [reflexivity | lia | unfold TOTAL_SEGMENTS; lia].
  - intros (Hne & Hasc & H2 & H3 & Hlast). constructor.
    + exact Hne.
    + intros i Hi. rewrite !Horder by lia. now apply Hasc.
    + intros i Hi. apply clock_II_rules. split; intros ->; assumption.
    + intros maxTotal i [= <-] _ Hi.
      pose proof (ascending_below_last (slotSum segments) Hasc i Hi). lia.
    + intros rule Hrule. discriminate Hrule.
Qed.

Lemma clock_II_victory_witness :
  exists results,
    GameUtils.validateClock Sample.wonBoard clock_II = Returned results /\
    every ValidationResult.passed results = true.
Proof.
  destruct (clock_II_victory Sample.wonBoard eq_refl eq_refl)
    as (results & Hrun & Hiff).
  exists results. split; [exact Hrun |].
  vm_compute in Hrun. injection Hrun as <-. reflexivity.
Defined.

(** X24.  A board of six slots whose card values and sums are safe
    integers wins Clock III exactly when every slot
    holds a card, the sums do not decrease from slot 0 to slot 5 and slot 5
    sums to 20..30. *)
Theorem clock_III_victory (segments : list ClockSegment.t) :
  len segments = TOTAL_SEGMENTS ->
  exactBoard segments = true ->
  exists results,
    GameUtils.validateClock segments clock_III = Returned results /\
    (every ValidationResult.passed results = true <->
     (forall seg, seg ∈ segments -> ClockSegment.cards seg <> []) /\
     (forall i, 1 <= i < TOTAL_SEGMENTS -> slotSum segments (i - 1) <= slotSum segments i) /\
     20 <= slotSum segments 5 <= 30).
Proof.
  intros Hboard _.
  destruct (validateClock_spec segments clock_III Hboard ltac:(cbn; lia))
    as (results & Hrun & Hiff).
  exists results. split; [exact Hrun |]. rewrite Hiff. clear Hiff Hrun results.
  assert (Horder : forall i, 0 <= i < TOTAL_SEGMENTS -> slotOrder clock_III i = i)
    by (intros i Hi; now apply slotOrder_start_0).
  split.
  - intros [Hne Hasc Hrules _ _]. split; [exact Hne |]. split.
    { intros i Hi. specialize (Hasc i Hi). rewrite !Horder in Hasc by lia. exact Hasc. }
    exact (proj1 (clock_III_rules 5 _) (Hrules 5 ltac:(unfold TOTAL_SEGMENTS; lia))
             eq_refl).
  - intros (Hne & Hasc & H5). constructor.
    + exact Hne.
    + intros i Hi. rewrite !Horder by lia. now apply Hasc.
    + intros i Hi. apply clock_III_rules. intros ->. exact H5.
    + intros maxTotal i [= <-] _ Hi.
      pose proof (ascending_below_last (slotSum segments) Hasc i Hi).
      unfold slotSum in *. lia.
    + intros rule Hrule. discriminate Hrule.
Qed.

Lemma clock_III_victory_witness :
  exists results,
    GameUtils.validateClock (GameState.clockSegments Sample.descending) clock_III
    = Returned results /\
    every ValidationResult.passed results = false.
Proof.
  destruct (clock_III_victory (GameState.clockSegments Sample.descending)
              eq_refl eq_refl) as (results & Hrun & Hiff).
  exists results. split; [exact Hrun |].
  vm_compute in Hrun. injection Hrun as <-. reflexivity.
Defined.

Lemma clock_III_isValidMove (card : Card.t) (segmentIndex : Z)
    (segments : list ClockSegment.t) (cardsPlayedTotal : Z) :
  GameUtils.isValidMove card segmentIndex segments clock_III cardsPlayedTotal = true <->
  (cardsPlayedTotal = 0 -> segmentIndex = 2) /\
  (cardsPlayedTotal = 1 -> segmentIndex = 1).
Proof.
  unfold GameUtils.isValidMove, clock_III.
  cbn [ClockDefinition.placementRestriction].
  destruct (Z.eqb_spec cardsPlayedTotal 0), (Z.eqb_spec segmentIndex 2),
    (Z.eqb_spec cardsPlayedTotal 1), (Z.eqb_spec segmentIndex 1);
    cbn; split; try (intros; discriminate); try (intros; split; intros; lia);
    intros [H0 H1]; try reflexivity; exfalso; lia.
Qed.

(** X25.  Under Clock III a bot that holds a card always finds a move the
    mission accepts: the selector returns a card of the hand and a slot of
    the board, slot 2 for the first card of the game and slot 1 for the
    second. *)
Theorem clock_III_bot_opening (random : Z -> Z) (hand : list Card.t)
    (segments : list ClockSegment.t) (cardsPlayedTotal : Z) :
  (forall k, 0 < k -> 0 <= random k < k) ->
  hand <> [] ->
  exists card segmentIndex,
    GameUtils.findBestBotMove random hand segments clock_III cardsPlayedTotal
    = Some (card, segmentIndex) /\
    card ∈ hand /\ 0 <= segmentIndex < TOTAL_SEGMENTS /\
    (cardsPlayedTotal = 0 -> segmentIndex = 2) /\
    (cardsPlayedTotal = 1 -> segmentIndex = 1).
Proof.
  intros Hrandom Hhand.
  destruct hand as [| first others]; [contradiction |].
  assert (Hin : exists slot,
            (first, slot) ∈ GameUtils.validMoves (first :: others) segments clock_III
                              cardsPlayedTotal).
  { exists (if cardsPlayedTotal =? 0 then 2 else if cardsPlayedTotal =? 1 then 1 else 0).
    apply validMoves_elem. split; [left |]. unfold TOTAL_SEGMENTS.
    rewrite clock_III_isValidMove.
    destruct (Z.eqb_spec cardsPlayedTotal 0), (Z.eqb_spec cardsPlayedTotal 1);
      repeat split; intros; lia. }
  destruct Hin as [slot Hin].
  destruct (findBestBotMove_some_valid segments clock_III cardsPlayedTotal random
              (first :: others) Hrandom) as ([card i] & Hmove & Hvalid).
  { intros Hnil. rewrite Hnil in Hin. inversion Hin. }
  apply validMoves_elem in Hvalid as (Hc & Hi & Hv).
  apply clock_III_isValidMove in Hv as [H0 H1].
  exists card, i. repeat (split; [assumption |]). exact H1.
Qed.

Lemma clock_III_bot_opening_witness :
  exists card,
    GameUtils.findBestBotMove (fun _ => 0) [Sample.solar 9; Sample.solar 10]
      Sample.emptyBoard clock_III 0 = Some (card, 2).
Proof.
  destruct (clock_III_bot_opening (fun _ => 0) [Sample.solar 9; Sample.solar 10]
              Sample.emptyBoard 0) as (card & i & Hmove & _ & _ & H0 & _).
  - intros k Hk. lia.
  - discriminate.
  - exists card. rewrite Hmove, (H0 eq_refl). reflexivity.
Defined.

(** ** From the host's move to the replicas *)

Lemma applyRemoteState_game (firstClock : ClockDefinition.t)
    (otherClocks : list ClockDefinition.t) (g : GameState.t) (r : App.t) :
  let r' := Client.applyRemoteState firstClock otherClocks
              (App.sanitizeStateForNetwork g) r in
  GameState.phase (App.ui r') = GameState.phase g /\
  GameState.players (App.ui r') = GameState.players g /\
  GameState.clockSegments (App.ui r') = GameState.clockSegments g /\
  GameState.currentPlayerIndex (App.ui r') = GameState.currentPlayerIndex g /\
  GameState.faceUpTokensUsed (App.ui r') = GameState.faceUpTokensUsed g /\
  GameState.cardsPlayedCount (App.ui r') = GameState.cardsPlayedCount g.
Proof.
  unfold Client.applyRemoteState. cbn [Snapshot.phase Snapshot.clockDefId
    Snapshot.resolutionStep Snapshot.resolutionResults App.sanitizeStateForNetwork].
  destruct (String.eqb (GameState.clockDefId g) "");
    [| destruct (List.find _ _)];
    destruct (decide (GameState.phase g = RESOLUTION)) as [Hres | Hres];
    cbn; destruct (GameState.currentPlayerIndex g);
    repeat split; reflexivity.
Qed.

Lemma last_constant {A : Type} (x : A) (l : list A) :
  Forall (fun y => y = x) l -> l <> [] -> last l = Some x.
Proof.
  intros Hall Hne. destruct (last l) as [y |] eqn:Hlast.
  - apply last_Some_elem_of in Hlast.
    rewrite Forall_forall in Hall. now rewrite (Hall y Hlast).
  - apply last_None in Hlast. contradiction.
Qed.

Lemma last_to_connection (c : Connection) (msg : Message) (conns : list Connection) :
  c ∈ conns ->
  last (List.filter (fun m : Connection * Message => Nat.eqb (fst m) c)
                    (map (fun c' => (c', msg)) conns))
  = Some (c, msg).
Proof.
  intros Hin. apply last_constant.
  - apply Forall_forall. intros [c' m] Hm.
    apply list_elem_of_In, filter_In in Hm as [Hm Hc].
    apply in_map_iff in Hm as (c'' & [= <- <-] & _).
    cbn in Hc. apply Nat.eqb_eq in Hc. now subst.
  - intros Hnil.
    assert (Hm : In (c, msg)
                   (List.filter (fun m : Connection * Message => Nat.eqb (fst m) c)
                                (map (fun c' => (c', msg)) conns))).
    { apply filter_In. split; [| cbn; apply Nat.eqb_refl].
      apply in_map_iff. exists c. split; [reflexivity | now apply list_elem_of_In]. }
    rewrite Hnil in Hm. inversion Hm.
Qed.

(** X26.  A move reaches every replica.  After a move that the host
    applies, the last message sent on each open stored connection is a
    state update, and a replica that handles it shows the game the host
    has stored: phase, participants with their hands, board, turn index
    and both counters. *)
Theorem move_reaches_replicas (a : App.t) (curr : GameState.t)
    (playerId : string) (card : Card.t) (s : Z) (faceUp : bool)
    (c : Connection) (firstClock : ClockDefinition.t)
    (otherClocks : list ClockDefinition.t) (r : App.t) :
  App.gameStateRef a = Some curr ->
  0 <= s < len (GameState.clockSegments curr) ->
  c ∈ openConnections a ->
  exists a' next msg,
    App.executePlayCard playerId card s faceUp a = Returned a' /\
    App.gameStateRef a' = Some next /\
    last (List.filter (fun m : Connection * Message => Nat.eqb (fst m) c) (App.sent a'))
    = Some (c, msg) /\
    GameState.phase (App.ui (Client.handleClientData firstClock otherClocks msg r))
    = GameState.phase next /\
    GameState.players (App.ui (Client.handleClientData firstClock otherClocks msg r))
    = GameState.players next /\
    GameState.clockSegments (App.ui (Client.handleClientData firstClock otherClocks msg r))
    = GameState.clockSegments next /\
    GameState.currentPlayerIndex
      (App.ui (Client.handleClientData firstClock otherClocks msg r))
    = GameState.currentPlayerIndex next /\
    GameState.faceUpTokensUsed
      (App.ui (Client.handleClientData firstClock otherClocks msg r))
    = GameState.faceUpTokensUsed next /\
    GameState.cardsPlayedCount
      (App.ui (Client.handleClientData firstClock otherClocks msg r))
    = GameState.cardsPlayedCount next.
Proof.
  intros Href Hs Hopen.
  destruct (js_get_in_range _ _ Hs) as [seg Hseg].
  destruct (executePlayCard_effects a curr playerId card s faceUp Href seg Hseg)
    as (a' & next & Hrun & Hnext & _ & _ & _ & _ & _ & _ & _ & _ & earlier & Hsent & _).
  exists a', next, (STATE_UPDATE (App.sanitizeStateForNetwork next)).
  split; [exact Hrun |]. split; [exact Hnext |]. split.
  - rewrite Hsent, !List.filter_app, !last_app.
    rewrite (last_to_connection c _ _ Hopen). reflexivity.
  - cbn [Client.handleClientData].
    exact (applyRemoteState_game firstClock otherClocks next r).
Qed.

Lemma move_reaches_replicas_witness :
  exists a' next msg,
    App.executePlayCard "user-h" (Sample.solar 1) 2 false (Sample.hostApp Sample.placing)
    = Returned a' /\
    App.gameStateRef a' = Some next /\
    last (List.filter (fun m : Connection * Message => Nat.eqb (fst m) 1%nat) (App.sent a'))
    = Some (1%nat, msg) /\
    GameState.players
      (App.ui (Client.handleClientData clock_II [clock_III] msg
                 (Sample.hostApp Sample.selecting)))
    = GameState.players next.
Proof.
  destruct (move_reaches_replicas (Sample.hostApp Sample.placing) Sample.placing
              "user-h" (Sample.solar 1) 2 false 1%nat clock_II [clock_III]
              (Sample.hostApp Sample.selecting))
    as (a' & next & msg & Hrun & Href & Hlast & _ & Hplayers & _).
  - reflexivity.
  - vm_compute. split; [discriminate | reflexivity].
  - apply (bool_decide_unpack _). vm_compute. exact I.
  - exists a', next, msg. repeat (split; [assumption |]). exact Hplayers.
Defined.
